(** * sativa / epac / taxonomy_util.py : a shallow embedding and its properties

    The development follows the three classes of [taxonomy_util.py]:
    [TaxCode] (rank-level guessing from name suffixes), [Taxonomy] (the
    sequence -> rank-path store with its reverse index and the reconciliation
    passes) and [TaxTreeBuilder] (filtering and per-parent quota).

    Conventions of the embedding.
    - Python [str] is [string]; Python [int] used as an index or a level is
      [Z] wherever it can become negative, [nat] for loop counters produced by
      [range].
    - A raised exception is a value [Raise e] of the [result] monad.
    - A [dict] is an association list without duplicate keys whose order is
      the order in which the dictionary is iterated.
    - The rank lists stored in [seq_ranks_map] are mutable Python objects that
      several keys may share (after [merge_ranks]); the store therefore holds
      a heap of list objects and the dictionary maps identifiers to
      addresses.
    - A Python [set] of names is a [gset string].

    Two methods are left out. [normalize_seq_ids] renames keys of the
    dictionary it is iterating over, so what it visits depends on the hash
    table of the interpreter; [prune_unifu_nodes] is a traversal of the
    ete2 library's tree. *)

From Stdlib Require Import ZArith String Ascii List Lia Bool.
From stdpp Require Import base list strings pretty sorting gmap.

(* ===================================================================== *)
(** * Python primitives                                                    *)
(* ===================================================================== *)

Module Py.

Inductive exn :=
  KeyError | IndexError | NameError | ValueError | RuntimeError | SystemExit.

Inductive result (A : Type) : Type :=
| Ok (a : A)
| Raise (e : exn).
Arguments Ok {A} a.
Arguments Raise {A} e.

Definition bind {A B} (m : result A) (k : A -> result B) : result B :=
  match m with
  | Ok a => k a
  | Raise e => Raise e
  end.

Definition returns {A} (m : result A) : bool :=
  match m with Ok _ => true | Raise _ => false end.

(** [l[i]] with Python's negative indices. *)
Definition getitem {A} (l : list A) (i : Z) : result A :=
  let n := Z.of_nat (length l) in
  let j := if (i <? 0)%Z then (i + n)%Z else i in
  if (j <? 0)%Z then Raise IndexError
  else match l !! Z.to_nat j with
       | Some x => Ok x
       | None => Raise IndexError
       end.

(** [l[i] = v]: raises out of range. *)
Definition setitem {A} (l : list A) (i : Z) (v : A) : result (list A) :=
  let n := Z.of_nat (length l) in
  let j := if (i <? 0)%Z then (i + n)%Z else i in
  if ((j <? 0) || (n <=? j))%Z then Raise IndexError
  else Ok (<[Z.to_nat j := v]> l).

(** [l[:n]]. *)
Definition slice_to {A} (l : list A) (n : Z) : list A :=
  let len := Z.of_nat (length l) in
  let m := if (n <? 0)%Z then Z.max 0 (n + len) else n in
  take (Z.to_nat m) l.

(** [sep.join(l)]. *)
Definition join (sep : string) (l : list string) : string := String.concat sep l.

(** The characters of a string, as the one-character strings Python yields
    when a [str] is iterated. *)
Fixpoint chars (s : string) : list string :=
  match s with
  | EmptyString => []
  | String c rest => String c EmptyString :: chars rest
  end.

(** [s.split(sep)] for a non-empty separator: the leftmost occurrences,
    never overlapping. [skip] counts the separator characters still to be
    passed over, [cur] is the piece being collected. *)
Fixpoint split_go (sep : string) (skip : nat) (cur : string) (s : string)
  : list string :=
  match s with
  | EmptyString => [cur]
  | String c rest =>
      match skip with
      | S k => split_go sep k cur rest
      | O =>
          if String.prefix sep s
          then cur :: split_go sep (String.length sep - 1) "" rest
          else split_go sep 0 (cur +:+ String c "") rest
      end
  end.

Definition split (sep s : string) : list string := split_go sep 0 "" s.

(** [s.endswith(suf)]. *)
Definition endswith (s suf : string) : bool :=
  let n := String.length s in
  let m := String.length suf in
  (m <=? n) && String.eqb (substring (n - m) m s) suf.

(** [sub in s] on strings: substring test. *)
Fixpoint occurs (sub s : string) : bool :=
  String.prefix sub s ||
  match s with
  | EmptyString => false
  | String _ rest => occurs sub rest
  end.

(** [s.strip(c)] for a one-character argument. *)
Fixpoint lstrip (c : ascii) (s : string) : string :=
  match s with
  | String d rest => if Ascii.eqb c d then lstrip c rest else s
  | EmptyString => EmptyString
  end.

Definition strip (c : ascii) (s : string) : string :=
  String.rev (lstrip c (String.rev (lstrip c s))).

(** Dictionaries as association lists in iteration order. *)
Section Dict.
Context {V : Type}.

Fixpoint dict_get (d : list (string * V)) (k : string) : option V :=
  match d with
  | [] => None
  | (k', v) :: d' => if String.eqb k' k then Some v else dict_get d' k
  end.

Definition dict_mem (d : list (string * V)) (k : string) : bool :=
  match dict_get d k with Some _ => true | None => false end.

(** [d[k] = v]: an existing key keeps its place, a new key is entered
    (its place in the iteration order is left to the implementation;
    here it comes last). *)
Fixpoint dict_set (d : list (string * V)) (k : string) (v : V)
  : list (string * V) :=
  match d with
  | [] => [(k, v)]
  | (k', v') :: d' =>
      if String.eqb k' k then (k', v) :: d' else (k', v') :: dict_set d' k v
  end.

(** [del d[k]]. *)
Fixpoint dict_remove (d : list (string * V)) (k : string)
  : list (string * V) :=
  match d with
  | [] => []
  | (k', v') :: d' =>
      if String.eqb k' k then d' else (k', v') :: dict_remove d' k
  end.

Definition dict_del (d : list (string * V)) (k : string)
  : result (list (string * V)) :=
  if dict_mem d k then Ok (dict_remove d k) else Raise KeyError.

Definition dict_keys (d : list (string * V)) : list string := d.*1.
End Dict.

End Py.

Import Py.

#[global] Instance result_ret : MRet Py.result := @Py.Ok.
#[global] Instance result_bind : MBind Py.result := fun A B k m => Py.bind m k.

(* ===================================================================== *)
(** * class TaxCode                                                        *)
(* ===================================================================== *)

Module TaxCode.

(** The two components of a table entry are written in the source either
    as a tuple of strings or as a parenthesised string, which Python reads
    as the string itself: [("idae")] is ["idae"], [("bacteria", "archaea")]
    is a tuple and [()] is the empty tuple. *)
Inductive pyval :=
| Tup (l : list string)
| Str (s : string).

Definition entry : Type := pyval * pyval.

(** [rank_name.endswith(suffix)]: a string is a suffix, a tuple is any of
    its members. *)
Definition py_endswith (rank_name : string) (suffix : pyval) : bool :=
  match suffix with
  | Str s => endswith rank_name s
  | Tup l => existsb (endswith rank_name) l
  end.

(** [rank_name in exact_match]: membership in a tuple, substring test on a
    string. *)
Definition py_in (rank_name : string) (exact_match : pyval) : bool :=
  match exact_match with
  | Str s => occurs rank_name s
  | Tup l => existsb (String.eqb rank_name) l
  end.

(** A dictionary display [{k1: v1, k2: v2, ...}] with integer keys: a later
    binding of a key replaces an earlier one. The result is kept sorted by
    key, which is what [sorted(self.tax_code.keys())] iterates. *)
Fixpoint lit_insert {V} (k : nat) (v : V) (d : list (nat * V)) : list (nat * V) :=
  match d with
  | [] => [(k, v)]
  | (k', v') :: d' =>
      if k <? k' then (k, v) :: d
      else if k =? k' then (k, v) :: d'
      else (k', v') :: lit_insert k v d'
  end.

Definition dict_literal {V} (l : list (nat * V)) : list (nat * V) :=
  foldl (fun d e => lit_insert e.1 e.2 d) [] l.

Fixpoint lit_get {V} (d : list (nat * V)) (k : nat) : option V :=
  match d with
  | [] => None
  | (k', v) :: d' => if k' =? k then Some v else lit_get d' k
  end.

Definition UNI_TAX_RANKS : list (nat * (string * string)) := dict_literal [
  (1, ("Kingdom", "k__"));
  (2, ("Phylum", "p__"));
  (3, ("Subphylum", "a__"));
  (4, ("Class", "c__"));
  (5, ("Subclass", "d__"));
  (6, ("Superorder", "e__"));
  (7, ("Order", "o__"));
  (8, ("Suborder", "h__"));
  (9, ("Infraorder", "i__"));
  (10, ("Superfamily", "j__"));
  (11, ("Epifamily", "l__"));
  (12, ("Family", "f__"));
  (13, ("Subfamily", "m__"));
  (14, ("Infrafamily", "n__"));
  (15, ("Tribe", "t__"));
  (16, ("Subtribe", "u__"));
  (17, ("Infratribe", "v__"));
  (18, ("Genus", "g__"));
  (19, ("Species", "s__"));
  (20, ("Subspecies", "b__"));
  (21, ("Strain", "r__"));
  (22, ("Isolate", "q__")) ].

Definition UNI_TAX_LEVELS : nat := length UNI_TAX_RANKS.

Definition STD_RANKS : list nat := [1; 2; 4; 7; 12; 18; 19].

Definition BAC_TAX_CODE : list (nat * entry) := dict_literal [
  (1, (Tup [], Tup ["bacteria"; "archaea"]));
  (2, (Tup [], Tup []));
  (4, (Tup [], Tup []));
  (5, (Str "idae", Tup []));
  (7, (Str "ales", Tup []));
  (8, (Str "ineae", Tup []));
  (12, (Str "aceae", Tup []));
  (13, (Str "oideae", Tup []));
  (18, (Tup [], Tup []));
  (19, (Tup [], Tup []));
  (20, (Tup [], Tup []));
  (21, (Tup [], Tup []));
  (22, (Tup [], Tup [])) ].

Definition BOT_TAX_CODE : list (nat * entry) := dict_literal [
  (1, (Tup [], Tup ["plantae"; "algae"; "fungi"]));
  (2, (Tup ["phyta"; "phycota"; "mycota"], Tup []));
  (3, (Tup ["phytina"; "phycotina"; "mycotina"], Tup []));
  (4, (Tup ["opsida"; "phyceae"; "mycetes"], Tup []));
  (5, (Tup ["idae"; "phycidae"; "mycetidae"], Tup []));
  (6, (Str "anae", Tup []));
  (7, (Str "ales", Tup []));
  (8, (Str "ineae", Tup []));
  (9, (Str "aria", Tup []));
  (10, (Str "acea", Tup []));
  (12, (Str "aceae", Tup []));
  (13, (Str "oideae", Tup []));
  (15, (Str "eae", Tup []));
  (16, (Str "inae", Tup []));
  (18, (Tup [], Tup []));
  (19, (Tup [], Tup []));
  (20, (Tup [], Tup []));
  (21, (Tup [], Tup []));
  (22, (Tup [], Tup [])) ].

Definition ZOO_TAX_CODE : list (nat * entry) := dict_literal [
  (1, (Tup [], Str "animalia"));
  (2, (Tup [], Tup ["chordata"; "arthropoda"; "mollusca"; "nematoda"]));
  (3, (Tup [], Tup ["vertebrata"; "myriapoda"; "crustacea"; "hexapoda"]));
  (4, (Tup [], Tup ["mammalia"; "aves"; "reptilia"; "amphibia"; "insecta"]));
  (5, (Tup [], Tup []));
  (6, (Tup [], Tup []));
  (7, (Tup [], Tup []));
  (8, (Tup [], Tup []));
  (9, (Tup [], Tup []));
  (10, (Str "oidea", Tup []));
  (11, (Str "oidae", Tup []));
  (12, (Str "idae", Tup []));
  (13, (Str "inae", Tup []));
  (13, (Str "odd", Tup []));
  (15, (Str "ini", Tup []));
  (16, (Str "ina", Tup []));
  (17, (Tup ["ad"; "iti"], Tup []));
  (18, (Tup [], Tup []));
  (19, (Tup [], Tup []));
  (20, (Tup [], Tup []));
  (21, (Tup [], Tup []));
  (22, (Tup [], Tup [])) ].

Definition VIR_TAX_CODE : list (nat * entry) := dict_literal [
  (1, (Tup [], Str "viruses"));
  (4, (Tup [], Tup []));
  (5, (Str "idae", Tup []));
  (7, (Str "virales", Tup []));
  (12, (Str "viridae", Tup []));
  (13, (Str "virinae", Tup []));
  (18, (Str "virus", Tup []));
  (19, (Str " virus", Tup []));
  (21, (Tup [], Tup []));
  (22, (Tup [], Tup [])) ].

Definition TAX_CODE_MAP : list (string * list (nat * entry)) := [
  ("bac", BAC_TAX_CODE);
  ("bot", BOT_TAX_CODE);
  ("zoo", ZOO_TAX_CODE);
  ("vir", VIR_TAX_CODE) ].

(** [str.lower()] and the characters kept by [re.sub("[\W_]+", "", ...)]. *)
Definition lower_char (c : ascii) : ascii :=
  let n := nat_of_ascii c in
  if (65 <=? n) && (n <=? 90) then ascii_of_nat (n + 32) else c.

Definition is_alnum (c : ascii) : bool :=
  let n := nat_of_ascii c in
  ((48 <=? n) && (n <=? 57)) || ((65 <=? n) && (n <=? 90))
  || ((97 <=? n) && (n <=? 122)).

Fixpoint lower (s : string) : string :=
  match s with
  | EmptyString => EmptyString
  | String c rest => String (lower_char c) (lower rest)
  end.

Fixpoint strip_non_alnum (s : string) : string :=
  match s with
  | EmptyString => EmptyString
  | String c rest =>
      if is_alnum c then String c (strip_non_alnum rest)
      else strip_non_alnum rest
  end.

Definition normalize (name : string) : string := strip_non_alnum (lower name).

(** [TaxCode(tax_code_name)]: an unknown (or empty) table ends the program. *)
Definition init (tax_code_name : string) : result (list (nat * entry)) :=
  match dict_get TAX_CODE_MAP (lower tax_code_name) with
  | Some (e :: code) => Ok (e :: code)
  | _ => Raise SystemExit
  end.

(** [rank_level_name]. *)
Definition rank_level_name (uni_rank_level : nat) : string * string :=
  default ("Unknown", "?__") (lit_get UNI_TAX_RANKS uni_rank_level).

(** The first loop of [guess_rank_level]: the first level, in ascending
    order, whose entry matches; [0] when the loop ends without [break]. *)
Fixpoint match_level (tax_code : list (nat * entry)) (rank_name : string) : nat :=
  match tax_code with
  | [] => 0
  | (lvl, (suffix, exact_match)) :: rest =>
      if py_endswith rank_name suffix || py_in rank_name exact_match then lvl
      else match_level rest rank_name
  end.

(** [sorted_tax_levels.index(parent_level)]. *)
Fixpoint index_of (l : list nat) (x : nat) : result nat :=
  match l with
  | [] => Raise ValueError
  | y :: l' => if y =? x then Ok 0 else i ← index_of l' x; mret (S i)
  end.

(** The second loop: the first level after position [idx] that is one of
    [STD_RANKS]; [0] when there is none. *)
Fixpoint next_std (levels : list nat) : nat :=
  match levels with
  | [] => 0
  | lvl :: rest => if bool_decide (lvl ∈ STD_RANKS) then lvl else next_std rest
  end.

(** [guess_rank_level(ranks, rank_level)] for a position [rank_level >= 0]. *)
Fixpoint guess_rank_level (tax_code : list (nat * entry)) (ranks : list string)
    (rank_level : nat) : result nat :=
  r ← getitem ranks (Z.of_nat rank_level);
  let rank_name := normalize r in
  let sorted_tax_levels := tax_code.*1 in
  let real_level := match_level tax_code rank_name in
  if real_level =? 0
  then
    match rank_level with
    | O => mret 1
    | S parent =>
        parent_level ← guess_rank_level tax_code ranks parent;
        if parent_level =? 0 then mret 0
        else
          idx ← index_of sorted_tax_levels parent_level;
          mret (next_std (drop (idx + 1) sorted_tax_levels))
    end
  else mret real_level.

Definition guess_rank_level_name (tax_code : list (nat * entry))
    (ranks : list string) (rank_level : nat) : result (string * string) :=
  real_level ← guess_rank_level tax_code ranks rank_level;
  mret (rank_level_name real_level).

End TaxCode.

(* ===================================================================== *)
(** * class Taxonomy                                                       *)
(* ===================================================================== *)

Module Taxonomy.

Definition EMPTY_RANK : string := "-".
Definition RANK_UID_DELIM : string := "@@".

(** [lineage_str(ranks)]: [";".join(ranks).strip(';')]. *)
Definition lineage_str (ranks : list string) : string :=
  strip ";"%char (join ";" ranks).

(** The [while] loop of [lowest_assigned_rank_level]; [n] is
    [rank_level + 1]. *)
Fixpoint lowest_from (ranks : list string) (n : nat) : Z :=
  match n with
  | O => (-1)%Z
  | S k =>
      match ranks !! k with
      | Some r => if String.eqb r EMPTY_RANK then lowest_from ranks k
                  else Z.of_nat k
      | None => Z.of_nat k
      end
  end.

Definition lowest_assigned_rank_level (ranks : list string) : Z :=
  lowest_from ranks (length ranks).

Definition lowest_assigned_rank (ranks : list string) : option string :=
  let rank_level := lowest_assigned_rank_level ranks in
  if (0 <=? rank_level)%Z
  then match getitem ranks rank_level with Ok r => Some r | Raise _ => None end
  else None.

(** [get_rank_uid(ranks, rank_level=-1)]. *)
Definition get_rank_uid (ranks : list string) (rank_level : Z) : string :=
  let rank_level :=
    if (rank_level =? -1)%Z then lowest_assigned_rank_level ranks
    else rank_level in
  join RANK_UID_DELIM (slice_to ranks (rank_level + 1)).

(** [split_rank_uid(rank_uid, min_lvls=0)]. *)
Definition split_rank_uid (rank_uid : string) (min_lvls : nat) : list string :=
  let ranks := split RANK_UID_DELIM rank_uid in
  if length ranks <? min_lvls
  then ranks ++ replicate (min_lvls - length ranks) EMPTY_RANK
  else ranks.

Definition rank_uid_to_lineage_str (rank_uid : string) (min_lvls : nat) : string :=
  lineage_str (split_rank_uid rank_uid min_lvls).

(** ** The store

    [objs] is the heap of rank-list objects; [seq_ranks_map] maps a sequence
    identifier to the address of its rank list; [rank_seqs_map] is the
    reverse index from a rank uid to the identifiers of its group. *)
Record state := mkState {
  prefix : string;
  objs : list (list string);
  seq_ranks_map : list (string * nat);
  rank_seqs_map : list (string * list string)
}.

Definition with_objs (self : state) (o : list (list string)) : state :=
  mkState (prefix self) o (seq_ranks_map self) (rank_seqs_map self).
Definition with_seq_ranks_map (self : state) (m : list (string * nat)) : state :=
  mkState (prefix self) (objs self) m (rank_seqs_map self).
Definition with_rank_seqs_map (self : state) (m : list (string * list string))
  : state :=
  mkState (prefix self) (objs self) (seq_ranks_map self) m.

(** The list object at an address. *)
Definition deref (o : list (list string)) (a : nat) : list string :=
  default [] (o !! a).

(** The rank path of an identifier, read through the dictionary. *)
Definition ranks_of (self : state) (sid : string) : option (list string) :=
  a ← dict_get (seq_ranks_map self) sid; objs self !! a.

(** [self.seq_ranks_map.items()] with the lists dereferenced. *)
Definition items (self : state) : list (string * list string) :=
  (fun e => (e.1, deref (objs self) e.2)) <$> seq_ranks_map self.

(** The loop of [__init__] over [tax_map]: every identifier is appended to
    the group of its rank uid. *)
Fixpoint index_ranks (o : list (list string)) (entries : list (string * nat))
    (rsm : list (string * list string)) : list (string * list string) :=
  match entries with
  | [] => rsm
  | (sid, a) :: rest =>
      let rank_id := get_rank_uid (deref o a) (-1) in
      index_ranks o rest
        (dict_set rsm rank_id (default [] (dict_get rsm rank_id) ++ [sid]))
  end.

(** [Taxonomy(prefix, tax_map=...)]: [tax_map] is given as its list
    objects and the dictionary over them. *)
Definition init (prefix : string) (o : list (list string))
    (tax_map : list (string * nat)) : state :=
  mkState prefix o tax_map (index_ranks o tax_map []).

(** A [tax_map] whose rank lists are all distinct objects. *)
Definition fresh_map (l : list (string * list string))
  : list (list string) * list (string * nat) :=
  (l.*2, imap (fun i e => (e.1, i)) l).

Definition of_list (prefix : string) (l : list (string * list string)) : state :=
  init prefix (fresh_map l).1 (fresh_map l).2.

(** [load_taxonomy]: one record per line, [identifier<TAB>rank;rank;...]. *)
Definition is_space (c : ascii) : bool :=
  let n := nat_of_ascii c in (n =? 32) || ((9 <=? n) && (n <=? 13)).

Fixpoint lstrip_ws (s : string) : string :=
  match s with
  | String d rest => if is_space d then lstrip_ws rest else s
  | EmptyString => EmptyString
  end.

Definition strip_ws (s : string) : string :=
  String.rev (lstrip_ws (String.rev (lstrip_ws s))).

Definition TAB : string := String (ascii_of_nat 9) "".

Definition load_line (self : state) (line : string) : result state :=
  let line := strip_ws line in
  let toks := split TAB line in
  tok0 ← getitem toks 0;
  let sid := prefix self +:+ tok0 in
  ranks_str ← getitem toks 1;
  let ranks := strip_ws <$> split ";" ranks_str in
  let rank_id := get_rank_uid ranks (-1) in
  let a := length (objs self) in
  mret (mkState (prefix self) (objs self ++ [ranks])
          (dict_set (seq_ranks_map self) sid a)
          (dict_set (rank_seqs_map self) rank_id
             (default [] (dict_get (rank_seqs_map self) rank_id) ++ [sid]))).

Fixpoint load_lines (self : state) (lines : list string) : result state :=
  match lines with
  | [] => mret self
  | line :: rest => self' ← load_line self line; load_lines self' rest
  end.

(** [Taxonomy(prefix, tax_fname=...)] on the lines of the file. *)
Definition load_taxonomy (prefix : string) (lines : list string) : result state :=
  load_lines (mkState prefix [] [] []) lines.

(** ** Accessors *)

Definition get_seq_ranks (self : state) (seq_id : string) : result nat :=
  let seq_id :=
    if String.prefix (prefix self) seq_id then seq_id
    else prefix self +:+ seq_id in
  match dict_get (seq_ranks_map self) seq_id with
  | Some a => Ok a
  | None => Raise KeyError
  end.

Definition seq_rank_id (self : state) (seq_id : string) : result string :=
  a ← get_seq_ranks self seq_id;
  mret (get_rank_uid (deref (objs self) a) (-1)).

Definition get_rank_seqs (self : state) (rank_id : string) : list string :=
  default [] (dict_get (rank_seqs_map self) rank_id).

Definition get_rank_seq_count (self : state) (rank_id : string) : nat :=
  length (get_rank_seqs self rank_id).

(** ** [remove_seq], [rename_seq]

    In [remove_seq(self, seqid)] the argument of [.remove] is the name
    [seq_id], which is bound neither in the function nor in the module:
    once the group has been looked up the call raises [NameError], before
    anything is changed. *)
Definition remove_seq (self : state) (seqid : string) : result state :=
  rank_id ← seq_rank_id self seqid;
  match dict_get (rank_seqs_map self) rank_id with
  | None => Raise KeyError
  | Some _ => Raise NameError
  end.

Definition rename_seq (self : state) (old_seqid new_seqid : string)
  : result state :=
  match dict_get (seq_ranks_map self) old_seqid with
  | None => Raise KeyError
  | Some a =>
      m ← dict_del (dict_set (seq_ranks_map self) new_seqid a) old_seqid;
      mret (with_seq_ranks_map self m)
  end.

(** ** [merge_ranks] *)

(** The first loop: collect the groups and delete their keys. *)
Fixpoint collect_groups (rsm : list (string * list string))
    (rank_ids : list string) (all_sid : list string)
  : result (list (string * list string) * list string) :=
  match rank_ids with
  | [] => mret (rsm, all_sid)
  | rank_id :: rest =>
      let all_sid := all_sid ++ default [] (dict_get rsm rank_id) in
      rsm' ← dict_del rsm rank_id;
      collect_groups rsm' rest all_sid
  end.

(** The last loop: every collected identifier is bound to the one new list
    object at address [a]. *)
Fixpoint rebind_all (m : list (string * nat)) (all_sid : list string) (a : nat)
  : list (string * nat) :=
  match all_sid with
  | [] => m
  | sid :: rest => rebind_all (dict_set m sid a) rest a
  end.

Definition DEFAULT_NAME_PREFIX : string := "__TAXCLUSTER__".

Definition merge_ranks (self : state) (rank_ids : list string)
    (name_prefix : string) : result (state * option string) :=
  if length rank_ids <? 2 then mret (self, None)
  else
    '(rsm, all_sid) ← collect_groups (rank_seqs_map self) rank_ids [];
    rid0 ← getitem rank_ids 0;
    let first_taxon := split_rank_uid rid0 0 in
    let merge_lvl := lowest_assigned_rank_level first_taxon in
    name ← getitem first_taxon merge_lvl;
    let new_name := name_prefix +:+ name in
    let new_rank := slice_to first_taxon merge_lvl ++ [new_name] in
    let new_rank_id := get_rank_uid new_rank (-1) in
    let a := length (objs self) in
    mret (mkState (prefix self) (objs self ++ [new_rank])
            (rebind_all (seq_ranks_map self) all_sid a)
            (dict_set rsm new_rank_id all_sid),
          Some new_rank_id).

(** ** [close_taxonomy_gaps] *)

(** Truth value of [last_rank]: [None] and the empty string are false. *)
Definition truthy (last_rank : option string) : bool :=
  match last_rank with
  | Some s => negb (String.eqb s "")
  | None => false
  end.

(** ["parent%d_" % gap_count + last_rank]. *)
Definition parent_name (gap_count : nat) (last_rank : string) : string :=
  "parent" +:+ pretty gap_count +:+ "_" +:+ last_rank.

(** The inner loop over [reversed(range(1, len(ranks)))]. *)
Fixpoint close_gaps_loop (positions : list nat) (ranks : list string)
    (last_rank : option string) (gap_count : nat) : list string :=
  match positions with
  | [] => ranks
  | i :: rest =>
      match ranks !! i with
      | None => ranks
      | Some r =>
          if negb (String.eqb r EMPTY_RANK)
          then close_gaps_loop rest ranks (Some r) gap_count
          else if truthy last_rank
          then
            let gap_count := S gap_count in
            close_gaps_loop rest
              (<[i := parent_name gap_count (default "" last_rank)]> ranks)
              last_rank gap_count
          else close_gaps_loop rest ranks last_rank gap_count
      end
  end.

Definition close_gaps (ranks : list string) : list string :=
  close_gaps_loop (reverse (seq 1 (length ranks - 1))) ranks None 0.

(** The outer loop: the list object of every entry is updated in place. *)
Fixpoint close_gaps_all (entries : list (string * nat)) (o : list (list string))
  : list (list string) :=
  match entries with
  | [] => o
  | (sid, a) :: rest =>
      close_gaps_all rest (<[a := close_gaps (deref o a)]> o)
  end.

Definition close_taxonomy_gaps (self : state) : state :=
  with_objs self (close_gaps_all (seq_ranks_map self) (objs self)).

(** ** [check_for_duplicates] *)

(** The local variables of the pass together with the heap. A record of
    [dups] is the tuple of its strings. *)
Record dup_state := mkDup {
  d_objs : list (list string);
  parent_map : list (string * string);
  dups : list (list string);
  old_fixed : list (string * string);
  old_ranks : list (string * list nat)
}.

(** The body of the inner loop at position [i] of the sequence [sid] whose
    list object is at [a]; [None] is [break]. *)
Definition dup_step (self : state) (autofix : bool) (sid : string) (a i : nat)
    (st : dup_state) : result (option dup_state) :=
  match deref (d_objs st) a !! i with
  | None => Raise IndexError
  | Some ranks_i =>
      if String.eqb ranks_i EMPTY_RANK then mret None
      else
        parent ← getitem (deref (d_objs st) a) (Z.of_nat i - 1);
        match dict_get (parent_map st) ranks_i with
        | None =>
            mret (Some (mkDup (d_objs st) (dict_set (parent_map st) ranks_i sid)
                          (dups st) (old_fixed st) (old_ranks st)))
        | Some old_sid =>
            oa ← get_seq_ranks self old_sid;
            old_parent ← getitem (deref (d_objs st) oa) (Z.of_nat i - 1);
            if negb (String.eqb old_parent parent)
            then
              if autofix
              then
                let orig_name := lineage_str (chars sid) in
                let orig_old_name := lineage_str (chars old_sid) in
                let '(fixmap, rkmap) :=
                  if negb (dict_mem (old_fixed st) old_sid)
                  then (dict_set (old_fixed st) old_sid
                          (lineage_str (chars old_sid)),
                        dict_set (old_ranks st) old_sid [])
                  else (old_fixed st, old_ranks st) in
                fixed ← match dict_get rkmap old_sid with
                        | Some l => Ok l
                        | None => Raise KeyError
                        end;
                '(o1, rkmap) ←
                  (if negb (bool_decide (i ∈ fixed))
                   then
                     da ← match dict_get (seq_ranks_map self) old_sid with
                          | Some da => Ok da
                          | None => Raise KeyError
                          end;
                     x ← getitem (deref (d_objs st) da) (Z.of_nat i);
                     y ← getitem (deref (d_objs st) da) (Z.of_nat i - 1);
                     l ← setitem (deref (d_objs st) da) (Z.of_nat i)
                           (x +:+ "_" +:+ y);
                     mret (<[da := l]> (d_objs st),
                           dict_set rkmap old_sid (fixed ++ [i]))
                   else mret (d_objs st, rkmap));
                sa ← match dict_get (seq_ranks_map self) sid with
                     | Some sa => Ok sa
                     | None => Raise KeyError
                     end;
                cur ← getitem (deref o1 a) (Z.of_nat i);
                l ← setitem (deref o1 sa) (Z.of_nat i) (cur +:+ "_" +:+ parent);
                let o2 := <[sa := l]> o1 in
                let dup_rec :=
                  [old_sid; orig_old_name; sid; orig_name;
                   lineage_str (chars sid)] in
                mret (Some (mkDup o2 (parent_map st) (dups st ++ [dup_rec])
                              fixmap rkmap))
              else
                let dup_rec :=
                  [old_sid; lineage_str (chars old_sid); sid;
                   lineage_str (chars sid)] in
                mret (Some (mkDup (d_objs st) (parent_map st)
                              (dups st ++ [dup_rec])
                              (old_fixed st) (old_ranks st)))
            else mret (Some st)
        end
  end.

(** The inner loop over the positions [range(1, len(ranks))]. *)
Fixpoint dup_scan (self : state) (autofix : bool) (sid : string) (a : nat)
    (positions : list nat) (st : dup_state) : result dup_state :=
  match positions with
  | [] => mret st
  | i :: rest =>
      r ← dup_step self autofix sid a i st;
      match r with
      | None => mret st
      | Some st' => dup_scan self autofix sid a rest st'
      end
  end.

(** The outer loop over [self.seq_ranks_map.iteritems()]. *)
Fixpoint dup_loop (self : state) (autofix : bool) (entries : list (string * nat))
    (st : dup_state) : result dup_state :=
  match entries with
  | [] => mret st
  | (sid, a) :: rest =>
      st' ← dup_scan self autofix sid a
              (seq 1 (length (deref (d_objs st) a) - 1)) st;
      dup_loop self autofix rest st'
  end.

(** The closing loop of the autofix mode over [old_fixed]. *)
Definition audit_records (fixmap : list (string * string))
  : list (list string) :=
  (fun e => [e.1; e.2; e.1; e.2; lineage_str (chars e.1)]) <$> fixmap.

Definition check_for_duplicates (self : state) (autofix : bool)
  : result (state * list (list string)) :=
  st ← dup_loop self autofix (seq_ranks_map self)
         (mkDup (objs self) [] [] [] []);
  mret (with_objs self (d_objs st),
        if autofix then dups st ++ audit_records (old_fixed st) else dups st).

(** ** [check_for_disbalance] *)

Definition is_drop (name : string) : bool :=
  endswith name "dae" || endswith name "neae".
Definition is_keep (name : string) : bool :=
  endswith name "ceae" || endswith name "ales".

(** The three queues filled by the loop over [range(1, len(ranks))]. *)
Definition dropq (ranks : list string) : list nat :=
  filter (fun i => is_drop (default "" (ranks !! i)) = true)
    (seq 1 (length ranks - 1)).
Definition keepq (ranks : list string) : list nat :=
  filter (fun i => is_drop (default "" (ranks !! i)) = false /\
                   is_keep (default "" (ranks !! i)) = true)
    (seq 1 (length ranks - 1)).
Definition restq (ranks : list string) : list nat :=
  filter (fun i => is_drop (default "" (ranks !! i)) = false /\
                   is_keep (default "" (ranks !! i)) = false)
    (seq 1 (length ranks - 1)).

Definition to_remove (ranks : list string) : list nat :=
  take (length ranks - 7) (dropq ranks ++ restq ranks ++ keepq ranks).

(** [new_ranks]: the entries whose position is not in [to_remove]. *)
Definition new_ranks (ranks : list string) : list string :=
  omap (fun i => if bool_decide (i ∈ to_remove ranks) then None else ranks !! i)
    (seq 0 (length ranks)).

Fixpoint disbalance_loop (autofix : bool) (entries : list (string * nat))
    (self : state) (errs : list (list string)) : state * list (list string) :=
  match entries with
  | [] => (self, errs)
  | (sid, a) :: rest =>
      let ranks := deref (objs self) a in
      if 7 <? length ranks
      then
        if autofix
        then
          let orig_name := lineage_str (chars sid) in
          let self' :=
            mkState (prefix self) (objs self ++ [new_ranks ranks])
              (dict_set (seq_ranks_map self) sid (length (objs self)))
              (rank_seqs_map self) in
          disbalance_loop autofix rest self'
            (errs ++ [[sid; orig_name; lineage_str (chars sid)]])
        else
          disbalance_loop autofix rest self
            (errs ++ [[sid; lineage_str (chars sid)]])
      else disbalance_loop autofix rest self errs
  end.

Definition check_for_disbalance (self : state) (autofix : bool)
  : state * list (list string) :=
  disbalance_loop autofix (seq_ranks_map self) self [].

(** ** Further accessors *)

Definition seq_count (self : state) : nat := length (seq_ranks_map self).

Definition seq_lineage_str (self : state) (seq_id : string) : result string :=
  a ← get_seq_ranks self seq_id;
  mret (lineage_str (deref (objs self) a)).

(** [get_common_ranks]. The attribute [self.common_ranks], which no other
    method reads, is passed in and handed back with the returned set. *)
Definition get_common_ranks (self : state) (common_ranks : gset string)
  : gset string * gset string :=
  match items self with
  | [] => (common_ranks, ∅)
  | first :: rest =>
      let common_ranks :=
        foldl (fun inters e => inters ∩ list_to_set e.2) (list_to_set first.2)
          rest in
      (common_ranks, common_ranks)
  end.

(** ** [normalize_rank_names] *)

(** [s.translate(maketrans(invalid_chars, "_" * len(invalid_chars)))]:
    every character of [invalid_chars] becomes an underscore. *)
Definition trantab (invalid_chars : string) (c : ascii) : ascii :=
  if existsb (Ascii.eqb c) (list_ascii_of_string invalid_chars) then "_"%char
  else c.

Fixpoint translate (invalid_chars s : string) : string :=
  match s with
  | EmptyString => EmptyString
  | String c rest =>
      String (trantab invalid_chars c) (translate invalid_chars rest)
  end.

(** The characters [normalize_rank_names] replaces. *)
Definition rank_invalid_chars : string := "[](),;:'".

(** The inner loop over [range(1, len(ranks))]; the list is changed in
    place. *)
Fixpoint normalize_ranks_loop (positions : list nat) (ranks : list string)
    (corr_ranks : list (string * string))
  : list string * list (string * string) :=
  match positions with
  | [] => (ranks, corr_ranks)
  | i :: rest =>
      match ranks !! i with
      | None => (ranks, corr_ranks)
      | Some r =>
          match dict_get corr_ranks r with
          | Some corrected =>
              normalize_ranks_loop rest (<[i := corrected]> ranks) corr_ranks
          | None =>
              let new_rank_name := translate rank_invalid_chars r in
              if negb (String.eqb new_rank_name r)
              then normalize_ranks_loop rest (<[i := new_rank_name]> ranks)
                     (dict_set corr_ranks r new_rank_name)
              else normalize_ranks_loop rest ranks corr_ranks
          end
      end
  end.

(** The outer loop over [self.seq_ranks_map.iteritems()]. *)
Fixpoint normalize_ranks_all (entries : list (string * nat))
    (o : list (list string)) (corr_ranks : list (string * string))
  : list (list string) * list (string * string) :=
  match entries with
  | [] => (o, corr_ranks)
  | (sid, a) :: rest =>
      let r :=
        normalize_ranks_loop (seq 1 (length (deref o a) - 1)) (deref o a)
          corr_ranks in
      normalize_ranks_all rest (<[a := r.1]> o) r.2
  end.

Definition normalize_rank_names (self : state)
  : state * list (string * string) :=
  let r := normalize_ranks_all (seq_ranks_map self) (objs self) [] in
  (with_objs self r.1, r.2).

End Taxonomy.

(* ===================================================================== *)
(** * class TaxTreeBuilder                                                 *)
(* ===================================================================== *)

Module TaxTreeBuilder.

Import Taxonomy.

Definition ROOT_LABEL : string := "<<root>>".

(** The tree under construction is the list of its nodes, each with its
    name and its parent; node [0] is [t0]. [tree_nodes] memoises the node
    created for a rank uid, [leaf_count] counts the sequences added under a
    parent uid. *)
Record builder := mkBuilder {
  nodes : list (string * option nat);
  tree_nodes : list (string * nat);
  leaf_count : list (string * Z);
  seq_ids : list string
}.

Record config := mkConfig {
  min_rank : Z;
  max_seqs_per_leaf : Z;
  clades_to_include : list (Z * string);
  clades_to_ignore : list (Z * string)
}.

(** [while ranks[parent_level] == EMPTY_RANK: parent_level -= 1]. The index
    runs downwards through the negative indices as well and leaves the list
    at [-len(ranks) - 1]; [m] counts the indices left, the current one being
    [m - 1 - len(ranks)]. *)
Fixpoint skip_empty_from (ranks : list string) (m : nat) : result Z :=
  match m with
  | O => Raise IndexError
  | S m' =>
      let idx := (Z.of_nat m' - Z.of_nat (length ranks))%Z in
      r ← getitem ranks idx;
      if String.eqb r EMPTY_RANK then skip_empty_from ranks m' else mret idx
  end.

Definition skip_empty (ranks : list string) (parent_level : Z) : result Z :=
  if (Z.of_nat (length ranks) <=? parent_level)%Z then Raise IndexError
  else skip_empty_from ranks
         (Z.to_nat (parent_level + Z.of_nat (length ranks) + 1)).

(** [add_tree_node(tree, nodeId, ranks, rank_level)]. Every recursive call
    lowers [rank_level], and below zero the parent is the root, which [build]
    enters in [tree_nodes] first; [depth] bounds the depth of the recursion,
    and running out of it is the unbounded recursion of a builder without
    root entry. *)
Fixpoint add_tree_node (depth : nat) (b : builder) (nodeId : string)
    (ranks : list string) (rank_level : Z) : result (builder * nat) :=
  '(parentId, parent_level) ←
    (if (0 <=? rank_level)%Z
     then
       parent_level ← skip_empty ranks rank_level;
       mret (get_rank_uid ranks parent_level, parent_level)
     else mret (ROOT_LABEL, (-1)%Z));
  '(b1, parentNode) ←
    match dict_get (tree_nodes b) parentId with
    | Some n => mret (b, n)
    | None =>
        match depth with
        | O => Raise RuntimeError
        | S depth' =>
            '(b', n) ← add_tree_node depth' b parentId ranks (parent_level - 1);
            mret (mkBuilder (nodes b') (dict_set (tree_nodes b') parentId n)
                    (leaf_count b') (seq_ids b'), n)
        end
    end;
  let newNode := length (nodes b1) in
  mret (mkBuilder (nodes b1 ++ [(nodeId, Some parentNode)]) (tree_nodes b1)
          (leaf_count b1) (seq_ids b1), newNode).

(** A loop [for (rank_level, rank_name) in clades: if ranks[rank_level] ==
    rank_name: ...; break]: whether some entry matches. *)
Fixpoint any_clade (ranks : list string) (clades : list (Z * string))
  : result bool :=
  match clades with
  | [] => mret false
  | (rank_level, rank_name) :: rest =>
      r ← getitem ranks rank_level;
      if String.eqb r rank_name then mret true else any_clade ranks rest
  end.

(** [clade_is_ok] after both lists have been consulted. *)
Definition clade_is_ok (cfg : config) (ranks : list string) : result bool :=
  included ←
    (if 0 <? length (clades_to_include cfg)
     then any_clade ranks (clades_to_include cfg)
     else mret true);
  if included : bool
  then ignored ← any_clade ranks (clades_to_ignore cfg); mret (negb ignored)
  else mret false.

(** Whether the quota test of [build] skips a sequence. *)
Definition over_quota (cfg : config) (b : builder) (parent_name : string)
    (parent_level tax_seq_level : Z) : bool :=
  dict_mem (tree_nodes b) parent_name
  && (parent_level =? tax_seq_level - 1)%Z
  && match dict_get (leaf_count b) parent_name with
     | Some c => (max_seqs_per_leaf cfg <=? c)%Z
     | None => false
     end.

(** The body of the loop of [build] for one sequence. *)
Definition build_step (cfg : config) (b : builder) (e : string * list string)
  : result builder :=
  let '(sid, ranks) := e in
  r ← getitem ranks (min_rank cfg);
  if String.eqb r EMPTY_RANK then mret b
  else
    ok ← clade_is_ok cfg ranks;
    if negb ok then mret b
    else
      let tax_seq_level := Z.of_nat (length ranks) in
      parent_level ← skip_empty ranks (tax_seq_level - 1);
      let parent_name := get_rank_uid ranks parent_level in
      if over_quota cfg b parent_name parent_level tax_seq_level then mret b
      else
        let b1 :=
          mkBuilder (nodes b) (tree_nodes b)
            (dict_set (leaf_count b) parent_name
               (default 0%Z (dict_get (leaf_count b) parent_name) + 1)%Z)
            (seq_ids b) in
        '(b2, _) ← add_tree_node (length ranks) b1 sid ranks parent_level;
        mret (mkBuilder (nodes b2) (tree_nodes b2) (leaf_count b2)
                (seq_ids b2 ++ [sid])).

Fixpoint build_loop (cfg : config) (entries : list (string * list string))
    (b : builder) : result builder :=
  match entries with
  | [] => mret b
  | e :: rest => b' ← build_step cfg b e; build_loop cfg rest b'
  end.

(** The builder as [build] sets it up: the root node and its two entries. *)
Definition start : builder :=
  mkBuilder [(ROOT_LABEL, None)] [(ROOT_LABEL, 0)] [(ROOT_LABEL, 0%Z)] [].

(** [build]: the tree before [prune_unifu_nodes] (which removes inner nodes
    of the ete2 tree only) and the list of accepted identifiers. *)
Definition build (cfg : config) (taxonomy : state)
  : result (list (string * option nat) * list string) :=
  b ← build_loop cfg (items taxonomy) start;
  mret (nodes b, seq_ids b).

End TaxTreeBuilder.

(* ===================================================================== *)
(** * Notions used to state the properties                                *)
(* ===================================================================== *)

Module Spec.

Import Taxonomy.

(** The prefix of a rank path up to and including its lowest assigned
    position. *)
Definition nonempty_prefix (p : list string) : list string :=
  slice_to p (lowest_assigned_rank_level p + 1).

(** Names that survive [join] and [split] on [RANK_UID_DELIM]: the delimiter
    occurs in none of them, and none but the last ends with the delimiter's
    character (it would pair up with the delimiter that follows). *)
Definition delim_safe (names : list string) : Prop :=
  Forall (fun r => occurs RANK_UID_DELIM r = false) names /\
  Forall (fun r => endswith r "@" = false) (removelast names).

(** A store is well formed when its forward dictionary has no duplicate key
    and every address in it is allocated. *)
Definition store_wf (self : state) : bool :=
  bool_decide (NoDup (seq_ranks_map self).*1)
  && forallb (fun e => e.2 <? length (objs self)) (seq_ranks_map self).

(** Priority of a position in the removal order of [check_for_disbalance]:
    drop candidates first, then the remainder, then keep candidates. *)
Definition prio (ranks : list string) (i : nat) : nat :=
  let name := default "" (ranks !! i) in
  if is_drop name then 0 else if is_keep name then 2 else 1.

(** [before ranks j i]: position [j] is removed before position [i]. *)
Definition before (ranks : list string) (j i : nat) : Prop :=
  prio ranks j < prio ranks i \/ (prio ranks j = prio ranks i /\ j < i).

(** The path with the positions of [R] left out. *)
Definition omit (ranks : list string) (R : list nat) : list string :=
  omap (fun i => if bool_decide (i ∈ R) then None else ranks !! i)
    (seq 0 (length ranks)).

(** [new] is [ranks] cut down to the seven levels: the [length ranks - 7]
    positions that come first in the removal order are left out (never the
    root position), the others keep their order. *)
Definition rebalanced (ranks new : list string) : Prop :=
  length new = 7 /\ sublist new ranks /\
  exists R : list nat,
    NoDup R /\ length R = length ranks - 7 /\
    (forall i, i ∈ R -> 1 <= i < length ranks) /\
    (forall i j, i ∈ R -> 1 <= j < length ranks -> before ranks j i -> j ∈ R) /\
    new = omit ranks R.

(** The error record of [check_for_disbalance(autofix=True)] for a
    sequence: [lineage_str] is applied to the identifier itself. *)
Definition err_rec (sid : string) : list string :=
  [sid; lineage_str (chars sid); lineage_str (chars sid)].

(** How often an identifier occurs in the groups of the reverse index. *)
Definition occurrences (self : state) (sid : string) : nat :=
  sum_list ((fun g => length (filter (fun x => x = sid) g.2))
              <$> rank_seqs_map self).

(** The reverse index partitions the identifiers: every key of
    [seq_ranks_map] is in exactly one group, once, and every member of a
    group is a key of [seq_ranks_map]. *)
Definition partitions (self : state) : bool :=
  forallb (fun sid => occurrences self sid =? 1) (dict_keys (seq_ranks_map self))
  && forallb (fun g => forallb (dict_mem (seq_ranks_map self)) g.2)
       (rank_seqs_map self).

(** Whether a path has the empty-rank marker strictly between the root
    position and its lowest assigned level. *)
Definition has_gap (ranks : list string) : bool :=
  existsb (fun i => String.eqb (default "" (ranks !! i)) EMPTY_RANK)
    (seq 1 (Z.to_nat (lowest_assigned_rank_level ranks) - 1)).

(** The reverse index has no duplicate key. *)
Definition index_wf (self : state) : bool :=
  bool_decide (NoDup (rank_seqs_map self).*1).

(** The merged path of [merge_ranks]: the path of the first key up to its
    lowest assigned level, the name at that level with [name_prefix] put in
    front. *)
Definition merged_rank (rank_id name_prefix : string) : list string :=
  let first_taxon := split_rank_uid rank_id 0 in
  let merge_lvl := lowest_assigned_rank_level first_taxon in
  match getitem first_taxon merge_lvl with
  | Ok name => slice_to first_taxon merge_lvl ++ [name_prefix +:+ name]
  | Raise _ => []
  end.

Definition merged_key (rank_id name_prefix : string) : string :=
  get_rank_uid (merged_rank rank_id name_prefix) (-1).

(** *** Rank-level guessing, after the words of the specification *)

(** A table entry read as two sets of names. *)
Definition as_set (v : TaxCode.pyval) : list string :=
  match v with
  | TaxCode.Tup l => l
  | TaxCode.Str s => [s]
  end.

(** A name matches a level when it ends with one of the suffixes or is one
    of the exact names. *)
Definition level_matches (rank_name : string) (e : TaxCode.entry) : bool :=
  existsb (endswith rank_name) (as_set e.1)
  || existsb (String.eqb rank_name) (as_set e.2).

(** The first level, in ascending order, that the name matches; [0] when
    there is none. *)
Definition first_match (tax_code : list (nat * TaxCode.entry))
    (rank_name : string) : nat :=
  default 0
    (fst <$> head (filter (fun e => level_matches rank_name e.2 = true) tax_code)).

(** The smallest level of the standard backbone that is in the table and
    strictly above [parent_level]; [0] when there is none. *)
Definition next_backbone (tax_code : list (nat * TaxCode.entry))
    (parent_level : nat) : nat :=
  default 0
    (head (filter (fun lvl => lvl ∈ TaxCode.STD_RANKS /\ parent_level < lvl)
             tax_code.*1)).

(** The same without regard to the table, as the claim has it. *)
Definition next_backbone_any (parent_level : nat) : nat :=
  default 0 (head (filter (fun lvl => parent_level < lvl) TaxCode.STD_RANKS)).

Fixpoint spec_guess_rank_level (tax_code : list (nat * TaxCode.entry))
    (ranks : list string) (rank_level : nat) : option nat :=
  name ← ranks !! rank_level;
  let lvl := first_match tax_code (TaxCode.normalize name) in
  if lvl =? 0
  then
    match rank_level with
    | O => Some 1
    | S parent =>
        parent_level ← spec_guess_rank_level tax_code ranks parent;
        if parent_level =? 0 then Some 0
        else Some (next_backbone tax_code parent_level)
    end
  else Some lvl.

(** A table as the dictionary displays of the source produce it: the levels
    ascend, [0] is not a level and kingdom, [1], is one. *)
Definition table_wf (tax_code : list (nat * TaxCode.entry)) : bool :=
  bool_decide (StronglySorted lt tax_code.*1)
  && bool_decide (0 ∉ tax_code.*1) && bool_decide (1 ∈ tax_code.*1).

(** The exact-match component of every entry acts as a set on this name:
    where the source has a bare string instead of a tuple, the name is a
    substring of it only when it is equal to it. *)
Definition exact_sets_ok (tax_code : list (nat * TaxCode.entry))
    (rank_name : string) : bool :=
  forallb (fun e =>
             match e.2.2 with
             | TaxCode.Str s => eqb (occurs rank_name s) (String.eqb rank_name s)
             | TaxCode.Tup _ => true
             end) tax_code.

(** *** The filters and the quota of [TaxTreeBuilder.build] *)





(** A level is an index of the path, counted from either end. *)
Definition level_in_range (ranks : list string) (lvl : Z) : bool :=
  (- Z.of_nat (length ranks) <=? lvl)%Z && (lvl <? Z.of_nat (length ranks))%Z.

(** All levels the configuration consults are indices of the path. *)
Definition config_in_range (cfg : TaxTreeBuilder.config) (ranks : list string)
  : bool :=
  level_in_range ranks (TaxTreeBuilder.min_rank cfg)
  && forallb (fun c => level_in_range ranks c.1) (TaxTreeBuilder.clades_to_include cfg)
  && forallb (fun c => level_in_range ranks c.1) (TaxTreeBuilder.clades_to_ignore cfg).

(** The path has a name other than the marker at position [k]. *)
Definition assigned_at (ranks : list string) (k : nat) : Prop :=
  exists x, ranks !! k = Some x /\ String.eqb x EMPTY_RANK = false.

(** Below the root no marker stands above an assigned entry. *)
Definition gap_free (ranks : list string) : Prop :=
  forall j k, 1 <= j < k -> assigned_at ranks k -> assigned_at ranks j.

(** No rank name of the path is the empty string. *)
Definition no_blank (ranks : list string) : Prop :=
  Forall (fun r => String.eqb r "" = false) ranks.

(** A string without its first [n] characters. *)
Fixpoint string_drop (n : nat) (s : string) : string :=
  match n, s with
  | S k, String _ rest => string_drop k rest
  | _, _ => s
  end.

(** The identifier and the rank path that [load_taxonomy] reads from a
    line. *)
Definition line_sid (prefix line : string) : string :=
  prefix +:+ default "" (head (split TAB (strip_ws line))).

Definition line_ranks (line : string) : list string :=
  strip_ws <$> split ";" (default "" (split TAB (strip_ws line) !! 1)).

(** A path with the invalid characters replaced in every name below the
    first. *)
Definition clean_path (ranks : list string) : list string :=
  take 1 ranks ++ (translate rank_invalid_chars <$> drop 1 ranks).

(** Whether a name has one of the invalid characters. *)
Definition has_invalid (name : string) : bool :=
  existsb (fun c => existsb (Ascii.eqb c) (list_ascii_of_string rank_invalid_chars))
    (list_ascii_of_string name).

(** What the correction table holds: names that change, with their
    replacement. *)
Definition corrections_ok (corr_ranks : list (string * string)) : Prop :=
  forall k v, dict_get corr_ranks k = Some v ->
    v = translate rank_invalid_chars k /\ String.eqb v k = false.

(** *** The tree of [TaxTreeBuilder] *)

(** Node [0] is the root and has no parent; every other node has a parent
    that was made before it. *)
Definition tree_wf (nodes : list (string * option nat)) : Prop :=
  nodes !! 0 = Some (TaxTreeBuilder.ROOT_LABEL, None) /\
  forall i name parent, 0 < i -> nodes !! i = Some (name, parent) ->
    exists p, parent = Some p /\ p < i.

(** The node memoised for a rank uid is a node of the tree and carries
    that uid as its name. *)
Definition memo_named (b : TaxTreeBuilder.builder) : Prop :=
  forall k n, dict_get (TaxTreeBuilder.tree_nodes b) k = Some n ->
    exists parent, TaxTreeBuilder.nodes b !! n = Some (k, parent).

(** Every accepted identifier is the name of a node other than the
    root. *)
Definition leaves_in_tree (nodes : list (string * option nat))
    (ids : list string) : Prop :=
  forall sid, sid ∈ ids -> exists i p, nodes !! i = Some (sid, Some p).

(** *** The reports of [check_for_duplicates] *)

(** A record has four fields in report-only mode and five in autofix mode;
    its first and its third field are identifiers of the store. *)
Definition dup_record_ok (self : state) (autofix : bool) (rec : list string)
  : Prop :=
  length rec = (if autofix then 5 else 4) /\
  exists old_sid sid,
    rec !! 0 = Some old_sid /\ rec !! 2 = Some sid /\
    dict_mem (seq_ranks_map self) old_sid = true /\
    dict_mem (seq_ranks_map self) sid = true.

(** The local variables of the pass name identifiers of the store only. *)
Definition dup_state_named (self : state) (autofix : bool) (st : dup_state)
  : Prop :=
  (forall name sid, dict_get (parent_map st) name = Some sid ->
     dict_mem (seq_ranks_map self) sid = true) /\
  (forall k, dict_mem (old_fixed st) k = true ->
     dict_mem (seq_ranks_map self) k = true) /\
  Forall (dup_record_ok self autofix) (dups st).

End Spec.

(* ===================================================================== *)
(** * Stores and inputs used as examples                                   *)
(* ===================================================================== *)

Module Examples.

Import Taxonomy.

(** One sequence two levels too deep and one on the seven-level backbone. *)
Definition deep_store : state :=
  of_list ""
    [("s1", ["Bacteria"; "Firmicutes"; "Clostridia"; "Clostridiidae";
             "Clostridiales"; "Clostridineae"; "Lachnospiraceae"; "Blautia";
             "Blautia producta"]);
     ("s2", ["Bacteria"; "Firmicutes"; "Bacilli"; "Lactobacillales";
             "Lactobacillaceae"; "Lactobacillus"; "Lactobacillus casei"])].

(** A single classified sequence. *)
Definition one_store : state :=
  of_list "" [("s1", ["Bacteria"; "Firmicutes"])].

(** Two lineages of different depth that share the name [X]. *)
Definition uneven_store : state :=
  of_list "" [("a", ["A"; "X"]); ("b", ["B"; "C"; "D"; "X"])].

(** Four sequences: [a] and [g] carry the same lineage, [c] and [e] reuse
    its names under other parents. *)
Definition reuse_store : state :=
  of_list "" [("a", ["A"; "P"; "N"]); ("c", ["B"; "Q"; "N"]);
              ("e", ["C"; "P"; "N"]); ("g", ["A"; "P"; "N"])].

(** A lineage with a gap above a rank whose name is the empty string, as
    [load_taxonomy] reads it from the line [s1<TAB>A;-;]. *)
Definition blank_line : string := "s1" +:+ TAB +:+ "A;-;".
Definition blank_store : state := of_list "" [("s1", ["A"; "-"; ""])].

(** Two groups of one sequence each. *)
Definition two_groups : state :=
  of_list "" [("a", ["A"; "B"]); ("b", ["A"; "C"])].


(** Three sequences of the clade [A;B;C], one of [A;B;D], one with a
    trailing gap under [A;B;C], one without kingdom and one assigned at the
    kingdom only. *)
Definition quota_store : state :=
  of_list ""
    [("s1", ["A"; "B"; "C"]); ("s2", ["A"; "B"; "C"]); ("s3", ["A"; "B"; "D"]);
     ("s4", ["A"; "B"; "C"; "-"]); ("s5", ["-"; "A"; "B"]);
     ("s6", ["A"; "-"; "-"]); ("s7", ["A"; "B"; "C"])].

(** Kingdom required, one sequence per parent, no clade filters. *)
Definition quota_cfg : TaxTreeBuilder.config :=
  TaxTreeBuilder.mkConfig 0 1 [] [].

(** The tree [build] makes of them, before pruning. *)
Definition quota_tree : list (string * option nat) :=
  [("<<root>>", None); ("A", Some 0); ("A@@B", Some 1); ("A@@B@@C", Some 2);
   ("s1", Some 3); ("A@@B@@D", Some 2); ("s3", Some 5); ("s4", Some 3);
   ("s6", Some 1)].

(** The two records of the specification's example scenario. *)
Definition scenario_store : state :=
  of_list ""
    [("seq1", ["Bacteria"; "Firmicutes"; "Clostridia"; "Clostridiales";
               "Lachnospiraceae"; "Blautia"; "Blautia producta"]);
     ("seq2", ["Bacteria"; "Firmicutes"; "Bacilli"; "Lactobacillales";
               "Lachnospiraceae"; "Roseburia"; "Roseburia intestinalis"])].

(** The record of [blank_line] read into a store with the prefix [r_]. *)
Definition prefixed_store : state :=
  mkState "r_" [["A"; "-"; ""]] [("r_s1", 0)] [("A@@-@@", ["r_s1"])].

(** Two sequences with brackets and quotes in their rank names. *)
Definition punct_store : state :=
  of_list ""
    [("s1", ["[Bacteria]"; "Firmi(cutes)"; "Clostridia"]);
     ("s2", ["Bacteria"; "Firmi(cutes)"; "Bacilli: 'x'"])].

(** Two identifiers that share one rank list, as after [merge_ranks]; the
    path has a gap of two levels above the name [x]. *)
Definition shared_gap_store : state :=
  mkState "" [["A"; "-"; "-"; "x"; "-"]] [("s1", 0); ("s2", 0)]
    [("A@@-@@-@@x", ["s1"; "s2"])].

End Examples.

(* ===================================================================== *)
(** * Properties                                                           *)
(* ===================================================================== *)

(** ** Strings *)

Module StringFacts.

Lemma append_nil (b : string) : "" +:+ b = b.
Proof. reflexivity. Qed.

Lemma append_cons c (a b : string) : String c a +:+ b = String c (a +:+ b).
Proof. reflexivity. Qed.

Lemma append_assoc (a b c : string) : (a +:+ b) +:+ c = a +:+ (b +:+ c).
Proof. induction a as [|x a IH]; [done|]. rewrite !append_cons. by rewrite IH. Qed.

Lemma append_empty_r (a : string) : a +:+ "" = a.
Proof. induction a as [|x a IH]; [done|]. rewrite append_cons. by rewrite IH. Qed.

Lemma endswith_at_cons c d r :
  endswith (String c (String d r)) "@" = endswith (String d r) "@".
Proof.
  unfold endswith. cbn [String.length].
  replace (1 <=? S (S (String.length r))) with true
    by (symmetry; apply Nat.leb_le; lia).
  replace (1 <=? S (String.length r)) with true
    by (symmetry; apply Nat.leb_le; lia).
  replace (S (S (String.length r)) - 1) with (S (String.length r)) by lia.
  replace (S (String.length r) - 1) with (String.length r) by lia.
  reflexivity.
Qed.

Lemma occurs_cons sub c r :
  occurs sub (String c r) = false ->
  String.prefix sub (String c r) = false /\ occurs sub r = false.
Proof. cbn [occurs]. intros H. apply orb_false_iff in H. exact H. Qed.

(** The last piece: a name without delimiter is collected whole. *)
Lemma split_go_last cur r :
  occurs "@@" r = false -> split_go "@@" 0 cur r = [cur +:+ r].
Proof.
  revert cur. induction r as [|c r IH]; intros cur H.
  - simpl. by rewrite append_empty_r.
  - apply occurs_cons in H as [Hp Ho].
    cbn [split_go]. rewrite Hp. rewrite IH by done.
    by rewrite append_assoc.
Qed.

(** An inner piece: the scan passes over the name and cuts at the delimiter
    that follows it. *)
Lemma split_go_piece cur r tail :
  occurs "@@" r = false -> endswith r "@" = false ->
  split_go "@@" 0 cur (r +:+ "@@" +:+ tail)
  = (cur +:+ r) :: split_go "@@" 0 "" tail.
Proof.
  revert cur. induction r as [|c r IH]; intros cur Ho He.
  - rewrite append_nil, append_empty_r, !append_cons, append_nil.
    by destruct tail.
  - apply occurs_cons in Ho as [Hp Ho].
    rewrite append_cons.
    cbn [split_go].
    assert (Hp' : String.prefix "@@" (String c (r +:+ "@@" +:+ tail)) = false).
    { destruct r as [|d r].
      - cbn [String.prefix]. destruct (ascii_dec "@" c) as [<-|]; [|done].
        by vm_compute in He.
      - rewrite append_cons. cbn [String.prefix] in Hp |- *.
        destruct (ascii_dec "@" c); [|done].
        destruct (ascii_dec "@" d); [|done].
        by destruct r. }
    rewrite Hp'. rewrite IH; [by rewrite append_assoc|done|].
    destruct r as [|d r]; [done|]. by rewrite <- (endswith_at_cons c).
Qed.

Lemma split_go_join cur l :
  l <> [] -> Spec.delim_safe l ->
  split_go "@@" 0 cur (join "@@" l) = (cur +:+ default "" (head l)) :: tail l.
Proof.
  intros Hne [Ho He]. revert cur Hne Ho He.
  induction l as [|r l IH]; intros cur Hne Ho He; [done|].
  destruct l as [|r' l].
  - simpl. apply split_go_last. by inversion Ho.
  - change (join "@@" (r :: r' :: l)) with (r +:+ "@@" +:+ join "@@" (r' :: l)).
    inversion Ho as [|? ? Hr Ho']; subst.
    change (removelast (r :: r' :: l)) with (r :: removelast (r' :: l)) in He.
    inversion He as [|? ? Hr2 He']; subst.
    rewrite split_go_piece by done.
    rewrite IH by done. reflexivity.
Qed.

Lemma split_join l :
  l <> [] -> Spec.delim_safe l -> split "@@" (join "@@" l) = l.
Proof.
  intros Hne Hs. unfold split. rewrite split_go_join by done.
  destruct l; [done|]. reflexivity.
Qed.

End StringFacts.

(** ** Rank uids: [get_rank_uid] and [split_rank_uid] *)

Module RankUid.

Import Taxonomy Spec StringFacts.

Lemma lowest_from_bounds ranks n :
  (-1 <= lowest_from ranks n < Z.of_nat n)%Z.
Proof.
  induction n as [|n IH]; simpl; [lia|].
  destruct (ranks !! n); [|lia]. destruct (String.eqb _ _); lia.
Qed.

Lemma nonempty_prefix_nil p :
  (lowest_assigned_rank_level p <? 0)%Z = true -> nonempty_prefix p = [].
Proof.
  intros H. apply Z.ltb_lt in H. unfold nonempty_prefix.
  pose proof (lowest_from_bounds p (length p)) as Hb.
  unfold lowest_assigned_rank_level in *.
  replace (lowest_from p (length p)) with (-1)%Z by lia. reflexivity.
Qed.

Lemma nonempty_prefix_cons p :
  (lowest_assigned_rank_level p <? 0)%Z = false -> nonempty_prefix p <> [].
Proof.
  intros H. apply Z.ltb_ge in H. unfold nonempty_prefix, slice_to.
  pose proof (lowest_from_bounds p (length p)) as Hb.
  unfold lowest_assigned_rank_level in *.
  set (k := lowest_from p (length p)) in *.
  replace (k + 1 <? 0)%Z with false by (symmetry; apply Z.ltb_ge; lia).
  destruct p as [|x p]; [simpl in Hb; lia|].
  replace (Z.to_nat (k + 1)) with (S (Z.to_nat k)) by lia. done.
Qed.

(** The uid is the joined assigned prefix, and a joined delimiter-safe
    path splits into itself. *)
Lemma get_rank_uid_join (p : list string) :
  get_rank_uid p (-1) = join RANK_UID_DELIM (nonempty_prefix p).
Proof. reflexivity. Qed.

Lemma split_rank_uid_join (q : list string) :
  q <> [] -> delim_safe q -> split_rank_uid (join RANK_UID_DELIM q) 0 = q.
Proof.
  intros Hne Hs. unfold split_rank_uid.
  replace (length (split RANK_UID_DELIM (join RANK_UID_DELIM q)) <? 0)
    with false by (symmetry; apply Nat.ltb_ge; lia).
  by apply split_join.
Qed.

(** C5, as the code has it. For a rank path whose assigned prefix is
    delimiter-safe, [split_rank_uid (get_rank_uid p)] is that prefix when the
    path has an assigned entry; for an entirely empty path the uid is the
    empty string, which splits into the single name [""], not into the empty
    prefix. *)
Theorem split_rank_uid_get_rank_uid (p : list string) :
  delim_safe (nonempty_prefix p) ->
  split_rank_uid (get_rank_uid p (-1)) 0 =
    if (lowest_assigned_rank_level p <? 0)%Z then [""] else nonempty_prefix p.
Proof.
  intros Hs. rewrite get_rank_uid_join.
  destruct (lowest_assigned_rank_level p <? 0)%Z eqn:E.
  - rewrite nonempty_prefix_nil by done. reflexivity.
  - apply split_rank_uid_join; [by apply nonempty_prefix_cons|done].
Qed.

Lemma split_rank_uid_get_rank_uid_witness :
  delim_safe (nonempty_prefix ["Bacteria"; "-"; "Clostridia"; "-"]) /\
  split_rank_uid (get_rank_uid ["Bacteria"; "-"; "Clostridia"; "-"] (-1)) 0
  = ["Bacteria"; "-"; "Clostridia"].
Proof.
  assert (H : delim_safe (nonempty_prefix ["Bacteria"; "-"; "Clostridia"; "-"])).
  { split; vm_compute; repeat constructor. }
  split; [exact H|].
  exact (split_rank_uid_get_rank_uid ["Bacteria"; "-"; "Clostridia"; "-"] H).
Defined.

(** C5 as stated fails on the entirely empty path (the round trip yields
    [[""]], the prefix is [[]]) and on a name that ends with the delimiter's
    character. *)
Lemma split_rank_uid_get_rank_uid_all_empty :
  nonempty_prefix ["-"; "-"] = [] /\
  split_rank_uid (get_rank_uid ["-"; "-"] (-1)) 0 = [""] /\
  split_rank_uid (get_rank_uid ["-"; "-"] (-1)) 0 <> nonempty_prefix ["-"; "-"] /\
  split_rank_uid (get_rank_uid ["a@"; "b"] (-1)) 0 <> nonempty_prefix ["a@"; "b"].
Proof. vm_compute. repeat split; discriminate. Qed.

End RankUid.

(** ** Dictionaries *)

Module DictFacts.
Section Facts.
Context {V : Type}.
Implicit Types (d : list (string * V)) (k : string) (v : V).

Lemma dict_get_set_eq d k v : dict_get (dict_set d k v) k = Some v.
Proof.
  induction d as [|[k' v'] d IH]; simpl.
  - by rewrite String.eqb_refl.
  - destruct (String.eqb k' k) eqn:E; simpl; rewrite E; [done|apply IH].
Qed.

Lemma dict_get_set_ne d k k' v :
  k <> k' -> dict_get (dict_set d k v) k' = dict_get d k'.
Proof.
  intros Hne. induction d as [|[k0 v0] d IH]; simpl.
  - by apply String.eqb_neq in Hne as ->.
  - destruct (String.eqb k0 k) eqn:E; simpl.
    + apply String.eqb_eq in E as ->.
      by apply String.eqb_neq in Hne as ->.
    + by rewrite IH.
Qed.

Lemma dict_keys_set d k v :
  is_Some (dict_get d k) -> (dict_set d k v).*1 = d.*1.
Proof.
  induction d as [|[k0 v0] d IH]; cbn [dict_get dict_set]; intros H.
  - by destruct H.
  - destruct (String.eqb k0 k) eqn:E; csimpl; [done|]. by rewrite IH.
Qed.

Lemma dict_get_Some_elem d k v : dict_get d k = Some v -> (k, v) ∈ d.
Proof.
  induction d as [|[k0 v0] d IH]; simpl; [done|].
  destruct (String.eqb k0 k) eqn:E.
  - apply String.eqb_eq in E as ->. intros [= ->]. left.
  - intros H. right. by apply IH.
Qed.

Lemma dict_get_None d k : dict_get d k = None <-> k ∉ d.*1.
Proof.
  induction d as [|[k0 v0] d IH]; csimpl.
  - split; [intros _; apply not_elem_of_nil|done].
  - rewrite not_elem_of_cons. destruct (String.eqb k0 k) eqn:E.
    + apply String.eqb_eq in E as ->. split; [done|]. by intros [? _].
    + apply String.eqb_neq in E. rewrite IH. intuition congruence.
Qed.

Lemma dict_get_elem d k v :
  NoDup d.*1 -> (k, v) ∈ d -> dict_get d k = Some v.
Proof.
  induction d as [|[k0 v0] d IH]; csimpl; intros Hnd Hin.
  - by apply elem_of_nil in Hin.
  - apply NoDup_cons in Hnd as [Hk0 Hnd].
    apply elem_of_cons in Hin as [[= -> ->]|Hin].
    + by rewrite String.eqb_refl.
    + destruct (String.eqb k0 k) eqn:E; [|by apply IH].
      apply String.eqb_eq in E as ->. destruct Hk0.
      apply list_elem_of_fmap. by exists (k, v).
Qed.

Lemma dict_mem_true d k : dict_mem d k = true <-> k ∈ d.*1.
Proof.
  unfold dict_mem. destruct (dict_get d k) eqn:E.
  - split; [intros _|done]. apply dict_get_Some_elem in E.
    apply list_elem_of_fmap. by exists (k, v).
  - apply dict_get_None in E. split; [done|]. intros; contradiction.
Qed.
End Facts.
End DictFacts.

(** ** [check_for_disbalance] *)

Module Disbalance.

Import Taxonomy Spec.


Section Queues.
Variable ranks : list string.
Lemma before_irrefl i : ~ before ranks i i.
Proof. unfold before. lia. Qed.

Lemma before_trans i j k : before ranks i j -> before ranks j k -> before ranks i k.
Proof. unfold before. lia. Qed.

Lemma dropq_prio : dropq ranks = filter (fun i => prio ranks i = 0) (seq 1 (length ranks - 1)).
Proof.
  apply list_filter_iff. intros i. unfold prio.
  destruct (is_drop _); [done|]. destruct (is_keep _); split; done.
Qed.

Lemma restq_prio : restq ranks = filter (fun i => prio ranks i = 1) (seq 1 (length ranks - 1)).
Proof.
  apply list_filter_iff. intros i. unfold prio.
  destruct (is_drop _); [intuition congruence|].
  destruct (is_keep _); intuition congruence.
Qed.

Lemma keepq_prio : keepq ranks = filter (fun i => prio ranks i = 2) (seq 1 (length ranks - 1)).
Proof.
  apply list_filter_iff. intros i. unfold prio.
  destruct (is_drop _); [intuition congruence|].
  destruct (is_keep _); intuition congruence.
Qed.

Lemma queues_perm_gen (l : list nat) :
  filter (fun i => prio ranks i = 0) l ++ filter (fun i => prio ranks i = 1) l
    ++ filter (fun i => prio ranks i = 2) l ≡ₚ l.
Proof.
  induction l as [|x l IH]; [done|].
  rewrite !filter_cons.
  assert (Hp : prio ranks x = 0 \/ prio ranks x = 1 \/ prio ranks x = 2).
  { unfold prio. destruct (is_drop _); [|destruct (is_keep _)]; auto. }
  destruct Hp as [Hp|[Hp|Hp]]; rewrite Hp; repeat case_decide; try done.
  - simpl. by rewrite IH.
  - simpl. rewrite <- Permutation_middle. by rewrite IH.
  - rewrite app_assoc, <- Permutation_middle, <- app_assoc. by rewrite IH.
Qed.

Lemma queues_perm : dropq ranks ++ restq ranks ++ keepq ranks ≡ₚ (seq 1 (length ranks - 1)).
Proof. rewrite dropq_prio, restq_prio, keepq_prio. apply queues_perm_gen. Qed.

Lemma seq_sorted a n : StronglySorted lt (seq a n).
Proof.
  revert a. induction n as [|n IH]; intros a; simpl; constructor; [apply IH|].
  apply Forall_forall. intros x Hx. apply list_elem_of_In, in_seq in Hx. lia.
Qed.

Lemma queue_sorted c (l : list nat) :
  StronglySorted lt l ->
  StronglySorted (before ranks) (filter (fun i => prio ranks i = c) l).
Proof.
  induction 1 as [|x l Hs IH Hall]; [constructor|].
  rewrite filter_cons. case_decide as Hx; [|done].
  constructor; [done|]. apply Forall_forall. intros y Hy.
  apply list_elem_of_filter in Hy as [Hy Hin].
  rewrite Forall_forall in Hall. specialize (Hall _ Hin).
  right. split; [congruence|done].
Qed.

Lemma queues_sorted :
  StronglySorted (before ranks) (dropq ranks ++ restq ranks ++ keepq ranks).
Proof.
  rewrite dropq_prio, restq_prio, keepq_prio.
  apply StronglySorted_app_2; [|apply queue_sorted, seq_sorted|].
  - intros x y Hx Hy. apply list_elem_of_filter in Hx as [Hx _].
    apply elem_of_app in Hy as [Hy|Hy]; apply list_elem_of_filter in Hy as [Hy _];
      left; lia.
  - apply StronglySorted_app_2; [|apply queue_sorted, seq_sorted..].
    intros x y Hx Hy. apply list_elem_of_filter in Hx as [Hx _].
    apply list_elem_of_filter in Hy as [Hy _]. left; lia.
Qed.

Lemma sorted_take_closed (l : list nat) n x y :
  StronglySorted (before ranks) l ->
  x ∈ take n l -> y ∈ l -> before ranks y x -> y ∈ take n l.
Proof.
  intros Hs Hx Hy Hb. rewrite <- (take_drop n l) in Hs, Hy.
  apply elem_of_app in Hy as [Hy|Hy]; [done|].
  pose proof (StronglySorted_app_1_elem_of _ _ _ _ _ Hs Hx Hy) as Hxy.
  destruct (before_irrefl x). by eapply before_trans.
Qed.

Lemma to_remove_NoDup : NoDup (to_remove ranks).
Proof.
  unfold to_remove. eapply sublist_NoDup; [|apply sublist_take].
  rewrite queues_perm. apply NoDup_seq.
Qed.

Lemma to_remove_range i : i ∈ to_remove ranks -> 1 <= i < length ranks.
Proof.
  unfold to_remove. intros Hi. apply elem_of_take in Hi as (k & Hi & _).
  apply list_elem_of_lookup_2 in Hi. rewrite queues_perm in Hi.
  apply list_elem_of_In, in_seq in Hi. lia.
Qed.

Lemma to_remove_length :
  7 < length ranks -> length (to_remove ranks) = length ranks - 7.
Proof.
  intros H. unfold to_remove. rewrite length_take, queues_perm.
  rewrite length_seq. lia.
Qed.

Lemma to_remove_closed i j :
  i ∈ to_remove ranks -> 1 <= j < length ranks -> before ranks j i ->
  j ∈ to_remove ranks.
Proof.
  intros Hi Hj Hb. unfold to_remove in *.
  eapply sorted_take_closed; [apply queues_sorted|done| |done].
  rewrite queues_perm. apply list_elem_of_In, in_seq. lia.
Qed.
End Queues.

Lemma store_wf_NoDup self : store_wf self = true -> NoDup (seq_ranks_map self).*1.
Proof.
  unfold store_wf. intros H. apply andb_true_iff in H as [H _].
  by apply bool_decide_eq_true in H.
Qed.

Lemma store_wf_addr self sid a :
  store_wf self = true -> (sid, a) ∈ seq_ranks_map self -> a < length (objs self).
Proof.
  unfold store_wf. intros H Hin. apply andb_true_iff in H as [_ H].
  rewrite forallb_forall in H. apply list_elem_of_In in Hin.
  specialize (H _ Hin). by apply Nat.ltb_lt in H.
Qed.

Lemma omit_sublist_gen (R : list nat) (l0 l : list string) :
  omap (fun i => if bool_decide (i ∈ R) then None else (l0 ++ l) !! i)
    (seq (length l0) (length l)) `sublist_of` l.
Proof.
  revert l0. induction l as [|x l IH]; intros l0; [constructor|].
  cbn [length seq omap list_omap].
  specialize (IH (l0 ++ [x])). rewrite <- app_assoc, length_app in IH.
  cbn [length app] in IH. rewrite Nat.add_1_r in IH.
  destruct (bool_decide (length l0 ∈ R)).
  - by apply sublist_cons.
  - rewrite list_lookup_middle by done. by apply sublist_skip.
Qed.

Lemma omit_sublist ranks R : omit ranks R `sublist_of` ranks.
Proof. apply (omit_sublist_gen R [] ranks). Qed.

Lemma omit_length_gen (ranks : list string) (R l : list nat) :
  (forall i, i ∈ l -> i < length ranks) ->
  length (omap (fun i => if bool_decide (i ∈ R) then None else ranks !! i) l)
  + length (filter (fun i => i ∈ R) l) = length l.
Proof.
  induction l as [|i l IH]; intros Hl; [done|].
  cbn [omap list_omap]. rewrite filter_cons.
  assert (Hi : i < length ranks) by (apply Hl; left).
  apply lookup_lt_is_Some in Hi as [x Hx].
  specialize (IH (fun j Hj => Hl j (list_elem_of_further _ _ _ Hj))).
  destruct (decide (i ∈ R)) as [HR|HR].
  - rewrite bool_decide_eq_true_2 by done. simpl. lia.
  - rewrite bool_decide_eq_false_2 by done. rewrite Hx. simpl. lia.
Qed.

Lemma omit_length ranks R :
  NoDup R -> (forall i, i ∈ R -> i < length ranks) ->
  length (omit ranks R) = length ranks - length R.
Proof.
  intros Hnd Hr. unfold omit.
  pose proof (omit_length_gen ranks R (seq 0 (length ranks))) as H.
  rewrite length_seq in H.
  assert (Hp : filter (fun i => i ∈ R) (seq 0 (length ranks)) ≡ₚ R).
  { apply NoDup_Permutation; [apply NoDup_filter, NoDup_seq|done|].
    intros i. rewrite list_elem_of_filter, elem_of_seq.
    split; [by intros [? _]|]. intros Hi. split; [done|].
    specialize (Hr _ Hi). lia. }
  rewrite Hp in H.
  assert (Hrange : forall i, i ∈ seq 0 (length ranks) -> i < length ranks)
    by (intros i Hi; apply elem_of_seq in Hi; lia).
  specialize (H Hrange). lia.
Qed.

Lemma new_ranks_rebalanced ranks :
  7 < length ranks -> rebalanced ranks (new_ranks ranks).
Proof.
  intros Hlen. change (new_ranks ranks) with (omit ranks (to_remove ranks)).
  split; [|split; [apply omit_sublist|]].
  - rewrite omit_length; [rewrite to_remove_length by done; lia|apply to_remove_NoDup|].
    intros i Hi. apply to_remove_range in Hi. lia.
  - exists (to_remove ranks). split; [apply to_remove_NoDup|].
    split; [by apply to_remove_length|]. split; [apply to_remove_range|].
    split; [apply to_remove_closed|done].
Qed.

Lemma deref_app o extra a : a < length o -> deref (o ++ extra) a = deref o a.
Proof. intros H. unfold deref. by rewrite lookup_app_l. Qed.

Lemma filter_ext_elem_of {A} (P Q : A -> Prop) `{!forall x, Decision (P x)}
    `{!forall x, Decision (Q x)} (l : list A) :
  (forall x, x ∈ l -> P x <-> Q x) -> filter P l = filter Q l.
Proof.
  induction l as [|x l IH]; intros Hext; [done|].
  rewrite !filter_cons.
  rewrite IH by (intros y Hy; apply Hext; by right).
  pose proof (Hext x ltac:(left)) as Hx.
  destruct (decide (P x)) as [HP|HP], (decide (Q x)) as [HQ|HQ]; tauto.
Qed.

Lemma filter_fmap {A B} (f : A -> B) (P : B -> Prop) `{!forall x, Decision (P x)}
    (l : list A) :
  filter P (f <$> l) = f <$> filter (fun x => P (f x)) l.
Proof.
  induction l as [|x l IH]; [done|].
  rewrite fmap_cons, !filter_cons, IH. by destruct (decide (P (f x))).
Qed.

Lemma disbalance_loop_autofix entries self errs self' errs' :
  NoDup entries.*1 ->
  (forall sid a, (sid, a) ∈ entries ->
     dict_get (seq_ranks_map self) sid = Some a /\ a < length (objs self)) ->
  disbalance_loop true entries self errs = (self', errs') ->
  (exists k, objs self' = objs self ++ k) /\
  rank_seqs_map self' = rank_seqs_map self /\
  (forall sid, sid ∉ entries.*1 ->
     dict_get (seq_ranks_map self') sid = dict_get (seq_ranks_map self) sid) /\
  (forall sid a, (sid, a) ∈ entries ->
     if 7 <? length (deref (objs self) a)
     then ranks_of self' sid = Some (new_ranks (deref (objs self) a))
     else dict_get (seq_ranks_map self') sid = Some a) /\
  errs' = errs ++ ((fun e => err_rec e.1)
          <$> filter (fun e => 7 < length (deref (objs self) e.2)) entries).
Proof.
  revert self errs.
  induction entries as [|[sid a] entries IH]; intros self errs Hnd Hin Hrun.
  - simpl in Hrun. injection Hrun as <- <-.
    split; [exists []; by rewrite app_nil_r|]. split; [done|]. split; [done|].
    split; [intros ? ? H; by apply elem_of_nil in H|]. by rewrite app_nil_r.
  - rewrite fmap_cons in Hnd. apply NoDup_cons in Hnd as [Hsid Hnd].
    cbn [disbalance_loop] in Hrun. rewrite filter_cons. cbn [snd fst].
    destruct (Hin sid a ltac:(left)) as [Hget Ha].
    destruct (7 <? length (deref (objs self) a)) eqn:E.
    + apply Nat.ltb_lt in E. rewrite decide_True by done.
      apply IH in Hrun as (Hpre & Hrsm & Hout & Hins & Herr); [|done|].
      2:{ intros sid' a' Hin'. destruct (Hin sid' a' ltac:(by right)) as [Hg Hl].
          cbn. split; [|rewrite length_app; lia].
          rewrite DictFacts.dict_get_set_ne; [done|]. intros ->.
          apply Hsid. apply list_elem_of_fmap. by exists (sid', a'). }
      cbn [objs seq_ranks_map rank_seqs_map] in Hpre, Hrsm, Hout, Hins, Herr.
      split; [|split; [|split; [|split]]].
      * destruct Hpre as [k ->]. eexists. by rewrite <- app_assoc.
      * done.
      * intros sid' Hsid'. rewrite fmap_cons, not_elem_of_cons in Hsid'.
        destruct Hsid' as [Hne Hsid']. rewrite Hout by done.
        by rewrite DictFacts.dict_get_set_ne.
      * intros sid' a' Hin'. apply elem_of_cons in Hin' as [[= -> ->]|Hin'].
        -- apply Nat.ltb_lt in E. rewrite E. unfold ranks_of.
           rewrite Hout by done. rewrite DictFacts.dict_get_set_eq. cbn.
           destruct Hpre as [k ->].
           rewrite <- app_assoc. cbn [app]. by rewrite list_lookup_middle.
        -- specialize (Hins _ _ Hin').
           destruct (Hin sid' a' ltac:(by right)) as [_ Hl].
           by rewrite deref_app in Hins.
      * rewrite Herr. rewrite <- app_assoc. cbn [app fmap list_fmap fst].
        do 3 f_equal. apply filter_ext_elem_of. intros [sid' a'] Hin'.
        destruct (Hin sid' a' ltac:(by right)) as [_ Hl].
        cbn [snd]. by rewrite deref_app.
    + apply Nat.ltb_ge in E. rewrite decide_False by lia.
      apply IH in Hrun as (Hpre & Hrsm & Hout & Hins & Herr); [|done|].
      2:{ intros sid' a' Hin'. apply Hin. by right. }
      split; [done|]. split; [done|]. split; [|split; [|done]].
      * intros sid' Hsid'. rewrite fmap_cons, not_elem_of_cons in Hsid'.
        destruct Hsid' as [Hne Hsid']. by apply Hout.
      * intros sid' a' Hin'. apply elem_of_cons in Hin' as [[= -> ->]|Hin'].
        -- apply Nat.ltb_ge in E. rewrite E. by rewrite Hout.
        -- by apply Hins.
Qed.

(** C3. After [check_for_disbalance(autofix=True)] a path that was longer
    than 7 has exactly 7 entries: the positions left out are the first
    [length - 7] of the removal order (drop candidates, then the remainder,
    then keep candidates, never position 0) and the surviving entries keep
    their order; a path of at most 7 entries is unchanged; the reverse index
    is untouched; and one record per unbalanced sequence is returned, in
    iteration order. *)
Theorem check_for_disbalance_autofix (self self' : state) (errs : list (list string)) :
  store_wf self = true ->
  check_for_disbalance self true = (self', errs) ->
  (forall sid ranks, ranks_of self sid = Some ranks ->
     if 7 <? length ranks
     then exists new, ranks_of self' sid = Some new /\ rebalanced ranks new
     else ranks_of self' sid = Some ranks) /\
  rank_seqs_map self' = rank_seqs_map self /\
  errs = (fun e => err_rec e.1) <$> filter (fun e => 7 < length e.2) (items self).
Proof.
  intros Hwf Hrun. unfold check_for_disbalance in Hrun.
  apply disbalance_loop_autofix in Hrun as (Hpre & Hrsm & Hout & Hins & Herr).
  2:{ by apply store_wf_NoDup. }
  2:{ intros sid a Hin. split; [|by eapply store_wf_addr].
      apply DictFacts.dict_get_elem; [by apply store_wf_NoDup|done]. }
  split; [|split; [done|]].
  - intros sid ranks Hr. unfold ranks_of in Hr.
    destruct (dict_get (seq_ranks_map self) sid) as [a|] eqn:Hg; [|done].
    cbn in Hr. apply DictFacts.dict_get_Some_elem in Hg as Hin.
    specialize (Hins _ _ Hin). unfold deref in Hins. rewrite Hr in Hins.
    cbn [from_option id] in Hins. destruct (7 <? length ranks) eqn:E.
    + exists (new_ranks ranks). split; [done|].
      apply new_ranks_rebalanced. by apply Nat.ltb_lt.
    + unfold ranks_of. rewrite Hins. cbn. destruct Hpre as [k ->].
      apply lookup_app_l_Some. done.
  - rewrite Herr. cbn [app]. unfold items.
    rewrite filter_fmap, <- list_fmap_compose. done.
Qed.

Lemma check_for_disbalance_autofix_witness :
  store_wf Examples.deep_store = true /\
  ranks_of (check_for_disbalance Examples.deep_store true).1 "s1"
  = Some ["Bacteria"; "Firmicutes"; "Clostridia"; "Clostridiales";
          "Lachnospiraceae"; "Blautia"; "Blautia producta"] /\
  rebalanced
    ["Bacteria"; "Firmicutes"; "Clostridia"; "Clostridiidae";
     "Clostridiales"; "Clostridineae"; "Lachnospiraceae"; "Blautia";
     "Blautia producta"]
    ["Bacteria"; "Firmicutes"; "Clostridia"; "Clostridiales";
     "Lachnospiraceae"; "Blautia"; "Blautia producta"] /\
  (check_for_disbalance Examples.deep_store true).2 = [err_rec "s1"].
Proof.
  assert (Hwf : store_wf Examples.deep_store = true) by reflexivity.
  assert (Hrun : check_for_disbalance Examples.deep_store true
                 = ((check_for_disbalance Examples.deep_store true).1,
                    (check_for_disbalance Examples.deep_store true).2)) by reflexivity.
  destruct (check_for_disbalance_autofix _ _ _ Hwf Hrun) as (Hpaths & _ & Herrs).
  split; [exact Hwf|].
  specialize (Hpaths "s1" _ eq_refl).
  cbn [Nat.ltb Nat.leb length] in Hpaths.
  destruct Hpaths as (new & Hnew & Hreb).
  assert (new = ["Bacteria"; "Firmicutes"; "Clostridia"; "Clostridiales";
          "Lachnospiraceae"; "Blautia"; "Blautia producta"]) as ->.
  { vm_compute in Hnew. congruence. }
  split; [exact Hnew|]. split; [exact Hreb|]. exact Herrs.
Defined.

End Disbalance.

(** ** [remove_seq] and [rename_seq] against the partition invariant *)

Module Reindex.

Import Taxonomy Spec Examples.

(** [remove_seq] never removes: on any store it raises. *)
Lemma remove_seq_raises (self : state) (seqid : string) :
  returns (remove_seq self seqid) = false.
Proof.
  unfold remove_seq. destruct (seq_rank_id self seqid) as [rank_id|e]; [|done].
  cbn. by destruct (dict_get (rank_seqs_map self) rank_id).
Qed.

(** [rename_seq] leaves the reverse index as it is. *)
Lemma rename_seq_rank_seqs_map (self self' : state) (old_seqid new_seqid : string) :
  rename_seq self old_seqid new_seqid = Ok self' ->
  rank_seqs_map self' = rank_seqs_map self.
Proof.
  unfold rename_seq. destruct (dict_get (seq_ranks_map self) old_seqid); [|done].
  destruct (dict_del _ _); [|done]. cbn. by intros [= <-].
Qed.

(** C1 on the store with the single sequence [s1]: the reverse index
    partitions the identifiers; [rename_seq] returns a store in which it no
    longer does (the group still lists [s1], the forward map has [s2]); and
    [remove_seq] raises [NameError] instead of removing. *)
Theorem rename_seq_breaks_partition :
  partitions one_store = true /\
  rename_seq one_store "s1" "s2"
  = Ok (mkState "" [["Bacteria"; "Firmicutes"]] [("s2", 0)]
          [("Bacteria@@Firmicutes", ["s1"])]) /\
  partitions (mkState "" [["Bacteria"; "Firmicutes"]] [("s2", 0)]
                [("Bacteria@@Firmicutes", ["s1"])]) = false /\
  remove_seq one_store "s1" = Raise NameError.
Proof. by vm_compute. Qed.

End Reindex.

(** ** [check_for_duplicates] and [check_for_disbalance], report only *)

Module ReportOnly.

Import Taxonomy Spec Examples.

Lemma with_objs_same (self : state) : with_objs self (objs self) = self.
Proof. by destruct self. Qed.

(** Without [autofix] a step of the duplicate scan leaves the heap alone. *)
Lemma dup_step_detect_objs self sid a i st st' :
  dup_step self false sid a i st = Ok (Some st') -> d_objs st' = d_objs st.
Proof.
  unfold dup_step. destruct (deref (d_objs st) a !! i) as [ranks_i|]; [|done].
  destruct (String.eqb ranks_i EMPTY_RANK); [done|].
  destruct (getitem _ _) as [parent|]; [|done]. cbn.
  destruct (dict_get (parent_map st) ranks_i) as [old_sid|].
  - destruct (get_seq_ranks self old_sid) as [oa|]; [|done]. cbn.
    destruct (getitem _ _) as [old_parent|]; [|done]. cbn.
    destruct (negb _); cbn; by intros [= <-].
  - cbn. by intros [= <-].
Qed.

Lemma dup_scan_detect_objs self sid a positions st st' :
  dup_scan self false sid a positions st = Ok st' -> d_objs st' = d_objs st.
Proof.
  revert st. induction positions as [|i positions IH]; intros st; cbn.
  - by intros [= <-].
  - destruct (dup_step self false sid a i st) as [[st1|]|] eqn:E; cbn; [| |done].
    + intros H. apply IH in H. rewrite H. by eapply dup_step_detect_objs.
    + by intros [= <-].
Qed.

Lemma dup_loop_detect_objs self entries st st' :
  dup_loop self false entries st = Ok st' -> d_objs st' = d_objs st.
Proof.
  revert st. induction entries as [|[sid a] entries IH]; intros st; cbn.
  - by intros [= <-].
  - destruct (dup_scan _ _ _ _ _ _) as [st1|] eqn:E; cbn; [|done].
    intros H. apply IH in H. rewrite H. by eapply dup_scan_detect_objs.
Qed.

(** When [check_for_duplicates(autofix=False)] returns, the store is
    unchanged, rank lists included. *)
Lemma check_for_duplicates_detect_frame self self' report :
  check_for_duplicates self false = Ok (self', report) -> self' = self.
Proof.
  unfold check_for_duplicates.
  destruct (dup_loop _ _ _ _) as [st|] eqn:E; cbn; [|done].
  intros [= <- _]. apply dup_loop_detect_objs in E. cbn in E.
  rewrite E. apply with_objs_same.
Qed.

Lemma disbalance_loop_detect entries self errs :
  (disbalance_loop false entries self errs).1 = self.
Proof.
  revert errs. induction entries as [|[sid a] entries IH]; intros errs; [done|].
  cbn [disbalance_loop]. destruct (7 <? _); apply IH.
Qed.

(** [check_for_disbalance(autofix=False)] always returns, and returns the
    store unchanged. *)
Lemma check_for_disbalance_detect_frame self :
  (check_for_disbalance self false).1 = self.
Proof. apply disbalance_loop_detect. Qed.

(** C9 on two lineages of different depth: the name [X] is first seen in
    [a], whose path has two entries; when the scan of [b] meets [X] at
    position 3 it reads position 2 of [a], and the report-only pass raises
    [IndexError] instead of returning a report. *)
Theorem check_for_duplicates_detect_raises :
  store_wf uneven_store = true /\
  check_for_duplicates uneven_store false = Raise IndexError.
Proof. by vm_compute. Qed.

(** C2 on four sequences. The autofix pass rewrites position 2 of [a] to
    [N_P] and, because position 1 of [a] has meanwhile become [P_A], also
    position 2 of [g] (whose lineage is that of [a]) to [N_P]; the detection
    pass that follows reports exactly these two rewritten entries as a
    conflict. *)
Theorem check_for_duplicates_autofix_then_detect :
  exists fixed audit,
    check_for_duplicates reuse_store true = Ok (fixed, audit) /\
    items fixed = [("a", ["A"; "P_A"; "N_P"]); ("c", ["B"; "Q"; "N_Q"]);
                   ("e", ["C"; "P_C"; "N_P_C"]); ("g", ["A"; "P"; "N_P"])] /\
    check_for_duplicates fixed false = Ok (fixed, [["a"; "a"; "g"; "g"]]).
Proof. do 2 eexists. by vm_compute. Qed.

(** On the example scenario of the specification the autofix pass renames
    the two occurrences of [Lachnospiraceae] after their parents, and the
    detection pass that follows reports nothing. *)
Remark check_for_duplicates_scenario :
  exists fixed audit,
    check_for_duplicates scenario_store true = Ok (fixed, audit) /\
    items fixed
    = [("seq1", ["Bacteria"; "Firmicutes"; "Clostridia"; "Clostridiales";
                 "Lachnospiraceae_Clostridiales"; "Blautia";
                 "Blautia producta"]);
       ("seq2", ["Bacteria"; "Firmicutes"; "Bacilli"; "Lactobacillales";
                 "Lachnospiraceae_Lactobacillales"; "Roseburia";
                 "Roseburia intestinalis"])] /\
    check_for_duplicates fixed false = Ok (fixed, []).
Proof. do 2 eexists. by vm_compute. Qed.

End ReportOnly.

(** ** [merge_ranks] *)

Module Merge.

Import Taxonomy Spec Examples DictFacts.

Section Remove.
Context {V : Type}.
Implicit Types (d : list (string * V)) (k : string) (v : V).

Lemma dict_get_remove_ne d k k' :
  k <> k' -> dict_get (dict_remove d k) k' = dict_get d k'.
Proof.
  intros Hne. induction d as [|[k0 v0] d IH]; [done|]. cbn.
  destruct (String.eqb k0 k) eqn:E; cbn.
  - apply String.eqb_eq in E as ->. by apply String.eqb_neq in Hne as ->.
  - by rewrite IH.
Qed.

Lemma dict_get_remove_eq d k :
  NoDup d.*1 -> dict_get (dict_remove d k) k = None.
Proof.
  induction d as [|[k0 v0] d IH]; [done|]. csimpl. intros Hnd.
  apply NoDup_cons in Hnd as [Hk0 Hnd].
  destruct (String.eqb k0 k) eqn:E; cbn.
  - apply String.eqb_eq in E as ->. by apply dict_get_None.
  - rewrite E. by apply IH.
Qed.

Lemma dict_remove_keys_sublist d k : (dict_remove d k).*1 `sublist_of` d.*1.
Proof.
  induction d as [|[k0 v0] d IH]; [done|]. csimpl.
  destruct (String.eqb k0 k); csimpl; [by apply sublist_cons|by apply sublist_skip].
Qed.

Lemma dict_remove_NoDup d k : NoDup d.*1 -> NoDup (dict_remove d k).*1.
Proof. intros H. eapply sublist_NoDup; [exact H|apply dict_remove_keys_sublist]. Qed.

Lemma dict_del_Some d k v :
  dict_get d k = Some v -> dict_del d k = Ok (dict_remove d k).
Proof. intros H. unfold dict_del, dict_mem. by rewrite H. Qed.
End Remove.

Lemma rebind_all_out m all_sid a sid :
  sid ∉ all_sid -> dict_get (rebind_all m all_sid a) sid = dict_get m sid.
Proof.
  revert m. induction all_sid as [|x l IH]; intros m Hin; [done|].
  apply not_elem_of_cons in Hin as [Hne Hin]. cbn. rewrite IH by done.
  by apply dict_get_set_ne.
Qed.

Lemma rebind_all_in m all_sid a sid :
  sid ∈ all_sid -> dict_get (rebind_all m all_sid a) sid = Some a.
Proof.
  revert m. induction all_sid as [|x l IH]; intros m Hin.
  - by apply elem_of_nil in Hin.
  - cbn. destruct (decide (sid ∈ l)) as [Hl|Hl]; [by apply IH|].
    apply elem_of_cons in Hin as [->|Hin]; [|done].
    rewrite rebind_all_out by done. apply dict_get_set_eq.
Qed.

Lemma split_go_nonempty sep skip cur s : split_go sep skip cur s <> [].
Proof.
  revert skip cur. induction s as [|c s IH]; intros skip cur; [done|].
  cbn [split_go]. destruct skip; [|apply IH].
  destruct (String.prefix sep (String c s)); [done|apply IH].
Qed.

(** Looking up the name at the merge level never fails: [split] yields at
    least one name, and the level [-1] of an all-empty path reads the last
    entry. *)
Lemma merge_name_found rank_id :
  exists name,
    getitem (split_rank_uid rank_id 0)
      (lowest_assigned_rank_level (split_rank_uid rank_id 0)) = Ok name.
Proof.
  set (l := split_rank_uid rank_id 0).
  assert (Hl : 0 < length l).
  { unfold l, split_rank_uid, split. cbn [Nat.ltb Nat.leb].
    destruct (split_go _ _ _ _) eqn:E; [by apply split_go_nonempty in E|].
    cbn. lia. }
  pose proof (RankUid.lowest_from_bounds l (length l)) as Hb.
  fold (lowest_assigned_rank_level l) in Hb.
  set (k := lowest_assigned_rank_level l) in *.
  unfold getitem. destruct (k <? 0)%Z eqn:Ek.
  - apply Z.ltb_lt in Ek. replace k with (-1)%Z by lia.
    replace (-1 + Z.of_nat (length l) <? 0)%Z with false
      by (symmetry; apply Z.ltb_ge; lia).
    destruct (l !! Z.to_nat (-1 + Z.of_nat (length l))) eqn:E; [by eexists|].
    apply lookup_ge_None in E. lia.
  - rewrite Ek. destruct (l !! Z.to_nat k) eqn:E; [by eexists|].
    apply lookup_ge_None in E. apply Z.ltb_ge in Ek. lia.
Qed.

(** Fewer than two keys: nothing changes and no key is returned. *)
Lemma merge_ranks_noop (self : state) (rank_ids : list string) (name_prefix : string) :
  length rank_ids < 2 -> merge_ranks self rank_ids name_prefix = Ok (self, None).
Proof.
  intros H. unfold merge_ranks. apply Nat.ltb_lt in H. by rewrite H.
Qed.

Lemma merge_ranks_pair (self : state) (k1 k2 name_prefix : string)
    (g1 g2 : list string) :
  index_wf self = true ->
  k1 <> k2 ->
  dict_get (rank_seqs_map self) k1 = Some g1 ->
  dict_get (rank_seqs_map self) k2 = Some g2 ->
  exists self',
    merge_ranks self [k1; k2] name_prefix
    = Ok (self', Some (merged_key k1 name_prefix)) /\
    dict_get (rank_seqs_map self') (merged_key k1 name_prefix) = Some (g1 ++ g2) /\
    length (g1 ++ g2) = length g1 + length g2 /\
    (merged_key k1 name_prefix <> k1 ->
     dict_get (rank_seqs_map self') k1 = None) /\
    (merged_key k1 name_prefix <> k2 ->
     dict_get (rank_seqs_map self') k2 = None) /\
    (forall sid, sid ∈ g1 ++ g2 ->
       ranks_of self' sid = Some (merged_rank k1 name_prefix)) /\
    (forall sid, sid ∉ g1 ++ g2 ->
       dict_get (seq_ranks_map self') sid = dict_get (seq_ranks_map self) sid) /\
    objs self' = objs self ++ [merged_rank k1 name_prefix].
Proof.
  intros Hwf Hne Hg1 Hg2.
  apply bool_decide_eq_true in Hwf.
  unfold merge_ranks. cbn [length Nat.ltb Nat.leb collect_groups].
  rewrite Hg1. rewrite (dict_del_Some _ _ _ Hg1). cbn [mbind result_bind bind].
  rewrite dict_get_remove_ne by done. rewrite Hg2.
  assert (Hg2' : dict_get (dict_remove (rank_seqs_map self) k1) k2 = Some g2)
    by (by rewrite dict_get_remove_ne).
  rewrite (dict_del_Some _ _ _ Hg2'). cbn [mbind result_bind bind mret result_ret].
  cbn [from_option id app getitem].
  change (getitem [k1; k2] 0) with (Ok k1).
  cbn [mbind result_bind bind mret result_ret].
  unfold merged_key, merged_rank in *.
  destruct (merge_name_found k1) as [name Hname]. rewrite Hname in *.
  cbn [mbind result_bind bind mret result_ret]. eexists.
  split; [reflexivity|]. cbn [rank_seqs_map seq_ranks_map objs].
  split; [apply dict_get_set_eq|]. split; [apply length_app|].
  split; [|split; [|split; [|split; [|done]]]].
  - intros Hn1. rewrite dict_get_set_ne by done.
    rewrite dict_get_remove_ne by done. by apply dict_get_remove_eq.
  - intros Hn2. rewrite dict_get_set_ne by done. apply dict_get_remove_eq.
    by apply dict_remove_NoDup.
  - intros sid Hin. unfold ranks_of. cbn [seq_ranks_map objs].
    rewrite rebind_all_in by done. cbn. by rewrite list_lookup_middle.
  - intros sid Hout. by apply rebind_all_out.
Qed.

(** C6, as the code has it. With fewer than two keys [merge_ranks] changes
    nothing and returns no key. Merging two distinct keys of the reverse
    index whose groups are [g1] and [g2] returns the merged key, which is the
    uid of the first key's path with [name_prefix] put in front of the name
    at its lowest assigned level; the reverse index then maps the merged key
    to [g1 ++ g2], of size [a + b]; every merged sequence is bound to the
    merged path and the other sequences keep their binding. Each of the two
    keys is gone from the reverse index unless it is the merged key
    itself. *)
Theorem merge_ranks_spec (self : state) (name_prefix : string) :
  (forall rank_ids,
     length rank_ids < 2 ->
     merge_ranks self rank_ids name_prefix = Ok (self, None)) /\
  (forall k1 k2 g1 g2,
     index_wf self = true ->
     k1 <> k2 ->
     dict_get (rank_seqs_map self) k1 = Some g1 ->
     dict_get (rank_seqs_map self) k2 = Some g2 ->
     exists self',
       merge_ranks self [k1; k2] name_prefix
       = Ok (self', Some (merged_key k1 name_prefix)) /\
       dict_get (rank_seqs_map self') (merged_key k1 name_prefix)
       = Some (g1 ++ g2) /\
       length (g1 ++ g2) = length g1 + length g2 /\
       (merged_key k1 name_prefix <> k1 ->
        dict_get (rank_seqs_map self') k1 = None) /\
       (merged_key k1 name_prefix <> k2 ->
        dict_get (rank_seqs_map self') k2 = None) /\
       (forall sid, sid ∈ g1 ++ g2 ->
          ranks_of self' sid = Some (merged_rank k1 name_prefix)) /\
       (forall sid, sid ∉ g1 ++ g2 ->
          dict_get (seq_ranks_map self') sid
          = dict_get (seq_ranks_map self) sid)).
Proof.
  split; [intros rank_ids Hlen; by apply merge_ranks_noop|].
  intros k1 k2 g1 g2 Hwf Hne Hg1 Hg2.
  destruct (merge_ranks_pair self k1 k2 name_prefix g1 g2 Hwf Hne Hg1 Hg2)
    as (self' & H1 & H2 & H3 & H4 & H5 & H6 & H7 & _).
  exists self'. repeat split; assumption.
Qed.

Lemma merge_ranks_spec_witness :
  exists self',
    merge_ranks two_groups ["A@@B"; "A@@C"] DEFAULT_NAME_PREFIX
    = Ok (self', Some "A@@__TAXCLUSTER__B") /\
    dict_get (rank_seqs_map self') "A@@__TAXCLUSTER__B" = Some ["a"; "b"] /\
    dict_get (rank_seqs_map self') "A@@B" = None /\
    dict_get (rank_seqs_map self') "A@@C" = None /\
    ranks_of self' "a" = Some ["A"; "__TAXCLUSTER__B"] /\
    ranks_of self' "b" = Some ["A"; "__TAXCLUSTER__B"].
Proof.
  destruct (proj2 (merge_ranks_spec two_groups DEFAULT_NAME_PREFIX)
              "A@@B" "A@@C" ["a"] ["b"])
    as (self' & Hrun & Hnew & _ & Hk1 & Hk2 & Hin & _);
    [reflexivity|discriminate|reflexivity|reflexivity|].
  exists self'. split; [exact Hrun|]. split; [exact Hnew|].
  split; [apply Hk1; discriminate|]. split; [apply Hk2; discriminate|].
  split; apply Hin; cbn [app]; repeat constructor.
Defined.

(** C6 as stated fails with the empty name prefix: the merged key is the
    first key itself, which therefore remains a key of the reverse index. *)
Lemma merge_ranks_empty_prefix :
  exists self',
    merge_ranks two_groups ["A@@B"; "A@@C"] "" = Ok (self', Some "A@@B") /\
    dict_get (rank_seqs_map self') "A@@B" = Some ["a"; "b"].
Proof. eexists. by vm_compute. Qed.

End Merge.

(** ** [guess_rank_level] *)

Module RankLevel.

Import TaxCode Spec.

Lemma tables_wf :
  table_wf BAC_TAX_CODE = true /\ table_wf BOT_TAX_CODE = true /\
  table_wf ZOO_TAX_CODE = true /\ table_wf VIR_TAX_CODE = true.
Proof. by vm_compute. Qed.

(** The bacterial and the botanical table have tuples throughout. *)
Lemma exact_sets_ok_bac_bot rank_name :
  exact_sets_ok BAC_TAX_CODE rank_name = true /\
  exact_sets_ok BOT_TAX_CODE rank_name = true.
Proof. by vm_compute. Qed.

Lemma py_endswith_set rank_name suffix :
  py_endswith rank_name suffix = existsb (endswith rank_name) (as_set suffix).
Proof. destruct suffix as [l|s]; cbn; [done|]. by rewrite orb_false_r. Qed.

Lemma match_level_first tax_code rank_name :
  exact_sets_ok tax_code rank_name = true ->
  match_level tax_code rank_name = first_match tax_code rank_name.
Proof.
  unfold first_match. induction tax_code as [|[lvl [suffix exact]] code IH]; [done|].
  cbn [exact_sets_ok forallb]. intros H. apply andb_true_iff in H as [He H].
  cbn [match_level]. rewrite filter_cons. cbn [snd fst] in *.
  assert (Hm : py_endswith rank_name suffix || py_in rank_name exact
               = level_matches rank_name (suffix, exact)).
  { unfold level_matches. cbn [fst snd]. rewrite py_endswith_set. f_equal.
    destruct exact as [l|s]; cbn; [done|].
    apply eqb_prop in He. rewrite He. by rewrite orb_false_r. }
  rewrite Hm. destruct (level_matches rank_name (suffix, exact)).
  - by rewrite decide_True.
  - rewrite decide_False by done. by apply IH.
Qed.

Lemma first_match_in tax_code rank_name :
  first_match tax_code rank_name = 0 \/ first_match tax_code rank_name ∈ tax_code.*1.
Proof.
  unfold first_match.
  destruct (head (filter _ tax_code)) as [e|] eqn:E; [|by left].
  right. apply head_Some_elem_of in E. apply list_elem_of_filter in E as [_ E].
  cbn. apply list_elem_of_fmap. by exists e.
Qed.

Lemma next_std_filter levels :
  next_std levels = default 0 (head (filter (fun lvl => lvl ∈ STD_RANKS) levels)).
Proof.
  induction levels as [|lvl levels IH]; [done|]. cbn [next_std].
  rewrite filter_cons. destruct (decide (lvl ∈ STD_RANKS)) as [H|H].
  - by rewrite bool_decide_eq_true_2.
  - by rewrite bool_decide_eq_false_2.
Qed.

Lemma filter_all {A} (P : A -> Prop) `{!forall x, Decision (P x)} (l : list A) :
  Forall P l -> filter P l = l.
Proof.
  induction 1 as [|x l Hx Hl IH]; [done|].
  rewrite filter_cons, decide_True by done. by rewrite IH.
Qed.

Lemma index_of_sorted (levels : list nat) (x : nat) :
  StronglySorted lt levels -> x ∈ levels ->
  exists idx, index_of levels x = Ok idx /\
              drop (idx + 1) levels = filter (fun lvl => x < lvl) levels.
Proof.
  induction 1 as [|y levels Hs IH Hall]; intros Hin.
  - by apply elem_of_nil in Hin.
  - cbn [index_of]. rewrite filter_cons. destruct (y =? x) eqn:E.
    + apply Nat.eqb_eq in E as ->. exists 0. split; [done|].
      rewrite decide_False by lia. cbn. symmetry. by apply filter_all.
    + apply Nat.eqb_neq in E. apply elem_of_cons in Hin as [->|Hin]; [done|].
      destruct (IH Hin) as (idx & Hidx & Hdrop). exists (S idx).
      rewrite Hidx. split; [done|].
      rewrite Forall_forall in Hall. specialize (Hall _ Hin).
      rewrite decide_False by lia. exact Hdrop.
Qed.

Lemma next_std_backbone tax_code parent_level idx :
  drop (idx + 1) tax_code.*1 = filter (fun lvl => parent_level < lvl) tax_code.*1 ->
  next_std (drop (idx + 1) tax_code.*1) = next_backbone tax_code parent_level.
Proof.
  intros ->. rewrite next_std_filter. unfold next_backbone.
  by rewrite list_filter_filter.
Qed.

Lemma next_backbone_in tax_code parent_level :
  next_backbone tax_code parent_level = 0
  \/ next_backbone tax_code parent_level ∈ tax_code.*1.
Proof.
  unfold next_backbone.
  destruct (head (filter _ _)) as [l|] eqn:E; [|by left].
  right. apply head_Some_elem_of in E. by apply list_elem_of_filter in E as [_ E].
Qed.

(** Under sortedness the head of the filtered levels is the least
    candidate: [next_backbone] is the smallest backbone level of the table
    above the parent level. *)
Lemma next_backbone_least tax_code parent_level lvl :
  StronglySorted lt tax_code.*1 ->
  lvl ∈ tax_code.*1 -> lvl ∈ STD_RANKS -> parent_level < lvl ->
  next_backbone tax_code parent_level ∈ STD_RANKS /\
  parent_level < next_backbone tax_code parent_level <= lvl.
Proof.
  unfold next_backbone. generalize (tax_code.*1). clear tax_code.
  intros levels. induction 1 as [|y levels Hs IH Hall]; intros Hin Hstd Hlt.
  - by apply elem_of_nil in Hin.
  - rewrite filter_cons. rewrite Forall_forall in Hall.
    destruct (decide (y ∈ STD_RANKS /\ parent_level < y)) as [[H1 H2]|Hn].
    + cbn. split; [done|]. split; [done|].
      apply elem_of_cons in Hin as [->|Hin]; [done|]. specialize (Hall _ Hin). lia.
    + apply elem_of_cons in Hin as [->|Hin]; [by destruct Hn|]. by apply IH.
Qed.

Lemma getitem_nat {A} (l : list A) (i : nat) (x : A) :
  l !! i = Some x -> getitem l (Z.of_nat i) = Ok x.
Proof.
  intros H. unfold getitem.
  assert (E : (Z.of_nat i <? 0)%Z = false) by (apply Z.ltb_ge; lia).
  rewrite !E, Nat2Z.id. by rewrite H.
Qed.

Lemma guess_rank_level_refines tax_code ranks rank_level :
  table_wf tax_code = true ->
  rank_level < length ranks ->
  (forall i name, i <= rank_level -> ranks !! i = Some name ->
     exact_sets_ok tax_code (normalize name) = true) ->
  exists lvl,
    guess_rank_level tax_code ranks rank_level = Ok lvl /\
    spec_guess_rank_level tax_code ranks rank_level = Some lvl /\
    (lvl = 0 \/ lvl ∈ tax_code.*1).
Proof.
  intros Hwf. unfold table_wf in Hwf.
  apply andb_true_iff in Hwf as [Hwf H1]. apply andb_true_iff in Hwf as [Hs H0].
  apply bool_decide_eq_true in Hs, H0, H1.
  induction rank_level as [|parent IH]; intros Hlen Hok.
  - destruct (lookup_lt_is_Some_2 ranks 0 Hlen) as [name Hname].
    cbn [guess_rank_level spec_guess_rank_level].
    rewrite (getitem_nat _ _ _ Hname), Hname.
    cbn [mbind result_bind bind option_bind].
    rewrite (match_level_first _ _ (Hok 0 name (le_n _) Hname)).
    destruct (first_match_in tax_code (normalize name)) as [Hz|Hin].
    + rewrite Hz. cbn. exists 1. by repeat split; [..|right].
    + destruct (first_match tax_code (normalize name) =? 0) eqn:E.
      * apply Nat.eqb_eq in E. rewrite E in Hin. done.
      * eexists. by repeat split; [..|right].
  - destruct (lookup_lt_is_Some_2 ranks (S parent) Hlen) as [name Hname].
    destruct IH as (plvl & Hp & Hps & Hpin); [lia|intros i n Hi; apply Hok; lia|].
    cbn [guess_rank_level spec_guess_rank_level].
    rewrite (getitem_nat _ _ _ Hname), Hname.
    cbn [mbind result_bind bind option_bind].
    rewrite (match_level_first _ _ (Hok (S parent) name (le_n _) Hname)).
    destruct (first_match_in tax_code (normalize name)) as [Hz|Hin].
    + rewrite Hz. cbn [Nat.eqb]. rewrite Hp, Hps.
      cbn [mbind mret result_bind result_ret bind option_bind].
      destruct (plvl =? 0) eqn:E.
      * exists 0. by repeat split; [..|left].
      * apply Nat.eqb_neq in E. destruct Hpin as [?|Hpin]; [done|].
        destruct (index_of_sorted _ _ Hs Hpin) as (idx & Hidx & Hdrop).
        rewrite Hidx. cbn [mbind mret result_bind result_ret bind].
        rewrite (next_std_backbone _ _ _ Hdrop).
        eexists. repeat split. apply next_backbone_in.
    + destruct (first_match tax_code (normalize name) =? 0) eqn:E.
      * apply Nat.eqb_eq in E. rewrite E in Hin. done.
      * eexists. by repeat split; [..|right].
Qed.
(** C7, as the code has it. For a position inside the rank list, and names
    on which the exact-match components act as sets, [guess_rank_level]
    returns what the specification describes: the first level in ascending
    order whose suffixes or exact names match the normalised name; when no
    level matches, [1] at position [0], [0] when the parent level resolves to
    [0], and otherwise the smallest standard-backbone level of the table
    strictly above the parent level ([0] if there is none). *)
Theorem guess_rank_level_spec (tax_code : list (nat * entry))
    (ranks : list string) (rank_level : nat) :
  table_wf tax_code = true ->
  rank_level < length ranks ->
  (forall i name, i <= rank_level -> ranks !! i = Some name ->
     exact_sets_ok tax_code (normalize name) = true) ->
  exists lvl,
    guess_rank_level tax_code ranks rank_level = Ok lvl /\
    spec_guess_rank_level tax_code ranks rank_level = Some lvl.
Proof.
  intros Hwf Hlen Hok.
  destruct (guess_rank_level_refines tax_code ranks rank_level Hwf Hlen Hok)
    as (lvl & Hcode & Hspec & _).
  by exists lvl.
Qed.

Lemma guess_rank_level_spec_witness :
  table_wf VIR_TAX_CODE = true /\
  exists lvl,
    guess_rank_level VIR_TAX_CODE ["Viruses"; "Foo"] 1 = Ok lvl /\
    spec_guess_rank_level VIR_TAX_CODE ["Viruses"; "Foo"] 1 = Some lvl.
Proof.
  split; [reflexivity|].
  apply (guess_rank_level_spec VIR_TAX_CODE ["Viruses"; "Foo"] 1);
    [reflexivity|cbn; lia|].
  intros [|[|i]] name Hi Hname; [| |lia]; injection Hname as <-; reflexivity.
Defined.

(** C7 as stated fails on the viral table, which has no phylum: the name
    [Foo] matches no level, its parent resolves to kingdom [1], the smallest
    standard-backbone level above [1] is phylum [2], and the code returns
    class [4], the next backbone level that the table has. *)
Lemma guess_rank_level_vir_no_phylum :
  first_match VIR_TAX_CODE (normalize "Foo") = 0 /\
  guess_rank_level VIR_TAX_CODE ["Viruses"; "Foo"] 0 = Ok 1 /\
  next_backbone_any 1 = 2 /\
  guess_rank_level VIR_TAX_CODE ["Viruses"; "Foo"] 1 = Ok 4.
Proof. by vm_compute. Qed.

(** The kingdom entries of the zoological and the viral table are bare
    strings, so that [in] is a substring test there: the empty-rank marker,
    normalised to the empty string, is guessed to be a kingdom. *)
Remark guess_rank_level_zoo_substring :
  guess_rank_level ZOO_TAX_CODE ["Animalia"; "Chordata"; "-"] 2 = Ok 1 /\
  spec_guess_rank_level ZOO_TAX_CODE ["Animalia"; "Chordata"; "-"] 2 = Some 4.
Proof. by vm_compute. Qed.

End RankLevel.

(** ** The scan of [check_for_duplicates] and the empty-rank marker *)

Module DupScan.

Import Taxonomy Spec Examples.

Lemma deref_insert_other (o : list (list string)) (x b : nat) (l : list string) :
  x <> b -> deref (<[x := l]> o) b = deref o b.
Proof. intros H. unfold deref. by rewrite list_lookup_insert_ne. Qed.

Lemma setitem_other (l l' : list string) (i : nat) (v : string) (j : nat) :
  setitem l (Z.of_nat i) v = Ok l' -> j <> i -> l' !! j = l !! j.
Proof.
  unfold setitem.
  assert (E : (Z.of_nat i <? 0)%Z = false) by (apply Z.ltb_ge; lia).
  rewrite !E. cbn [orb]. destruct (_ <=? _)%Z; [done|].
  intros [= <-] Hne. rewrite Nat2Z.id. by rewrite list_lookup_insert_ne.
Qed.

(** Writing position [i] of the list at address [x] leaves every other
    position of every list as it was. *)
Lemma write_frame (o : list (list string)) (x i : nat) (v : string)
    (l' : list string) (b j : nat) :
  setitem (deref o x) (Z.of_nat i) v = Ok l' -> j <> i ->
  deref (<[x := l']> o) b !! j = deref o b !! j.
Proof.
  intros Hset Hne. destruct (decide (x = b)) as [->|Hx].
  - unfold deref at 1. destruct (decide (b < length o)) as [Hb|Hb].
    + rewrite list_lookup_insert_eq by done. cbn.
      by eapply setitem_other.
    + by rewrite list_insert_ge by lia.
  - by rewrite deref_insert_other.
Qed.

(** A step at position [i], in either mode, changes no other position. *)
Lemma dup_step_frame self autofix sid a i st st' b j :
  dup_step self autofix sid a i st = Ok (Some st') -> j <> i ->
  deref (d_objs st') b !! j = deref (d_objs st) b !! j.
Proof.
  intros Hstep Hne. unfold dup_step in Hstep.
  destruct (deref (d_objs st) a !! i) as [ranks_i|]; [|done].
  destruct (String.eqb ranks_i EMPTY_RANK); [done|].
  destruct (getitem _ _) as [parent|]; [|done].
  cbn [mbind result_bind bind] in Hstep.
  destruct (dict_get (parent_map st) ranks_i) as [old_sid|];
    [|by injection Hstep as <-].
  destruct (get_seq_ranks self old_sid) as [oa|]; [|done].
  cbn [mbind result_bind bind] in Hstep.
  destruct (getitem _ _) as [old_parent|]; [|done].
  cbn [mbind result_bind bind] in Hstep.
  destruct (negb (String.eqb old_parent parent)); [|by injection Hstep as <-].
  destruct autofix; [|by injection Hstep as <-].
  destruct (if negb (dict_mem (old_fixed st) old_sid) then _ else _)
    as [fixmap rkmap].
  destruct (dict_get rkmap old_sid) as [fixed|]; [|done].
  cbn [mbind result_bind bind] in Hstep.
  destruct (negb (bool_decide (i ∈ fixed))).
  - destruct (dict_get (seq_ranks_map self) old_sid) as [da|]; [|done].
    cbn [mbind result_bind bind] in Hstep.
    destruct (getitem (deref (d_objs st) da) (Z.of_nat i)) as [x|]; [|done].
    cbn [mbind result_bind bind] in Hstep.
    destruct (getitem (deref (d_objs st) da) (Z.of_nat i - 1)) as [y|]; [|done].
    cbn [mbind result_bind bind] in Hstep.
    destruct (setitem (deref (d_objs st) da) _ _) as [l|] eqn:Hl; [|done].
    cbn [mbind mret result_ret result_bind bind] in Hstep.
    destruct (dict_get (seq_ranks_map self) sid) as [sa|]; [|done].
    cbn [mbind result_bind bind] in Hstep.
    destruct (getitem _ _) as [cur|]; [|done].
    cbn [mbind result_bind bind] in Hstep.
    destruct (setitem (deref (<[da:=l]> (d_objs st)) sa) _ _) as [l2|] eqn:Hl2;
      [|done].
    cbn [mbind mret result_ret result_bind bind] in Hstep.
    injection Hstep as <-. cbn [d_objs].
    rewrite (write_frame _ _ _ _ _ _ _ Hl2 Hne).
    by rewrite (write_frame _ _ _ _ _ _ _ Hl Hne).
  - cbn [mbind mret result_ret result_bind bind] in Hstep.
    destruct (dict_get (seq_ranks_map self) sid) as [sa|]; [|done].
    cbn [mbind result_bind bind] in Hstep.
    destruct (getitem _ _) as [cur|]; [|done].
    cbn [mbind result_bind bind] in Hstep.
    destruct (setitem (deref (d_objs st) sa) _ _) as [l2|] eqn:Hl2; [|done].
    cbn [mbind mret result_ret result_bind bind] in Hstep.
    injection Hstep as <-. cbn [d_objs].
    by rewrite (write_frame _ _ _ _ _ _ _ Hl2 Hne).
Qed.




End DupScan.

(** ** [TaxTreeBuilder.build] *)

Module Build.

Import Taxonomy TaxTreeBuilder Spec Examples DictFacts.

Ltac py_simpl :=
  cbn [mbind mret result_bind result_ret bind option_bind].
Ltac py_simpl_in H :=
  cbn [mbind mret result_bind result_ret bind option_bind] in H.



(** The [while] loop of [build] from the last position finds the lowest
    assigned level. *)
Lemma skip_empty_from_lowest ranks n :
  n <= length ranks ->
  skip_empty_from ranks (length ranks + n)
  = if (0 <=? lowest_from ranks n)%Z then Ok (lowest_from ranks n)
    else skip_empty_from ranks (length ranks).
Proof.
  induction n as [|n IH]; intros Hn.
  - by rewrite Nat.add_0_r.
  - rewrite Nat.add_succ_r. cbn [skip_empty_from lowest_from].
    replace (Z.of_nat (length ranks + n) - Z.of_nat (length ranks))%Z
      with (Z.of_nat n) by lia.
    destruct (lookup_lt_is_Some_2 ranks n ltac:(lia)) as [r Hr].
    rewrite (RankLevel.getitem_nat _ _ _ Hr), Hr. py_simpl.
    destruct (String.eqb r EMPTY_RANK); [apply IH; lia|].
    by replace (0 <=? Z.of_nat n)%Z with true by (symmetry; apply Z.leb_le; lia).
Qed.

Lemma skip_empty_last ranks :
  (0 <= lowest_assigned_rank_level ranks)%Z ->
  skip_empty ranks (Z.of_nat (length ranks) - 1)
  = Ok (lowest_assigned_rank_level ranks).
Proof.
  intros H. unfold skip_empty.
  replace (Z.of_nat (length ranks) <=? Z.of_nat (length ranks) - 1)%Z
    with false by (symmetry; apply Z.leb_gt; lia).
  replace (Z.to_nat (Z.of_nat (length ranks) - 1 + Z.of_nat (length ranks) + 1))
    with (length ranks + length ranks) by lia.
  rewrite skip_empty_from_lowest by done.
  unfold lowest_assigned_rank_level in H. apply Z.leb_le in H. by rewrite H.
Qed.

Lemma lowest_from_all_empty ranks n :
  (lowest_from ranks n < 0)%Z ->
  forall j r, j < n -> ranks !! j = Some r -> r = EMPTY_RANK.
Proof.
  induction n as [|n IH]; intros H j r Hj Hr; [lia|].
  cbn [lowest_from] in H. destruct (ranks !! n) as [r'|] eqn:En; [|lia].
  destruct (String.eqb r' EMPTY_RANK) eqn:E; [|lia].
  destruct (decide (j = n)) as [->|Hne].
  - rewrite En in Hr. injection Hr as <-. by apply String.eqb_eq.
  - apply (IH H j); [lia|done].
Qed.

Lemma getitem_Some {A} (l : list A) (i : Z) (x : A) :
  getitem l i = Ok x -> exists j, j < length l /\ l !! j = Some x.
Proof.
  unfold getitem. destruct (_ <? 0)%Z; [done|].
  destruct (l !! _) as [y|] eqn:E; [|done]. intros [= <-].
  eexists. split; [|exact E]. by eapply lookup_lt_Some.
Qed.

(** A path with an assigned entry somewhere has a lowest assigned level. *)
Lemma assigned_lowest ranks i r :
  getitem ranks i = Ok r -> String.eqb r EMPTY_RANK = false ->
  (0 <= lowest_assigned_rank_level ranks)%Z.
Proof.
  intros Hget Hr. apply getitem_Some in Hget as (j & Hj & Hjr).
  destruct (Z.lt_ge_cases (lowest_assigned_rank_level ranks) 0) as [Hlt|]; [|lia].
  pose proof (lowest_from_all_empty ranks (length ranks) Hlt j r Hj Hjr) as ->.
  by rewrite String.eqb_refl in Hr.
Qed.

Lemma lowest_from_assigned ranks n :
  n <= length ranks ->
  (0 <= lowest_from ranks n)%Z ->
  exists r, ranks !! Z.to_nat (lowest_from ranks n) = Some r /\
            String.eqb r EMPTY_RANK = false.
Proof.
  induction n as [|n IH]; cbn [lowest_from]; intros Hn; [lia|].
  destruct (lookup_lt_is_Some_2 ranks n ltac:(lia)) as [r Hr]. rewrite Hr.
  destruct (String.eqb r EMPTY_RANK) eqn:E; [apply IH; lia|].
  intros _. rewrite Nat2Z.id. by exists r.
Qed.


Lemma dict_mem_set {V} (d : list (string * V)) k v k' :
  dict_mem (dict_set d k v) k' = true <-> k = k' \/ dict_mem d k' = true.
Proof.
  unfold dict_mem. destruct (decide (k = k')) as [->|Hne].
  - rewrite dict_get_set_eq. by split; [left|].
  - rewrite dict_get_set_ne by done. split; [by right|]. by intros [?|?].
Qed.

(** What [add_tree_node] leaves alone and what it memoises. *)
Lemma add_tree_node_facts depth b nodeId ranks rank_level b' n :
  add_tree_node depth b nodeId ranks rank_level = Ok (b', n) ->
  leaf_count b' = leaf_count b /\ seq_ids b' = seq_ids b /\
  (forall k, dict_mem (tree_nodes b) k = true -> dict_mem (tree_nodes b') k = true) /\
  (forall pl, (0 <= rank_level)%Z -> skip_empty ranks rank_level = Ok pl ->
     dict_mem (tree_nodes b') (get_rank_uid ranks pl) = true) /\
  (exists extra, nodes b' = nodes b ++ extra).
Proof.
  revert b nodeId rank_level b' n.
  induction depth as [|depth IH]; intros b nodeId rank_level b' n Hrun;
    cbn [add_tree_node] in Hrun.
  - destruct (0 <=? rank_level)%Z eqn:Elvl.
    + destruct (skip_empty ranks rank_level) as [pl0|] eqn:Eskip; [|done].
      py_simpl_in Hrun.
      destruct (dict_get (tree_nodes b) (get_rank_uid ranks pl0)) as [pn|] eqn:Eget;
        [|done].
      py_simpl_in Hrun. injection Hrun as <- <-. cbn.
      repeat split; try done.
      * intros pl _ [= <-]. unfold dict_mem. by rewrite Eget.
      * by eexists.
    + py_simpl_in Hrun.
      destruct (dict_get (tree_nodes b) ROOT_LABEL) as [pn|] eqn:Eget; [|done].
      py_simpl_in Hrun. injection Hrun as <- <-. cbn.
      repeat split; try done.
      * intros pl Hpl. apply Z.leb_gt in Elvl. lia.
      * by eexists.
  - destruct (0 <=? rank_level)%Z eqn:Elvl.
    + destruct (skip_empty ranks rank_level) as [pl0|] eqn:Eskip; [|done].
      py_simpl_in Hrun.
      destruct (dict_get (tree_nodes b) (get_rank_uid ranks pl0)) as [pn|] eqn:Eget.
      * py_simpl_in Hrun. injection Hrun as <- <-. cbn.
        repeat split; try done.
        -- intros pl _ [= <-]. unfold dict_mem. by rewrite Eget.
        -- by eexists.
      * destruct (add_tree_node depth b _ ranks (pl0 - 1)) as [[b1 n1]|] eqn:Erec;
          [|done].
        py_simpl_in Hrun. injection Hrun as <- <-. cbn.
        destruct (IH _ _ _ _ _ Erec) as (Hlc & Hids & Hmono & _ & [extra Hnodes]).
        repeat split; try done.
        -- intros k Hk. apply dict_mem_set. right. by apply Hmono.
        -- intros pl _ [= <-]. apply dict_mem_set. by left.
        -- exists (extra ++ [(nodeId, Some n1)]). by rewrite Hnodes, app_assoc.
    + py_simpl_in Hrun.
      destruct (dict_get (tree_nodes b) ROOT_LABEL) as [pn|] eqn:Eget.
      * py_simpl_in Hrun. injection Hrun as <- <-. cbn.
        repeat split; try done.
        -- intros pl Hpl. apply Z.leb_gt in Elvl. lia.
        -- by eexists.
      * destruct (add_tree_node depth b _ ranks (-1 - 1)) as [[b1 n1]|] eqn:Erec;
          [|done].
        py_simpl_in Hrun. injection Hrun as <- <-. cbn.
        destruct (IH _ _ _ _ _ Erec) as (Hlc & Hids & Hmono & _ & [extra Hnodes]).
        repeat split; try done.
        -- intros k Hk. apply dict_mem_set. right. by apply Hmono.
        -- intros pl Hpl. apply Z.leb_gt in Elvl. lia.
        -- exists (extra ++ [(nodeId, Some n1)]). by rewrite Hnodes, app_assoc.
Qed.










(** *** [build] returns *)

Lemma getitem_in_range ranks lvl :
  level_in_range ranks lvl = true ->
  exists r, getitem ranks lvl = Ok r.
Proof.
  unfold level_in_range, getitem. intros H. apply andb_true_iff in H as [H1 H2].
  apply Z.leb_le in H1. apply Z.ltb_lt in H2.
  destruct (lvl <? 0)%Z eqn:E.
  - apply Z.ltb_lt in E.
    replace (lvl + Z.of_nat (length ranks) <? 0)%Z with false
      by (symmetry; apply Z.ltb_ge; lia).
    destruct (ranks !! _) eqn:El; [by eexists|]. apply lookup_ge_None in El. lia.
  - rewrite E. destruct (ranks !! _) eqn:El; [by eexists|].
    apply lookup_ge_None in El. apply Z.ltb_ge in E. lia.
Qed.

Lemma any_clade_in_range ranks clades :
  forallb (fun c => level_in_range ranks c.1) clades = true ->
  exists b, any_clade ranks clades = Ok b.
Proof.
  induction clades as [|[lvl name] clades IH]; cbn [forallb any_clade fst].
  - by eexists.
  - intros H. apply andb_true_iff in H as [H1 H2].
    destruct (getitem_in_range _ _ H1) as [r ->]. py_simpl.
    destruct (String.eqb r name); [by eexists|by apply IH].
Qed.

(** The entry at an index counted from either end. *)
Lemma getitem_wrap (ranks : list string) (m : nat) :
  m < 2 * length ranks ->
  getitem ranks (Z.of_nat m - Z.of_nat (length ranks))
  = match ranks !! (if m <? length ranks then m else m - length ranks) with
    | Some r => Ok r
    | None => Raise IndexError
    end.
Proof.
  intros Hm. unfold getitem. destruct (m <? length ranks) eqn:E.
  - apply Nat.ltb_lt in E.
    replace (Z.of_nat m - Z.of_nat (length ranks) <? 0)%Z with true
      by (symmetry; apply Z.ltb_lt; lia).
    replace (Z.of_nat m - Z.of_nat (length ranks) + Z.of_nat (length ranks))%Z
      with (Z.of_nat m) by lia.
    replace (Z.of_nat m <? 0)%Z with false by (symmetry; apply Z.ltb_ge; lia).
    by rewrite Nat2Z.id.
  - apply Nat.ltb_ge in E.
    assert (E' : (Z.of_nat m - Z.of_nat (length ranks) <? 0)%Z = false)
      by (apply Z.ltb_ge; lia).
    rewrite !E'.
    replace (Z.to_nat (Z.of_nat m - Z.of_nat (length ranks)))
      with (m - length ranks) by lia.
    reflexivity.
Qed.

(** With an assigned entry in the path the loop ends, at or before the
    level it starts from. *)
Lemma skip_empty_from_total (ranks : list string) (j0 : nat) r0 (m : nat) :
  ranks !! j0 = Some r0 -> String.eqb r0 EMPTY_RANK = false ->
  j0 < m <= 2 * length ranks ->
  exists idx, skip_empty_from ranks m = Ok idx /\
              (idx <= Z.of_nat m - 1 - Z.of_nat (length ranks))%Z.
Proof.
  intros Hj0 Hr0. pose proof (lookup_lt_Some _ _ _ Hj0) as Hlt.
  induction m as [|m IH]; intros Hm; [lia|].
  cbn [skip_empty_from]. rewrite getitem_wrap by lia.
  destruct (ranks !! (if m <? length ranks then m else m - length ranks))
    as [r|] eqn:Er.
  - py_simpl. destruct (String.eqb r EMPTY_RANK) eqn:E.
    + destruct (decide (m = j0)) as [->|Hne].
      * apply Nat.ltb_lt in Hlt. rewrite Hlt, Hj0 in Er.
        injection Er as <-. congruence.
      * destruct IH as (idx & Hidx & Hle); [lia|]. exists idx. split; [done|lia].
    + eexists. split; [done|lia].
  - apply lookup_ge_None in Er. destruct (m <? length ranks) eqn:E.
    + apply Nat.ltb_lt in E. lia.
    + apply Nat.ltb_ge in E. lia.
Qed.

Lemma skip_empty_total ranks rank_level :
  (0 <= lowest_assigned_rank_level ranks)%Z ->
  (0 <= rank_level < Z.of_nat (length ranks))%Z ->
  exists pl, skip_empty ranks rank_level = Ok pl /\ (pl <= rank_level)%Z.
Proof.
  intros Hlow Hlvl.
  destruct (lowest_from_assigned ranks (length ranks) (le_n _) Hlow)
    as (r0 & Hr0 & Hne).
  pose proof (lookup_lt_Some _ _ _ Hr0) as Hlt.
  unfold skip_empty.
  replace (Z.of_nat (length ranks) <=? rank_level)%Z with false
    by (symmetry; apply Z.leb_gt; lia).
  destruct (skip_empty_from_total ranks _ r0
              (Z.to_nat (rank_level + Z.of_nat (length ranks) + 1)) Hr0 Hne)
    as (idx & Hidx & Hle); [lia|].
  exists idx. split; [done|lia].
Qed.

(** The recursion of [add_tree_node] is at most [rank_level + 1] deep when
    the root is memoised. *)
Lemma add_tree_node_total depth b nodeId ranks rank_level :
  dict_mem (tree_nodes b) ROOT_LABEL = true ->
  (0 <= lowest_assigned_rank_level ranks)%Z ->
  (rank_level < Z.of_nat (length ranks))%Z ->
  (rank_level + 1 <= Z.of_nat depth)%Z ->
  exists r, add_tree_node depth b nodeId ranks rank_level = Ok r.
Proof.
  intros Hroot Hlow. revert b nodeId rank_level Hroot.
  induction depth as [|depth IH]; intros b nodeId rank_level Hroot Hlen Hdepth;
    cbn [add_tree_node].
  - replace (0 <=? rank_level)%Z with false by (symmetry; apply Z.leb_gt; lia).
    py_simpl. unfold dict_mem in Hroot.
    destruct (dict_get (tree_nodes b) ROOT_LABEL); [|done]. py_simpl. by eexists.
  - destruct (0 <=? rank_level)%Z eqn:Elvl.
    + apply Z.leb_le in Elvl.
      destruct (skip_empty_total ranks rank_level Hlow ltac:(lia)) as (pl & -> & Hpl).
      py_simpl. destruct (dict_get (tree_nodes b) _); py_simpl; [by eexists|].
      destruct (IH b (get_rank_uid ranks pl) (pl - 1)%Z Hroot) as [[b1 n1] ->];
        [lia..|].
      py_simpl. by eexists.
    + py_simpl. unfold dict_mem in Hroot.
      destruct (dict_get (tree_nodes b) ROOT_LABEL); [|done]. py_simpl. by eexists.
Qed.

Lemma build_step_total cfg b sid ranks :
  dict_mem (tree_nodes b) ROOT_LABEL = true ->
  config_in_range cfg ranks = true ->
  exists b', build_step cfg b (sid, ranks) = Ok b' /\
             dict_mem (tree_nodes b') ROOT_LABEL = true.
Proof.
  intros Hroot Hcfg. unfold config_in_range in Hcfg.
  apply andb_true_iff in Hcfg as [Hcfg Hign].
  apply andb_true_iff in Hcfg as [Hmin Hinc].
  unfold build_step.
  destruct (getitem_in_range _ _ Hmin) as [r Hr]. rewrite Hr. py_simpl.
  destruct (String.eqb r EMPTY_RANK) eqn:Er; [by eexists|].
  assert (Hok : exists ok, clade_is_ok cfg ranks = Ok ok).
  { unfold clade_is_ok.
    destruct (any_clade_in_range _ _ Hinc) as [inc Einc].
    destruct (any_clade_in_range _ _ Hign) as [ign Eign].
    destruct (0 <? length (clades_to_include cfg)).
    - rewrite Einc. py_simpl. destruct inc; [|by eexists].
      rewrite Eign. py_simpl. by eexists.
    - py_simpl. rewrite Eign. py_simpl. by eexists. }
  destruct Hok as [ok ->]. py_simpl. destruct ok; cbn [negb]; [|by eexists].
  pose proof (assigned_lowest _ _ _ Hr Er) as Hlow.
  rewrite (skip_empty_last _ Hlow). py_simpl.
  destruct (over_quota _ _ _ _ _); [by eexists|].
  pose proof (RankUid.lowest_from_bounds ranks (length ranks)) as Hb.
  fold (lowest_assigned_rank_level ranks) in Hb.
  edestruct (add_tree_node_total (length ranks)) as [[b2 n] Hadd];
    [| exact Hlow | | | rewrite Hadd]; [exact Hroot|lia|lia|].
  py_simpl. eexists. split; [done|]. cbn [tree_nodes].
  by apply (add_tree_node_facts _ _ _ _ _ _ _ Hadd).
Qed.

(** X1. [build] returns whenever every level of the configuration is an index
    of every path. *)
Lemma build_returns cfg taxonomy :
  forallb (fun e => config_in_range cfg e.2) (items taxonomy) = true ->
  returns (build cfg taxonomy) = true.
Proof.
  intros Hcfg. unfold build.
  assert (H : forall entries b,
             dict_mem (tree_nodes b) ROOT_LABEL = true ->
             forallb (fun e => config_in_range cfg e.2) entries = true ->
             exists b', build_loop cfg entries b = Ok b').
  { induction entries as [|[sid ranks] entries IH]; intros b Hroot Hall.
    - by eexists.
    - cbn [forallb snd] in Hall. apply andb_true_iff in Hall as [H1 H2].
      cbn [build_loop].
      destruct (build_step_total cfg b sid ranks Hroot H1) as (b1 & -> & Hroot1).
      py_simpl. by apply IH. }
  destruct (H (items taxonomy) start) as [b ->]; [reflexivity|done|].
  reflexivity.
Qed.

End Build.

(** ** [close_taxonomy_gaps] *)

Module GapClosing.

Import Taxonomy Spec Examples.

(** C4 on the lineage [A;-;] (its last rank name is the empty string): the
    lowest assigned level is 2, the marker at position 1 lies strictly
    between the root and that level, and [close_taxonomy_gaps] leaves the
    path as it is, because the empty name counts as no name in the test
    [elif last_rank]. *)
Theorem close_taxonomy_gaps_blank_name :
  load_taxonomy "" [blank_line] = Ok blank_store /\
  lowest_assigned_rank_level ["A"; "-"; ""] = 2%Z /\
  items (close_taxonomy_gaps blank_store) = [("s1", ["A"; "-"; ""])] /\
  has_gap ["A"; "-"; ""] = true.
Proof. by vm_compute. Qed.

(** *** [close_taxonomy_gaps] on paths without blank names *)

Lemma parent_name_not_marker k r : String.eqb (parent_name k r) EMPTY_RANK = false.
Proof. reflexivity. Qed.

Lemma parent_name_not_blank k r : String.eqb (parent_name k r) "" = false.
Proof. reflexivity. Qed.

Lemma truthy_Some r : String.eqb r "" = false -> truthy (Some r) = true.
Proof. intros H. unfold truthy. by rewrite H. Qed.

(** The loop from position [n] down to 1, given what the positions above
    [n] look like: they are gap free among themselves, and [last_rank] is
    set as soon as one of them is assigned. *)
Lemma close_gaps_loop_gap_free (n : nat) (ranks : list string)
    (last_rank : option string) (gap_count : nat) :
  n < length ranks ->
  no_blank ranks ->
  (forall j k, n < j < k -> assigned_at ranks k -> assigned_at ranks j) ->
  (forall k, n < k -> assigned_at ranks k -> truthy last_rank = true) ->
  gap_free (close_gaps_loop (reverse (seq 1 n)) ranks last_rank gap_count) /\
  no_blank (close_gaps_loop (reverse (seq 1 n)) ranks last_rank gap_count).
Proof.
  revert ranks last_rank gap_count.
  induction n as [|n IH]; intros ranks last_rank gap_count Hlen Hnb Hdown Hlast.
  - cbn. split; [|done]. intros j k Hjk. apply Hdown. lia.
  - rewrite seq_S, reverse_app. cbn [reverse rev_append app Nat.add].
    change (rev_append [S n] []) with [S n]. cbn [app close_gaps_loop].
    destruct (lookup_lt_is_Some_2 ranks (S n) Hlen) as [r Hr]. rewrite Hr.
    destruct (String.eqb r EMPTY_RANK) eqn:Er; cbn [negb].
    + destruct (truthy last_rank) eqn:Et.
      * (* the marker is replaced *)
        set (filled := parent_name (S gap_count) (default "" last_rank)).
        apply IH.
        -- rewrite length_insert. lia.
        -- apply Forall_insert; [done|apply parent_name_not_blank].
        -- intros j k Hjk [x [Hx He]].
           rewrite list_lookup_insert_ne in Hx by lia.
           destruct (decide (j = S n)) as [->|Hne].
           ++ exists filled. split; [|apply parent_name_not_marker].
              by apply list_lookup_insert_eq.
           ++ destruct (Hdown j k ltac:(lia) ltac:(by exists x)) as [y [Hy Hye]].
              exists y. split; [|done]. by rewrite list_lookup_insert_ne by lia.
        -- done.
      * (* nothing assigned below: the marker stays *)
        apply IH; [lia|done| |].
        -- intros j k Hjk Hk. destruct (decide (j = S n)) as [->|Hne].
           ++ by pose proof (Hlast k ltac:(lia) Hk).
           ++ apply (Hdown j k); [lia|done].
        -- intros k Hk Hak. destruct (decide (k = S n)) as [->|Hne].
           ++ destruct Hak as [x [Hx He]]. congruence.
           ++ by pose proof (Hlast k ltac:(lia) Hak).
    + (* an assigned entry: it becomes the remembered name *)
      apply IH; [lia|done| |].
      * intros j k Hjk Hk. destruct (decide (j = S n)) as [->|Hne].
        -- by exists r.
        -- apply (Hdown j k); [lia|done].
      * intros k Hk Hak. apply truthy_Some.
        unfold no_blank in Hnb. rewrite Forall_forall in Hnb. apply Hnb.
        by eapply list_elem_of_lookup_2.
Qed.

Lemma close_gaps_gap_free (ranks : list string) :
  no_blank ranks -> gap_free (close_gaps ranks) /\ no_blank (close_gaps ranks).
Proof.
  intros Hnb. unfold close_gaps. destruct ranks as [|r0 ranks].
  { split; [|constructor]. by intros j k _ [x [Hx _]]. }
  apply close_gaps_loop_gap_free; [cbn; lia|done| |].
  - intros j k Hjk [x [Hx _]]. apply lookup_lt_Some in Hx.
    cbn [length] in Hx, Hjk. lia.
  - intros k Hk [x [Hx _]]. apply lookup_lt_Some in Hx.
    cbn [length] in Hx, Hk. lia.
Qed.

(** A gap-free path has no marker strictly between the root and its lowest
    assigned level. *)
Lemma gap_free_has_gap (ranks : list string) :
  gap_free ranks -> has_gap ranks = false.
Proof.
  intros Hgf. unfold has_gap. apply not_true_iff_false. intros Hex.
  apply existsb_exists in Hex as (i & Hi & He).
  apply in_seq in Hi.
  set (low := lowest_assigned_rank_level ranks) in *.
  assert (Hlow : (0 <= low)%Z) by lia.
  destruct (Build.lowest_from_assigned ranks (length ranks) (le_n _) Hlow)
    as (x & Hx & Hxe).
  fold (lowest_assigned_rank_level ranks) in Hx. fold low in Hx.
  destruct (Hgf i (Z.to_nat low) ltac:(lia) ltac:(by exists x)) as (y & Hy & Hye).
  rewrite Hy in He. cbn in He. congruence.
Qed.

(** For a path without blank names [close_taxonomy_gaps] does what C4
    says: no marker is left strictly between the root and the lowest
    assigned level. *)
Lemma close_gaps_no_gap (ranks : list string) :
  no_blank ranks -> has_gap (close_gaps ranks) = false.
Proof. intros H. by apply gap_free_has_gap, close_gaps_gap_free. Qed.

(** The same for every path of a store, whichever rank lists are shared. *)
Lemma close_gaps_all_no_gap (entries : list (string * nat))
    (o : list (list string)) (a : nat) :
  Forall no_blank o ->
  a < length o ->
  has_gap (deref o a) = false \/ a ∈ entries.*2 ->
  has_gap (deref (close_gaps_all entries o) a) = false.
Proof.
  revert o. induction entries as [|[sid a0] entries IH]; intros o Hnb Ha Hcase.
  - destruct Hcase as [H|H]; [done|by apply elem_of_nil in H].
  - cbn [close_gaps_all].
    assert (Hnb0 : no_blank (deref o a0)).
    { unfold deref. destruct (o !! a0) as [l|] eqn:E; [|by constructor].
      rewrite Forall_forall in Hnb. apply Hnb. by eapply list_elem_of_lookup_2. }
    apply IH.
    + apply Forall_insert; [done|]. by apply close_gaps_gap_free.
    + by rewrite length_insert.
    + destruct (decide (a = a0)) as [->|Hne].
      * left. unfold deref at 1. rewrite list_lookup_insert_eq by done.
        by apply close_gaps_no_gap.
      * rewrite DupScan.deref_insert_other by done.
        destruct Hcase as [H|H]; [by left|right].
        rewrite fmap_cons in H. by apply elem_of_cons in H as [?|?].
Qed.

(** X2. On a well-formed store without blank names, no path has a gap
    after [close_taxonomy_gaps], whichever rank lists are shared. *)
Lemma close_taxonomy_gaps_no_gap (self : state) (sid : string)
    (ranks : list string) :
  store_wf self = true ->
  Forall no_blank (objs self) ->
  ranks_of (close_taxonomy_gaps self) sid = Some ranks ->
  has_gap ranks = false.
Proof.
  intros Hwf Hnb Hr. unfold ranks_of, close_taxonomy_gaps in Hr.
  cbn [seq_ranks_map objs with_objs] in Hr.
  destruct (dict_get (seq_ranks_map self) sid) as [a|] eqn:Hg; [|done].
  cbn in Hr. apply DictFacts.dict_get_Some_elem in Hg.
  pose proof (Disbalance.store_wf_addr _ _ _ Hwf Hg) as Ha.
  pose proof (close_gaps_all_no_gap (seq_ranks_map self) (objs self) a Hnb Ha) as H.
  unfold deref in H at 2. rewrite Hr in H. apply H. right.
  apply list_elem_of_fmap. by exists (sid, a).
Qed.

(** The gap counter tells two names synthesised from the same descendant
    apart. *)
Lemma length_append (a b : string) :
  String.length (a +:+ b) = String.length a + String.length b.
Proof.
  induction a as [|c a IH]; [done|].
  rewrite StringFacts.append_cons. cbn [String.length]. by rewrite IH.
Qed.

Lemma append_inj_r (a b t : string) : a +:+ t = b +:+ t -> a = b.
Proof.
  revert b. induction a as [|c a IH]; intros [|d b] H; [done| | |].
  - apply (f_equal String.length) in H.
    rewrite StringFacts.append_nil, StringFacts.append_cons in H.
    cbn [String.length] in H. rewrite length_append in H. lia.
  - apply (f_equal String.length) in H.
    rewrite StringFacts.append_nil, StringFacts.append_cons in H.
    cbn [String.length] in H. rewrite length_append in H. lia.
  - rewrite !StringFacts.append_cons in H. injection H as -> H.
    f_equal. by apply IH.
Qed.

Lemma parent_name_inj (k1 k2 : nat) (r : string) :
  parent_name k1 r = parent_name k2 r -> k1 = k2.
Proof.
  unfold parent_name. intros H. apply String.app_inj in H.
  apply append_inj_r in H. by apply (inj pretty) in H.
Qed.

End GapClosing.

(** ** The merged path of [merge_ranks] for the uid of a path *)

Module MergedPath.

Import Taxonomy Spec.

Lemma lowest_from_at (q : list string) (n : nat) r :
  q !! n = Some r -> String.eqb r EMPTY_RANK = false ->
  lowest_from q (S n) = Z.of_nat n.
Proof. intros Hq Hr. cbn [lowest_from]. by rewrite Hq, Hr. Qed.

(** For the uid of a delimiter-safe path the merged path is the assigned
    prefix of that path with [name_prefix] put in front of its last name. *)
Lemma merged_rank_of_uid (p : list string) (name_prefix : string) (n : nat) r :
  delim_safe (nonempty_prefix p) ->
  lowest_assigned_rank_level p = Z.of_nat n ->
  p !! n = Some r ->
  merged_rank (get_rank_uid p (-1)) name_prefix
  = <[n := name_prefix +:+ r]> (nonempty_prefix p).
Proof.
  intros Hsafe Hlow Hr. unfold merged_rank.
  rewrite RankUid.get_rank_uid_join.
  rewrite RankUid.split_rank_uid_join;
    [|apply RankUid.nonempty_prefix_cons, Z.ltb_ge; lia|done].
  pose proof (lookup_lt_Some _ _ _ Hr) as Hn.
  assert (Hq : nonempty_prefix p = take n p ++ [r]).
  { unfold nonempty_prefix, slice_to. rewrite Hlow.
    replace (Z.of_nat n + 1 <? 0)%Z with false by (symmetry; apply Z.ltb_ge; lia).
    replace (Z.to_nat (Z.of_nat n + 1)) with (S n) by lia.
    by apply take_S_r. }
  assert (Hlen : length (take n p) = n) by (rewrite length_take; lia).
  assert (Hre : String.eqb r EMPTY_RANK = false).
  { pose proof (Build.lowest_from_assigned p (length p) (le_n _)) as H.
    fold (lowest_assigned_rank_level p) in H. rewrite Hlow in H.
    destruct H as (x & Hx & He); [lia|]. rewrite Nat2Z.id in Hx. congruence. }
  assert (Hqn : nonempty_prefix p !! n = Some r).
  { rewrite Hq. rewrite lookup_app_r by lia. by rewrite Hlen, Nat.sub_diag. }
  assert (Hlowq : lowest_assigned_rank_level (nonempty_prefix p) = Z.of_nat n).
  { unfold lowest_assigned_rank_level.
    replace (length (nonempty_prefix p)) with (S n)
      by (rewrite Hq, length_app, Hlen; cbn; lia).
    by eapply lowest_from_at. }
  rewrite Hlowq, (RankLevel.getitem_nat _ _ _ Hqn).
  unfold slice_to.
  replace (Z.of_nat n <? 0)%Z with false by (symmetry; apply Z.ltb_ge; lia).
  rewrite Nat2Z.id, Hq. rewrite take_app_length' by done.
  rewrite insert_app_r_alt by lia. by rewrite Hlen, Nat.sub_diag.
Qed.

End MergedPath.

(** ** Rank paths and their uids: the static helpers of [Taxonomy] *)

Module PathFacts.

Import Taxonomy Spec StringFacts.

Lemma prefix_drop (p s : string) :
  String.prefix p s = true -> s = p +:+ string_drop (String.length p) s.
Proof.
  revert s. induction p as [|a p IH]; intros s H; [done|].
  destruct s as [|b s]; [done|]. cbn [String.prefix] in H.
  destruct (ascii_dec a b) as [->|]; [|done].
  cbn [String.length string_drop]. rewrite append_cons. f_equal. by apply IH.
Qed.

Lemma join_cons (sep x : string) (l : list string) :
  l <> [] -> join sep (x :: l) = x +:+ sep +:+ join sep l.
Proof. by destruct l. Qed.

(** The pieces of [split], joined again, are the part of the string the
    scan had not passed over. *)
Lemma join_split_go (c : ascii) (sep s : string) (k : nat) (cur : string) :
  join (String c sep) (split_go (String c sep) k cur s)
  = cur +:+ string_drop k s.
Proof.
  revert k cur. induction s as [|a s IH]; intros k cur.
  - cbn [split_go]. destruct k; cbn; by rewrite append_empty_r.
  - destruct k as [|k]; [|cbn [split_go string_drop]; apply IH].
    cbn [split_go string_drop].
    destruct (String.prefix (String c sep) (String a s)) eqn:E.
    + rewrite join_cons by apply Merge.split_go_nonempty.
      rewrite IH, append_nil. f_equal.
      apply prefix_drop in E. cbn [String.length string_drop] in E.
      replace (String.length (String c sep) - 1) with (String.length sep)
        by (cbn [String.length]; lia).
      by symmetry.
    + rewrite IH. cbn [string_drop]. by rewrite append_assoc.
Qed.

Lemma join_split (c : ascii) (sep s : string) :
  join (String c sep) (split (String c sep) s) = s.
Proof. unfold split. by rewrite join_split_go. Qed.

Lemma slice_to_app_length {A} (l pad : list A) :
  slice_to (l ++ pad) (Z.of_nat (length l)) = l.
Proof.
  unfold slice_to.
  replace (Z.of_nat (length l) <? 0)%Z with false by (symmetry; apply Z.ltb_ge; lia).
  rewrite Nat2Z.id. by rewrite take_app_length.
Qed.

Lemma split_rank_uid_0 (rank_uid : string) :
  split_rank_uid rank_uid 0 = split RANK_UID_DELIM rank_uid.
Proof. reflexivity. Qed.

(** X3. Decoding a uid and encoding the pieces again gives the uid back,
    whatever the string and however many levels the decoding pads to. *)
Theorem get_rank_uid_split_rank_uid (rank_uid : string) (min_lvls : nat) :
  get_rank_uid (split_rank_uid rank_uid min_lvls)
    (Z.of_nat (length (split_rank_uid rank_uid 0)) - 1) = rank_uid.
Proof.
  rewrite split_rank_uid_0.
  pose proof (Merge.split_go_nonempty RANK_UID_DELIM 0 "" rank_uid) as Hne.
  fold (split RANK_UID_DELIM rank_uid) in Hne.
  set (pieces := split RANK_UID_DELIM rank_uid) in *.
  assert (Hlen : 0 < length pieces) by (destruct pieces; [done|cbn; lia]).
  unfold get_rank_uid.
  replace (Z.of_nat (length pieces) - 1 =? -1)%Z with false
    by (symmetry; apply Z.eqb_neq; lia).
  replace (Z.of_nat (length pieces) - 1 + 1)%Z with (Z.of_nat (length pieces)) by lia.
  unfold split_rank_uid. fold pieces.
  destruct (length pieces <? min_lvls).
  - rewrite slice_to_app_length. apply (join_split "@" "@").
  - rewrite <- (app_nil_r pieces) at 1. rewrite slice_to_app_length.
    apply (join_split "@" "@").
Qed.

(** The scan of [lowest_assigned_rank_level] on a path with one more
    entry. *)
Lemma lowest_from_app (l pad : list string) (n : nat) :
  n <= length l -> lowest_from (l ++ pad) n = lowest_from l n.
Proof.
  induction n as [|n IH]; intros Hn; [done|]. cbn [lowest_from].
  rewrite lookup_app_l by lia. rewrite IH by lia. done.
Qed.

Lemma lowest_level_snoc (l : list string) (x : string) :
  lowest_assigned_rank_level (l ++ [x])
  = if String.eqb x EMPTY_RANK then lowest_assigned_rank_level l
    else Z.of_nat (length l).
Proof.
  unfold lowest_assigned_rank_level. rewrite length_app. cbn [length].
  rewrite Nat.add_1_r. cbn [lowest_from].
  rewrite lookup_app_r by lia. rewrite Nat.sub_diag. cbn [lookup list_lookup].
  destruct (String.eqb x EMPTY_RANK); [|done]. by apply lowest_from_app.
Qed.

Lemma lowest_level_markers (l : list string) (n : nat) :
  lowest_assigned_rank_level (l ++ replicate n EMPTY_RANK)
  = lowest_assigned_rank_level l.
Proof.
  induction n as [|n IH]; [by rewrite app_nil_r|].
  rewrite replicate_S_end, app_assoc, lowest_level_snoc. by rewrite String.eqb_refl.
Qed.

Lemma slice_to_app_l {A} (l pad : list A) (k : Z) :
  (0 <= k <= Z.of_nat (length l))%Z -> slice_to (l ++ pad) k = slice_to l k.
Proof.
  intros Hk. unfold slice_to.
  replace (k <? 0)%Z with false by (symmetry; apply Z.ltb_ge; lia).
  rewrite take_app_le by lia. done.
Qed.

Lemma get_rank_uid_markers (l : list string) (n : nat) :
  get_rank_uid (l ++ replicate n EMPTY_RANK) (-1) = get_rank_uid l (-1).
Proof.
  unfold get_rank_uid. change (-1 =? -1)%Z with true. cbv iota.
  rewrite lowest_level_markers.
  pose proof (RankUid.lowest_from_bounds l (length l)) as Hb.
  unfold lowest_assigned_rank_level. rewrite slice_to_app_l by lia. done.
Qed.

(** X4. Markers at the end of a path do not show in its uid: a path and
    the same path with empty ranks appended belong to the same group. *)
Theorem get_rank_uid_trailing_markers (ranks : list string) (n : nat) :
  lowest_assigned_rank_level (ranks ++ replicate n EMPTY_RANK)
  = lowest_assigned_rank_level ranks /\
  get_rank_uid (ranks ++ replicate n EMPTY_RANK) (-1) = get_rank_uid ranks (-1).
Proof. split; [apply lowest_level_markers|apply get_rank_uid_markers]. Qed.

(** [split_rank_uid] with [min_lvls]: the result has
    [max min_lvls pieces] levels, begins with the pieces of the uid, and the
    padding does not change the uid the result stands for. *)
Lemma split_rank_uid_min_lvls (rank_uid : string) (min_lvls : nat) :
  length (split_rank_uid rank_uid min_lvls)
  = Nat.max min_lvls (length (split_rank_uid rank_uid 0)) /\
  take (length (split_rank_uid rank_uid 0)) (split_rank_uid rank_uid min_lvls)
  = split_rank_uid rank_uid 0 /\
  get_rank_uid (split_rank_uid rank_uid min_lvls) (-1)
  = get_rank_uid (split_rank_uid rank_uid 0) (-1).
Proof.
  rewrite !split_rank_uid_0. unfold split_rank_uid.
  set (pieces := split RANK_UID_DELIM rank_uid).
  destruct (length pieces <? min_lvls) eqn:E.
  - apply Nat.ltb_lt in E. split; [|split].
    + rewrite length_app, length_replicate. lia.
    + by rewrite take_app_length.
    + apply get_rank_uid_markers.
  - apply Nat.ltb_ge in E. split; [lia|]. split; [|done]. by rewrite firstn_all.
Qed.

(** Every position after the lowest assigned level holds the marker. *)
Lemma lowest_level_above (ranks : list string) (j : nat) (x : string) :
  (lowest_assigned_rank_level ranks < Z.of_nat j)%Z ->
  ranks !! j = Some x -> x = EMPTY_RANK.
Proof.
  revert j x. induction ranks as [|x ranks IH] using rev_ind; [done|].
  intros j y Hj Hy. rewrite lowest_level_snoc in Hj.
  destruct (decide (j = length ranks)) as [->|Hne].
  - rewrite lookup_app_r, Nat.sub_diag in Hy by lia. injection Hy as <-.
    destruct (String.eqb x EMPTY_RANK) eqn:E; [by apply String.eqb_eq|lia].
  - pose proof (lookup_lt_Some _ _ _ Hy) as Hlt.
    rewrite length_app in Hlt. cbn in Hlt.
    rewrite lookup_app_l in Hy by lia.
    destruct (String.eqb x EMPTY_RANK); [by eapply IH|lia].
Qed.

(** X5. The lowest assigned level is the last position that does not hold
    the marker, and [-1] when every position holds it. *)
Theorem lowest_assigned_rank_level_spec (ranks : list string) :
  (-1 <= lowest_assigned_rank_level ranks < Z.of_nat (length ranks))%Z /\
  (forall j x, (lowest_assigned_rank_level ranks < Z.of_nat j)%Z ->
     ranks !! j = Some x -> x = EMPTY_RANK) /\
  ((0 <= lowest_assigned_rank_level ranks)%Z ->
   assigned_at ranks (Z.to_nat (lowest_assigned_rank_level ranks))).
Proof.
  split; [apply RankUid.lowest_from_bounds|]. split.
  - apply lowest_level_above.
  - intros H. by apply Build.lowest_from_assigned.
Qed.

(** X6. [lowest_assigned_rank] is the last name of the path that is not
    the marker, [None] when there is none. *)
Theorem lowest_assigned_rank_last (ranks : list string) :
  lowest_assigned_rank ranks
  = last (filter (fun r => String.eqb r EMPTY_RANK = false) ranks).
Proof.
  induction ranks as [|x ranks IH] using rev_ind; [done|].
  rewrite filter_app, filter_cons, filter_nil.
  unfold lowest_assigned_rank in *. rewrite lowest_level_snoc.
  assert (Hb : (-1 <= lowest_assigned_rank_level ranks < Z.of_nat (length ranks))%Z)
    by apply RankUid.lowest_from_bounds.
  destruct (String.eqb x EMPTY_RANK) eqn:E.
  - rewrite decide_False by congruence. rewrite app_nil_r, <- IH.
    destruct (0 <=? lowest_assigned_rank_level ranks)%Z eqn:E0; [|done].
    apply Z.leb_le in E0. unfold getitem.
    assert (E1 : (lowest_assigned_rank_level ranks <? 0)%Z = false)
      by (apply Z.ltb_ge; lia).
    rewrite !E1. rewrite lookup_app_l by lia. done.
  - rewrite decide_True by done. rewrite last_snoc.
    replace (0 <=? Z.of_nat (length ranks))%Z with true
      by (symmetry; apply Z.leb_le; lia).
    rewrite (RankLevel.getitem_nat _ _ x); [done|].
    by rewrite lookup_app_r, Nat.sub_diag by lia.
Qed.

End PathFacts.

(** ** [TaxCode]: construction, level names and the fallbacks of
    [guess_rank_level] *)

Module CodeFacts.

Import TaxCode Spec DictFacts.

Ltac py_simpl :=
  cbn [mbind mret result_bind result_ret bind option_bind].

(** X7. [TaxCode(name)] accepts the four nomenclature codes in any letter
    case, and hands out a table with ascending levels that has the
    kingdom level; every other name ends the program. *)
Theorem init_known_codes (tax_code_name : string) :
  match init tax_code_name with
  | Ok tax_code =>
      (lower tax_code_name, tax_code) ∈ TAX_CODE_MAP /\ table_wf tax_code = true
  | Raise e =>
      e = SystemExit /\ lower tax_code_name ∉ ["bac"; "bot"; "zoo"; "vir"]
  end.
Proof.
  unfold init.
  destruct (dict_get TAX_CODE_MAP (lower tax_code_name)) as [code|] eqn:E.
  - apply dict_get_Some_elem in E. pose proof E as Hin.
    unfold TAX_CODE_MAP in E.
    repeat (apply elem_of_cons in E as [E|E]); [..|by apply elem_of_nil in E];
      injection E as _ ->; (split; [exact Hin|by vm_compute]).
  - split; [done|]. by apply dict_get_None in E.
Qed.

Lemma lit_get_above {V} (d : list (nat * V)) (k : nat) :
  Forall (fun e => e.1 < k) d -> lit_get d k = None.
Proof.
  induction 1 as [|[k' v] d Hk Hd IH]; [done|]. cbn [lit_get].
  cbn in Hk. replace (k' =? k) with false by (symmetry; apply Nat.eqb_neq; lia).
  exact IH.
Qed.

(** X8. [rank_level_name] knows the levels 1 to 22 and answers
    [("Unknown", "?__")] for every other number, level 0 (the failed guess)
    included. *)
Theorem rank_level_name_unknown (uni_rank_level : nat) :
  rank_level_name uni_rank_level = ("Unknown", "?__")
  <-> uni_rank_level = 0 \/ UNI_TAX_LEVELS < uni_rank_level.
Proof.
  change UNI_TAX_LEVELS with 22.
  do 23 (destruct uni_rank_level as [|uni_rank_level];
         [split; intros H;
            [first [by left | by vm_compute in H] | first [reflexivity | lia]]|]).
  split; [intros _; right; lia|intros _].
  unfold rank_level_name. rewrite lit_get_above; [done|].
  set (t := UNI_TAX_RANKS). vm_compute in t. subst t.
  repeat (constructor; [cbn; lia|]). constructor.
Qed.

Lemma match_level_in (tax_code : list (nat * entry)) (rank_name : string) :
  match_level tax_code rank_name = 0 \/ match_level tax_code rank_name ∈ tax_code.*1.
Proof.
  induction tax_code as [|[lvl [suffix exact]] code IH]; [by left|].
  cbn [match_level]. destruct (_ || _).
  - right. left.
  - destruct IH as [IH|IH]; [by left|right; by right].
Qed.

Lemma next_std_in (levels : list nat) :
  next_std levels = 0 \/ next_std levels ∈ levels.
Proof.
  induction levels as [|lvl levels IH]; [by left|]. cbn [next_std].
  destruct (bool_decide _); [right; left|].
  destruct IH as [IH|IH]; [by left|right; by right].
Qed.

Lemma index_of_elem (levels : list nat) (x : nat) :
  x ∈ levels -> exists idx, index_of levels x = Ok idx.
Proof.
  induction levels as [|y levels IH]; intros Hin; [by apply elem_of_nil in Hin|].
  cbn [index_of]. destruct (y =? x) eqn:E; [by eexists|].
  apply Nat.eqb_neq in E. apply elem_of_cons in Hin as [->|Hin]; [done|].
  destruct (IH Hin) as [idx ->]. by eexists.
Qed.

Lemma getitem_out {A} (l : list A) (i : nat) :
  length l <= i -> getitem l (Z.of_nat i) = Raise IndexError.
Proof.
  intros H. unfold getitem.
  assert (E : (Z.of_nat i <? 0)%Z = false) by (apply Z.ltb_ge; lia).
  rewrite !E, Nat2Z.id. by rewrite lookup_ge_None_2.
Qed.

(** X9. On a table that has the kingdom level, [guess_rank_level] returns
    for every position of the path, and what it returns is [0] (unknown) or
    a level of the table; [list.index] never fails. Beyond the end of the
    path it raises [IndexError]. *)
Theorem guess_rank_level_returns (tax_code : list (nat * entry))
    (ranks : list string) (rank_level : nat) :
  1 ∈ tax_code.*1 ->
  match guess_rank_level tax_code ranks rank_level with
  | Ok lvl => rank_level < length ranks /\ (lvl = 0 \/ lvl ∈ tax_code.*1)
  | Raise e => e = IndexError /\ length ranks <= rank_level
  end.
Proof.
  intros H1. induction rank_level as [|parent IH].
  - cbn [guess_rank_level].
    destruct (ranks !! 0) as [name|] eqn:Hname.
    + rewrite (RankLevel.getitem_nat _ _ _ Hname). py_simpl.
      apply lookup_lt_Some in Hname.
      destruct (match_level_in tax_code (normalize name)) as [->|Hin].
      * cbn. split; [done|by right].
      * destruct (_ =? 0); cbn; (split; [done|by right]).
    + apply lookup_ge_None in Hname. rewrite getitem_out by done. done.
  - cbn [guess_rank_level].
    destruct (ranks !! S parent) as [name|] eqn:Hname.
    + rewrite (RankLevel.getitem_nat _ _ _ Hname). py_simpl.
      apply lookup_lt_Some in Hname.
      destruct (match_level_in tax_code (normalize name)) as [->|Hin].
      * cbn [Nat.eqb].
        destruct (guess_rank_level tax_code ranks parent) as [plvl|e];
          [|destruct IH; lia].
        py_simpl. destruct IH as [_ Hp].
        destruct (plvl =? 0) eqn:E; [cbn; split; [done|by left]|].
        apply Nat.eqb_neq in E. destruct Hp as [?|Hp]; [done|].
        destruct (index_of_elem _ _ Hp) as [idx ->]. py_simpl. cbn.
        split; [done|].
        destruct (next_std_in (drop (idx + 1) tax_code.*1)) as [?|Hn]; [by left|].
        right. by eapply subseteq_drop.
      * destruct (_ =? 0) eqn:E; [|cbn; split; [done|by right]].
        apply Nat.eqb_eq in E. rewrite E in *.
        destruct (guess_rank_level tax_code ranks parent) as [plvl|e];
          [|destruct IH; lia].
        py_simpl. destruct IH as [_ Hp].
        destruct (plvl =? 0) eqn:E'; [cbn; split; [done|by left]|].
        apply Nat.eqb_neq in E'. destruct Hp as [?|Hp]; [done|].
        destruct (index_of_elem _ _ Hp) as [idx ->]. py_simpl. cbn.
        split; [done|].
        destruct (next_std_in (drop (idx + 1) tax_code.*1)) as [?|Hn]; [by left|].
        right. by eapply subseteq_drop.
    + apply lookup_ge_None in Hname. rewrite getitem_out by done. done.
Qed.

Lemma guess_rank_level_returns_witness :
  1 ∈ VIR_TAX_CODE.*1 /\
  match guess_rank_level VIR_TAX_CODE ["Viruses"; "Foo"] 1 with
  | Ok lvl => 1 < 2 /\ (lvl = 0 \/ lvl ∈ VIR_TAX_CODE.*1)
  | Raise e => e = IndexError /\ 2 <= 1
  end.
Proof.
  assert (H : 1 ∈ VIR_TAX_CODE.*1) by (vm_compute; left).
  split; [exact H|].
  exact (guess_rank_level_returns VIR_TAX_CODE ["Viruses"; "Foo"] 1 H).
Defined.

(** The step from a parent on the backbone to the next backbone level, in
    the three tables that have all seven. *)
Lemma backbone_step (tax_code : list (nat * entry)) (parent : nat) :
  tax_code ∈ [BAC_TAX_CODE; BOT_TAX_CODE; ZOO_TAX_CODE] ->
  (if nth parent STD_RANKS 0 =? 0 then mret 0
   else idx ← index_of tax_code.*1 (nth parent STD_RANKS 0);
        mret (next_std (drop (idx + 1) tax_code.*1)))
  = Ok (nth (S parent) STD_RANKS 0).
Proof.
  intros Hin.
  do 7 (destruct parent as [|parent];
        [repeat (apply elem_of_cons in Hin as [->|Hin]);
           [by vm_compute..|by apply elem_of_nil in Hin]|]).
  by destruct parent.
Qed.

(** X10. With the bacterial, botanical or zoological code, a path none of
    whose names is recognised down to a position is laid on the standard
    backbone: position [k] gets the [k]-th of the levels kingdom, phylum,
    class, order, family, genus, species, and level [0] from the eighth
    position on. *)
Theorem guess_rank_level_backbone (tax_code : list (nat * entry))
    (ranks : list string) (rank_level : nat) :
  tax_code ∈ [BAC_TAX_CODE; BOT_TAX_CODE; ZOO_TAX_CODE] ->
  rank_level < length ranks ->
  (forall i name, i <= rank_level -> ranks !! i = Some name ->
     match_level tax_code (normalize name) = 0) ->
  guess_rank_level tax_code ranks rank_level = Ok (nth rank_level STD_RANKS 0).
Proof.
  intros Hin. induction rank_level as [|parent IH]; intros Hlen Hno.
  - destruct (lookup_lt_is_Some_2 ranks 0 Hlen) as [name Hname].
    cbn [guess_rank_level]. rewrite (RankLevel.getitem_nat _ _ _ Hname). py_simpl.
    by rewrite (Hno 0 name).
  - destruct (lookup_lt_is_Some_2 ranks (S parent) Hlen) as [name Hname].
    cbn [guess_rank_level]. rewrite (RankLevel.getitem_nat _ _ _ Hname). py_simpl.
    rewrite (Hno (S parent) name) by done. cbn [Nat.eqb].
    rewrite IH; [|lia|intros i n Hi; apply Hno; lia]. py_simpl.
    by apply backbone_step.
Qed.

Lemma guess_rank_level_backbone_witness :
  guess_rank_level BAC_TAX_CODE ["Foo"; "Bar"; "Baz"] 2 = Ok 4.
Proof.
  apply (guess_rank_level_backbone BAC_TAX_CODE ["Foo"; "Bar"; "Baz"] 2).
  - left.
  - cbn. lia.
  - intros i name Hi Hname.
    destruct i as [|[|[|i]]]; [..|lia]; injection Hname as <-; reflexivity.
Defined.

Lemma lower_char_alnum (c : ascii) :
  is_alnum (lower_char c) = is_alnum c /\ lower_char (lower_char c) = lower_char c.
Proof. destruct c as [[] [] [] [] [] [] [] []]; by vm_compute. Qed.

Lemma normalize_fixed (s : string) :
  lower (normalize s) = normalize s /\ strip_non_alnum (normalize s) = normalize s.
Proof.
  unfold normalize. induction s as [|c s [IH1 IH2]]; [done|].
  cbn [lower strip_non_alnum].
  destruct (lower_char_alnum c) as [Ha Hl].
  destruct (is_alnum (lower_char c)) eqn:E; [|done].
  cbn [lower strip_non_alnum]. rewrite Hl, E, IH1, IH2. done.
Qed.

Lemma normalize_idem (s : string) : normalize (normalize s) = normalize s.
Proof.
  destruct (normalize_fixed s) as [H1 H2].
  unfold normalize at 1. by rewrite H1, H2.
Qed.

(** X11. [guess_rank_level] sees the names only through lower-casing and the
    removal of everything but letters and digits: a path and its
    normalised path get the same level at every position. *)
Theorem guess_rank_level_normalized (tax_code : list (nat * entry))
    (ranks : list string) (rank_level : nat) :
  guess_rank_level tax_code (normalize <$> ranks) rank_level
  = guess_rank_level tax_code ranks rank_level.
Proof.
  induction rank_level as [|parent IH].
  - cbn [guess_rank_level].
    destruct (ranks !! 0) as [name|] eqn:Hname.
    + rewrite (RankLevel.getitem_nat _ _ _ Hname).
      rewrite (RankLevel.getitem_nat _ _ (normalize name))
        by (by rewrite list_lookup_fmap, Hname).
      py_simpl. by rewrite normalize_idem.
    + apply lookup_ge_None in Hname.
      rewrite !getitem_out by (by rewrite ?length_fmap). done.
  - cbn [guess_rank_level]. rewrite IH.
    destruct (ranks !! S parent) as [name|] eqn:Hname.
    + rewrite (RankLevel.getitem_nat _ _ _ Hname).
      rewrite (RankLevel.getitem_nat _ _ (normalize name))
        by (by rewrite list_lookup_fmap, Hname).
      py_simpl. by rewrite normalize_idem.
    + apply lookup_ge_None in Hname.
      rewrite !getitem_out by (by rewrite ?length_fmap). done.
Qed.

End CodeFacts.

(** ** The reverse index as [__init__] and [load_taxonomy] build it *)

Module Index.

Import Taxonomy Spec Examples DictFacts.

Ltac py_simpl :=
  cbn [mbind mret result_bind result_ret bind option_bind].
Ltac py_simpl_in H :=
  cbn [mbind mret result_bind result_ret bind option_bind] in H.

(** Appending an identifier to the group of a key. *)
Lemma group_add_elem (rsm : list (string * list string)) (k sid k' x : string) :
  x ∈ default [] (dict_get (dict_set rsm k (default [] (dict_get rsm k) ++ [sid])) k')
  <-> x ∈ default [] (dict_get rsm k') \/ (k' = k /\ x = sid).
Proof.
  destruct (decide (k = k')) as [<-|Hne].
  - rewrite dict_get_set_eq. cbn [default from_option id].
    rewrite elem_of_app, list_elem_of_singleton. intuition congruence.
  - rewrite dict_get_set_ne by done. intuition congruence.
Qed.

Lemma index_ranks_elem (o : list (list string)) (entries : list (string * nat))
    (rsm : list (string * list string)) (k x : string) :
  x ∈ default [] (dict_get (index_ranks o entries rsm) k)
  <-> x ∈ default [] (dict_get rsm k)
      \/ exists a, (x, a) ∈ entries /\ get_rank_uid (deref o a) (-1) = k.
Proof.
  revert rsm. induction entries as [|[sid a] entries IH]; intros rsm.
  - cbn [index_ranks]. split; [by left|]. intros [H|(a & H & _)]; [done|].
    by apply elem_of_nil in H.
  - cbn [index_ranks]. rewrite IH, group_add_elem. split.
    + intros [[H|[-> ->]]|(a' & H & Hk)].
      * by left.
      * right. exists a. split; [left|done].
      * right. exists a'. split; [by right|done].
    + intros [H|(a' & H & Hk)]; [by left; left|].
      apply elem_of_cons in H as [[= -> ->]|H].
      * left. by right.
      * right. by exists a'.
Qed.

(** X12. The reverse index built by [Taxonomy(tax_map=...)]: an identifier
    is in the group of a key exactly when [tax_map] has it with a path whose
    uid is that key. *)
Theorem init_rank_seqs (prefix : string) (o : list (list string))
    (tax_map : list (string * nat)) (rank_id sid : string) :
  sid ∈ get_rank_seqs (init prefix o tax_map) rank_id
  <-> exists a, (sid, a) ∈ tax_map /\ get_rank_uid (deref o a) (-1) = rank_id.
Proof.
  unfold get_rank_seqs, init. cbn [rank_seqs_map]. rewrite index_ranks_elem.
  cbn. split; [|by right]. intros [H|H]; [|done]. by apply elem_of_nil in H.
Qed.

(** Counting an identifier in the groups. *)
Lemma occurrences_add (p : string) (o : list (list string))
    (m : list (string * nat)) (rsm : list (string * list string))
    (k sid x : string) :
  occurrences
    (mkState p o m (dict_set rsm k (default [] (dict_get rsm k) ++ [sid]))) x
  = occurrences (mkState p o m rsm) x + (if decide (sid = x) then 1 else 0).
Proof.
  unfold occurrences. cbn [rank_seqs_map].
  induction rsm as [|[k0 g0] rsm IH].
  - cbn [dict_set dict_get default from_option id app].
    rewrite fmap_cons, fmap_nil. cbn [snd sum_list_with id].
    rewrite filter_cons, filter_nil. destruct (decide (sid = x)); cbn [length]; lia.
  - cbn [dict_set dict_get]. destruct (String.eqb k0 k) eqn:E.
    + cbn [default from_option id]. rewrite !fmap_cons. cbn [snd sum_list_with id].
      rewrite filter_app, length_app, filter_cons, filter_nil.
      destruct (decide (sid = x)); cbn [length]; lia.
    + rewrite !fmap_cons. cbn [snd sum_list_with id]. rewrite IH. lia.
Qed.

Lemma occurrences_elem (self : state) (k x : string) (g : list string) :
  (k, g) ∈ rank_seqs_map self -> x ∈ g -> 0 < occurrences self x.
Proof.
  unfold occurrences. induction (rank_seqs_map self) as [|[k0 g0] rsm IH];
    intros Hin Hx; [by apply elem_of_nil in Hin|].
  rewrite fmap_cons. cbn [snd sum_list_with id].
  apply elem_of_cons in Hin as [[= <- <-]|Hin].
  - assert (H : x ∈ filter (fun y => y = x) g) by (by apply list_elem_of_filter).
    destruct (filter _ g); [by apply elem_of_nil in H|cbn; lia].
  - specialize (IH Hin Hx). lia.
Qed.

Lemma count_NoDup (l : list string) (x : string) :
  NoDup l -> length (filter (fun y => y = x) l) = if decide (x ∈ l) then 1 else 0.
Proof.
  induction 1 as [|y l Hy Hl IH].
  - by rewrite decide_False by apply not_elem_of_nil.
  - rewrite filter_cons. destruct (decide (y = x)) as [->|Hne].
    + rewrite decide_True by left. cbn [length]. rewrite IH.
      by rewrite decide_False.
    + rewrite IH. destruct (decide (x ∈ l)) as [Hin|Hin].
      * by rewrite decide_True by (by right).
      * rewrite decide_False; [done|]. rewrite not_elem_of_cons. split; congruence.
Qed.

(** The index of a store partitions its identifiers when every identifier
    is counted once if it is a key of the forward map and not at all if it
    is none. *)
Lemma partitions_count (self : state) :
  (forall x, occurrences self x
             = if decide (x ∈ (seq_ranks_map self).*1) then 1 else 0) ->
  partitions self = true.
Proof.
  intros H. unfold partitions. apply andb_true_iff. split.
  - apply forallb_forall. intros x Hx. apply list_elem_of_In in Hx.
    apply Nat.eqb_eq. rewrite H. by rewrite decide_True.
  - apply forallb_forall. intros [k g] Hg. apply list_elem_of_In in Hg.
    apply forallb_forall. intros x Hx. apply list_elem_of_In in Hx.
    apply dict_mem_true. pose proof (occurrences_elem self k x g Hg Hx) as Hpos.
    rewrite H in Hpos. destruct (decide (x ∈ _)); [done|lia].
Qed.

Lemma dict_set_NoDup {V} (d : list (string * V)) (k : string) (v : V) :
  NoDup d.*1 -> NoDup (dict_set d k v).*1.
Proof.
  intros Hnd. destruct (dict_get d k) as [v0|] eqn:E.
  - by rewrite dict_keys_set.
  - apply dict_get_None in E. revert E Hnd.
    induction d as [|[k0 v0] d IH]; csimpl; intros E Hnd.
    + apply NoDup_singleton.
    + apply not_elem_of_cons in E as [Hne E].
      apply NoDup_cons in Hnd as [Hk0 Hnd].
      replace (String.eqb k0 k) with false by (symmetry; apply String.eqb_neq; congruence).
      csimpl. apply NoDup_cons. split; [|by apply IH].
      intros Hin. apply Hk0. clear IH Hnd Hk0.
      induction d as [|[k1 v1] d IH]; csimpl in *.
      * apply list_elem_of_singleton in Hin. congruence.
      * apply not_elem_of_cons in E as [Hne1 E].
        replace (String.eqb k1 k) with false in Hin
          by (symmetry; apply String.eqb_neq; congruence).
        csimpl in Hin. apply elem_of_cons in Hin as [->|Hin]; [left|right; by apply IH].
Qed.

Lemma index_ranks_count (p : string) (o : list (list string))
    (m entries : list (string * nat)) (rsm : list (string * list string))
    (x : string) :
  occurrences (mkState p o m (index_ranks o entries rsm)) x
  = occurrences (mkState p o m rsm) x
    + length (filter (fun y => y = x) entries.*1).
Proof.
  revert rsm. induction entries as [|[sid a] entries IH]; intros rsm.
  - cbn. lia.
  - cbn [index_ranks]. rewrite IH, occurrences_add. rewrite fmap_cons, filter_cons.
    cbn [fst]. destruct (decide (sid = x)); cbn [length]; lia.
Qed.

Lemma index_ranks_NoDup (o : list (list string)) (entries : list (string * nat))
    (rsm : list (string * list string)) :
  NoDup rsm.*1 -> NoDup (index_ranks o entries rsm).*1.
Proof.
  revert rsm. induction entries as [|[sid a] entries IH]; intros rsm H; [done|].
  cbn [index_ranks]. by apply IH, dict_set_NoDup.
Qed.

(** X13. A store made from a [tax_map] that is not empty (an empty one
    counts as no [tax_map] in the constructor) starts with a reverse index
    that partitions its identifiers and has every key once. *)
Theorem init_partitions (prefix : string) (o : list (list string))
    (tax_map : list (string * nat)) :
  tax_map <> [] ->
  NoDup tax_map.*1 ->
  partitions (init prefix o tax_map) = true /\
  index_wf (init prefix o tax_map) = true.
Proof.
  intros _ Hnd. split.
  - apply partitions_count. intros x. unfold init. cbn [seq_ranks_map].
    rewrite index_ranks_count. by rewrite count_NoDup.
  - unfold index_wf, init. cbn [rank_seqs_map]. apply bool_decide_eq_true.
    apply index_ranks_NoDup. constructor.
Qed.

Lemma init_partitions_witness :
  partitions (init "" [["A"; "B"]; ["A"; "C"]] [("a", 0); ("b", 1)]) = true /\
  index_wf (init "" [["A"; "B"]; ["A"; "C"]] [("a", 0); ("b", 1)]) = true.
Proof.
  apply (init_partitions "" [["A"; "B"]; ["A"; "C"]] [("a", 0); ("b", 1)]).
  - discriminate.
  - apply (bool_decide_unpack _). by vm_compute.
Defined.

(** *** Reading records *)

(** Splitting at a one-character separator: one piece when the separator
    does not occur, more than one when it does. *)
Lemma split_go_pieces (c : ascii) (cur s : string) :
  if occurs (String c "") s
  then 2 <= length (split_go (String c "") 0 cur s)
  else split_go (String c "") 0 cur s = [cur +:+ s].
Proof.
  revert cur. induction s as [|a s IH]; intros cur.
  - cbn. by rewrite StringFacts.append_empty_r.
  - cbn [occurs split_go String.prefix].
    destruct (ascii_dec c a) as [->|Hne].
    + cbn [orb]. change (String.length (String a "") - 1) with 0.
      pose proof (Merge.split_go_nonempty (String a "") 0 "" s) as Hn.
      replace (String.prefix "" s) with true by (by destruct s). cbn [orb].
      destruct (split_go (String a "") 0 "" s); [done|cbn; lia].
    + cbn [orb]. specialize (IH (cur +:+ String a "")).
      destruct (occurs (String c "") s); [done|].
      rewrite IH. by rewrite StringFacts.append_assoc.
Qed.

Lemma load_line_cases (self : state) (line : string) :
  if occurs TAB (strip_ws line)
  then load_line self line
       = Ok (mkState (prefix self) (objs self ++ [line_ranks line])
               (dict_set (seq_ranks_map self) (line_sid (prefix self) line)
                  (length (objs self)))
               (dict_set (rank_seqs_map self) (get_rank_uid (line_ranks line) (-1))
                  (default []
                     (dict_get (rank_seqs_map self)
                        (get_rank_uid (line_ranks line) (-1)))
                   ++ [line_sid (prefix self) line])))
  else load_line self line = Raise IndexError.
Proof.
  unfold load_line, line_sid, line_ranks, split.
  pose proof (split_go_pieces (ascii_of_nat 9) "" (strip_ws line)) as H.
  change (String (ascii_of_nat 9) "") with TAB in H.
  destruct (occurs TAB (strip_ws line)).
  - destruct (split_go TAB 0 "" (strip_ws line)) as [|t0 [|t1 toks]];
      [cbn in H; lia..|]. reflexivity.
  - rewrite H. reflexivity.
Qed.

(** X14. [load_taxonomy] returns exactly when every line, stripped of outer
    white space, still has a TAB; a line without one (a blank line, or an
    identifier with an empty lineage) makes it raise [IndexError]. *)
Theorem load_taxonomy_returns (prefix : string) (lines : list string) :
  match load_taxonomy prefix lines with
  | Ok self =>
      forallb (fun line => occurs TAB (strip_ws line)) lines = true /\
      seq_count self <= length lines
  | Raise e =>
      e = IndexError /\
      forallb (fun line => occurs TAB (strip_ws line)) lines = false
  end.
Proof.
  unfold load_taxonomy.
  assert (H : forall self,
            match load_lines self lines with
            | Ok self' =>
                forallb (fun line => occurs TAB (strip_ws line)) lines = true /\
                seq_count self' <= seq_count self + length lines
            | Raise e =>
                e = IndexError /\
                forallb (fun line => occurs TAB (strip_ws line)) lines = false
            end); [|apply (H (mkState prefix [] [] []))].
  induction lines as [|line lines IH]; intros self.
  - cbn. split; [done|lia].
  - cbn [load_lines forallb]. pose proof (load_line_cases self line) as Hl.
    destruct (occurs TAB (strip_ws line)); rewrite Hl; [|done].
    py_simpl. match goal with |- context [load_lines ?s _] => specialize (IH s) end.
    destruct (load_lines _ lines) as [self'|e]; [|done].
    destruct IH as [IH1 IH2]. split; [done|].
    unfold seq_count in *. cbn [seq_ranks_map length] in *.
    assert (Hs : forall (d : list (string * nat)) k v,
               length (dict_set d k v) <= S (length d)).
    { clear. induction d as [|[k0 v0] d IHd]; intros k v; cbn; [lia|].
      destruct (String.eqb k0 k); cbn; [lia|]. specialize (IHd k v). lia. }
    specialize (Hs (seq_ranks_map self) (line_sid (Taxonomy.prefix self) line)
                  (length (objs self))). lia.
Qed.

Lemma load_lines_prefix (self self' : state) (lines : list string) :
  load_lines self lines = Ok self' -> prefix self' = prefix self.
Proof.
  revert self. induction lines as [|line lines IH]; intros self H.
  - by injection H as <-.
  - cbn [load_lines] in H. pose proof (load_line_cases self line) as Hl.
    destruct (occurs TAB (strip_ws line)); rewrite Hl in H; [|done].
    py_simpl_in H. by apply IH in H.
Qed.

Lemma dict_set_elem {V} (d : list (string * V)) (k : string) (v : V)
    (e : string * V) :
  e ∈ dict_set d k v -> e ∈ d \/ e = (k, v).
Proof.
  induction d as [|[k0 v0] d IH]; cbn [dict_set]; intros H.
  - apply list_elem_of_singleton in H. by right.
  - destruct (String.eqb k0 k) eqn:E.
    + apply String.eqb_eq in E as ->.
      apply elem_of_cons in H as [->|H]; [by right|left; by right].
    + apply elem_of_cons in H as [->|H]; [left; left|].
      destruct (IH H) as [?|?]; [left; by right|by right].
Qed.

Lemma dict_set_keys_elem {V} (d : list (string * V)) (k : string) (v : V)
    (x : string) :
  x ∈ (dict_set d k v).*1 <-> x ∈ d.*1 \/ x = k.
Proof.
  rewrite <- !dict_mem_true. unfold dict_mem.
  destruct (decide (k = x)) as [->|Hne].
  - rewrite dict_get_set_eq. intuition.
  - rewrite dict_get_set_ne by done.
    destruct (dict_get d x); intuition congruence.
Qed.

Lemma load_line_invariant (self : state) (line : string) (self' : state) :
  load_line self line = Ok self' ->
  prefix self' = prefix self /\
  (store_wf self = true -> store_wf self' = true) /\
  (index_wf self = true -> index_wf self' = true) /\
  (forall x, x ∈ (seq_ranks_map self').*1
             <-> x ∈ (seq_ranks_map self).*1 \/ x = line_sid (prefix self) line) /\
  (forall x, occurrences self' x
             = occurrences self x
               + if decide (line_sid (prefix self) line = x) then 1 else 0).
Proof.
  intros H. pose proof (load_line_cases self line) as Hl.
  destruct (occurs TAB (strip_ws line)); rewrite Hl in H; [|done].
  injection H as <-. cbn [prefix seq_ranks_map]. split; [done|].
  split; [|split; [|split]].
  - unfold store_wf. cbn [seq_ranks_map objs]. intros Hwf.
    apply andb_true_iff in Hwf as [Hnd Hall]. apply andb_true_iff. split.
    + apply bool_decide_eq_true. apply bool_decide_eq_true in Hnd.
      by apply dict_set_NoDup.
    + apply forallb_forall. intros e He. apply list_elem_of_In in He.
      rewrite length_app. cbn [length]. apply Nat.ltb_lt.
      apply dict_set_elem in He as [He| ->]; [|cbn; lia].
      rewrite forallb_forall in Hall. apply list_elem_of_In, Hall in He.
      apply Nat.ltb_lt in He. lia.
  - unfold index_wf. cbn [rank_seqs_map]. intros Hwf.
    apply bool_decide_eq_true. apply bool_decide_eq_true in Hwf.
    by apply dict_set_NoDup.
  - intros x. apply dict_set_keys_elem.
  - intros x. destruct self as [p o m rsm]. cbn [prefix objs seq_ranks_map rank_seqs_map].
    rewrite occurrences_add. unfold occurrences. cbn [rank_seqs_map]. done.
Qed.

Lemma load_lines_invariant (lines : list string) (self self' : state) :
  load_lines self lines = Ok self' ->
  (store_wf self = true -> store_wf self' = true) /\
  (index_wf self = true -> index_wf self' = true) /\
  (forall x, x ∈ (seq_ranks_map self').*1
             <-> x ∈ (seq_ranks_map self).*1
                 \/ x ∈ line_sid (prefix self) <$> lines) /\
  (forall x, occurrences self' x
             = occurrences self x
               + length (filter (fun y => y = x) (line_sid (prefix self) <$> lines))).
Proof.
  revert self. induction lines as [|line lines IH]; intros self H.
  - injection H as <-. split; [done|]. split; [done|]. split.
    + intros x. rewrite fmap_nil, elem_of_nil. intuition.
    + intros x. cbn. lia.
  - cbn [load_lines] in H.
    destruct (load_line self line) as [self1|] eqn:E1; [|done]. py_simpl_in H.
    destruct (load_line_invariant _ _ _ E1) as (Hp & Hs1 & Hi1 & Hk1 & Ho1).
    destruct (IH _ H) as (Hs & Hi & Hk & Ho). rewrite Hp in Hk, Ho.
    split; [tauto|]. split; [tauto|]. split.
    + intros x. rewrite Hk, Hk1, fmap_cons, elem_of_cons. intuition.
    + intros x. rewrite Ho, Ho1, fmap_cons, filter_cons.
      destruct (decide (line_sid (prefix self) line = x)); cbn [length]; lia.
Qed.

Lemma count_one_NoDup (l : list string) :
  (forall x, x ∈ l -> length (filter (fun y => y = x) l) = 1) -> NoDup l.
Proof.
  induction l as [|y l IH]; intros H; [constructor|].
  apply NoDup_cons. split.
  - intros Hin. specialize (H y (list_elem_of_here _ _)).
    rewrite filter_cons, decide_True in H by done. cbn [length] in H.
    assert (Hy : y ∈ filter (fun z => z = y) l) by (by apply list_elem_of_filter).
    destruct (filter _ l); [by apply elem_of_nil in Hy|done].
  - apply IH. intros x Hx. specialize (H x (list_elem_of_further _ _ _ Hx)).
    rewrite filter_cons in H.
    assert (Hpos : x ∈ filter (fun z => z = x) l) by (by apply list_elem_of_filter).
    destruct (decide (y = x)); cbn [length] in H; [|done].
    destruct (filter (fun z => z = x) l); [by apply elem_of_nil in Hpos|done].
Qed.

(** X15. The store read by [load_taxonomy] has no dangling address and no
    duplicate key in either map, and its reverse index partitions the
    identifiers exactly when no identifier is repeated in the file (a
    repeated identifier is listed once per line but stored once). *)
Theorem load_taxonomy_partitions (prefix : string) (lines : list string)
    (self : state) :
  load_taxonomy prefix lines = Ok self ->
  store_wf self = true /\ index_wf self = true /\
  (partitions self = true <-> NoDup (line_sid prefix <$> lines)).
Proof.
  intros H. unfold load_taxonomy in H.
  destruct (load_lines_invariant _ _ _ H) as (Hs & Hi & Hk & Ho).
  cbn [Taxonomy.prefix seq_ranks_map] in Hk, Ho.
  split; [by apply Hs|]. split; [by apply Hi|].
  assert (Ho' : forall x, occurrences self x
                = length (filter (fun y => y = x) (line_sid prefix <$> lines))).
  { intros x. rewrite Ho. unfold occurrences. cbn. lia. }
  assert (Hk' : forall x, x ∈ (seq_ranks_map self).*1 <-> x ∈ line_sid prefix <$> lines).
  { intros x. rewrite Hk, fmap_nil, elem_of_nil. intuition. }
  split.
  - intros Hp. apply count_one_NoDup. intros x Hx. rewrite <- Ho'.
    unfold partitions in Hp. apply andb_true_iff in Hp as [Hp _].
    rewrite forallb_forall in Hp. apply Nat.eqb_eq, Hp, list_elem_of_In.
    by apply Hk'.
  - intros Hnd. apply partitions_count. intros x. rewrite Ho', count_NoDup by done.
    destruct (decide (x ∈ line_sid prefix <$> lines)) as [Hin|Hin].
    + by rewrite decide_True by (by apply Hk').
    + by rewrite decide_False by (by rewrite Hk').
Qed.

Lemma load_taxonomy_partitions_witness :
  store_wf blank_store = true /\ index_wf blank_store = true /\
  (partitions blank_store = true <-> NoDup (line_sid "" <$> [blank_line])).
Proof.
  apply (load_taxonomy_partitions "" [blank_line] blank_store). reflexivity.
Defined.

(** X16. A record that was read is found again: under its prefixed
    identifier the store has the stripped rank names of the line, the
    identifier is in the group of their uid, and the bare identifier of the
    file resolves to the same path unless it begins with the prefix
    itself. *)
Theorem load_line_lookup (self : state) (line : string) (self' : state) :
  load_line self line = Ok self' ->
  ranks_of self' (line_sid (prefix self) line) = Some (line_ranks line) /\
  line_sid (prefix self) line
    ∈ get_rank_seqs self' (get_rank_uid (line_ranks line) (-1)) /\
  (String.prefix (prefix self) (line_sid "" line) = false ->
   seq_rank_id self' (line_sid "" line)
   = Ok (get_rank_uid (line_ranks line) (-1))).
Proof.
  intros H. pose proof (load_line_cases self line) as Hl.
  destruct (occurs TAB (strip_ws line)); rewrite Hl in H; [|done].
  injection H as <-.
  assert (Hr : ranks_of
                 (mkState (prefix self) (objs self ++ [line_ranks line])
                    (dict_set (seq_ranks_map self) (line_sid (prefix self) line)
                       (length (objs self)))
                    (dict_set (rank_seqs_map self)
                       (get_rank_uid (line_ranks line) (-1))
                       (default []
                          (dict_get (rank_seqs_map self)
                             (get_rank_uid (line_ranks line) (-1)))
                        ++ [line_sid (prefix self) line])))
                 (line_sid (prefix self) line) = Some (line_ranks line)).
  { unfold ranks_of. cbn [seq_ranks_map objs]. rewrite dict_get_set_eq.
    cbn [mbind option_bind]. rewrite lookup_app_r by lia.
    by rewrite Nat.sub_diag. }
  split; [exact Hr|]. split.
  - unfold get_rank_seqs. cbn [rank_seqs_map]. rewrite dict_get_set_eq.
    cbn [default from_option id]. apply elem_of_app. right. left.
  - intros Hp. unfold seq_rank_id, get_seq_ranks. cbn [prefix seq_ranks_map objs].
    rewrite Hp. unfold ranks_of in Hr. cbn [seq_ranks_map objs] in Hr.
    change (prefix self +:+ line_sid "" line) with (line_sid (prefix self) line).
    destruct (dict_get _ (line_sid (prefix self) line)) as [a|]; [|done].
    py_simpl. cbn [mbind option_bind] in Hr. unfold deref. by rewrite Hr.
Qed.

Lemma load_line_lookup_witness :
  ranks_of prefixed_store (line_sid "r_" blank_line) = Some (line_ranks blank_line) /\
  line_sid "r_" blank_line
    ∈ get_rank_seqs prefixed_store (get_rank_uid (line_ranks blank_line) (-1)) /\
  (String.prefix "r_" (line_sid "" blank_line) = false ->
   seq_rank_id prefixed_store (line_sid "" blank_line)
   = Ok (get_rank_uid (line_ranks blank_line) (-1))).
Proof.
  apply (load_line_lookup (mkState "r_" [] [] []) blank_line prefixed_store).
  reflexivity.
Defined.

End Index.

(** ** The forward map: [get_common_ranks], [rename_seq] and the keys
    [merge_ranks] accepts *)

Module Forward.

Import Taxonomy Spec Examples DictFacts.

Ltac py_simpl :=
  cbn [mbind mret result_bind result_ret bind option_bind].
Ltac py_simpl_in H :=
  cbn [mbind mret result_bind result_ret bind option_bind] in H.

Lemma foldl_inters (rest : list (string * list string)) (s : gset string)
    (x : string) :
  x ∈ foldl (fun inters e => inters ∩ list_to_set e.2) s rest
  <-> x ∈ s /\ forall e, e ∈ rest -> x ∈ e.2.
Proof.
  revert s. induction rest as [|e rest IH]; intros s; cbn [foldl].
  - split; [intros H; split; [done|]|by intros [H _]].
    intros e He. by apply elem_of_nil in He.
  - rewrite IH, elem_of_intersection, elem_of_list_to_set. split.
    + intros [[Hs He] Hrest]. split; [done|]. intros e' He'.
      apply elem_of_cons in He' as [->|He']; [done|by apply Hrest].
    + intros [Hs Hall]. split; [split; [done|apply Hall; left]|].
      intros e' He'. apply Hall. by right.
Qed.

(** X17. [get_common_ranks] returns the names that occur in the path of
    every sequence, and the empty set for a store without sequences; only
    in the second case is the attribute left as it was. *)
Theorem get_common_ranks_spec (self : state) (common_ranks : gset string)
    (x : string) :
  (x ∈ (get_common_ranks self common_ranks).2
   <-> items self <> [] /\ forall e, e ∈ items self -> x ∈ e.2) /\
  (get_common_ranks self common_ranks).1
  = if decide (items self = []) then common_ranks
    else (get_common_ranks self common_ranks).2.
Proof.
  unfold get_common_ranks. destruct (items self) as [|first rest]; cbn [fst snd].
  - split; [|done]. split; [by intros H%elem_of_empty|by intros [H _]].
  - split; [|done]. rewrite foldl_inters, elem_of_list_to_set. split.
    + intros [Hf Hrest]. split; [done|]. intros e He.
      apply elem_of_cons in He as [->|He]; [done|by apply Hrest].
    + intros [_ Hall]. split; [apply Hall; left|]. intros e He. apply Hall. by right.
Qed.

Section Lengths.
Context {V : Type}.
Implicit Types (d : list (string * V)) (k : string) (v : V).

Lemma dict_set_length d k v :
  length (dict_set d k v) = if dict_mem d k then length d else S (length d).
Proof.
  unfold dict_mem. induction d as [|[k0 v0] d IH]; cbn [dict_set dict_get]; [done|].
  destruct (String.eqb k0 k); [done|]. cbn [length]. rewrite IH.
  by destruct (dict_get d k).
Qed.

Lemma dict_remove_length d k :
  length (dict_remove d k) = if dict_mem d k then length d - 1 else length d.
Proof.
  unfold dict_mem. induction d as [|[k0 v0] d IH]; cbn [dict_remove dict_get]; [done|].
  destruct (String.eqb k0 k); [cbn; lia|]. cbn [length]. rewrite IH.
  destruct (dict_get d k) eqn:E; [|done].
  destruct d; [done|cbn; lia].
Qed.

Lemma dict_mem_set_eq d k v : dict_mem (dict_set d k v) k = true.
Proof. unfold dict_mem. by rewrite dict_get_set_eq. Qed.

Lemma dict_mem_remove d k k' :
  NoDup d.*1 ->
  dict_mem (dict_remove d k) k' = dict_mem d k' && negb (String.eqb k k').
Proof.
  intros Hnd. unfold dict_mem. destruct (String.eqb k k') eqn:E.
  - apply String.eqb_eq in E as <-. rewrite Merge.dict_get_remove_eq by done.
    by rewrite andb_false_r.
  - apply String.eqb_neq in E. rewrite Merge.dict_get_remove_ne by done.
    by rewrite andb_true_r.
Qed.
End Lengths.

(** X18. [rename_seq(old, new)] with two different identifiers moves the
    path of [old] to [new] in the forward map and leaves every other
    identifier alone; an entry that [new] had before is overwritten, so the
    store then has one sequence less. *)
Theorem rename_seq_lookup (self : state) (old_seqid new_seqid : string)
    (self' : state) :
  store_wf self = true ->
  old_seqid <> new_seqid ->
  rename_seq self old_seqid new_seqid = Ok self' ->
  ranks_of self' new_seqid = ranks_of self old_seqid /\
  ranks_of self' old_seqid = None /\
  (forall sid, sid <> old_seqid -> sid <> new_seqid ->
     ranks_of self' sid = ranks_of self sid) /\
  seq_count self'
  = if dict_mem (seq_ranks_map self) new_seqid then seq_count self - 1
    else seq_count self.
Proof.
  intros Hwf Hne H. apply Disbalance.store_wf_NoDup in Hwf.
  unfold rename_seq in H.
  destruct (dict_get (seq_ranks_map self) old_seqid) as [a|] eqn:Eold; [|done].
  assert (Hmem : dict_mem (dict_set (seq_ranks_map self) new_seqid a) old_seqid = true).
  { unfold dict_mem. rewrite dict_get_set_ne by done. by rewrite Eold. }
  unfold dict_del in H. rewrite Hmem in H. py_simpl_in H. injection H as <-.
  unfold ranks_of, seq_count. cbn [seq_ranks_map objs with_seq_ranks_map].
  pose proof (Index.dict_set_NoDup _ new_seqid a Hwf) as Hnd.
  split; [|split; [|split]].
  - rewrite Merge.dict_get_remove_ne by done. by rewrite dict_get_set_eq, Eold.
  - by rewrite Merge.dict_get_remove_eq.
  - intros sid H1 H2. rewrite Merge.dict_get_remove_ne by done.
    by rewrite dict_get_set_ne.
  - rewrite dict_remove_length, Hmem, dict_set_length.
    destruct (dict_mem (seq_ranks_map self) new_seqid); cbn; lia.
Qed.

Lemma rename_seq_lookup_witness :
  ranks_of (mkState "" [["Bacteria"; "Firmicutes"]] [("s2", 0)]
              [("Bacteria@@Firmicutes", ["s1"])]) "s2"
  = ranks_of one_store "s1" /\
  ranks_of (mkState "" [["Bacteria"; "Firmicutes"]] [("s2", 0)]
              [("Bacteria@@Firmicutes", ["s1"])]) "s1" = None /\
  (forall sid, sid <> "s1" -> sid <> "s2" ->
     ranks_of (mkState "" [["Bacteria"; "Firmicutes"]] [("s2", 0)]
                 [("Bacteria@@Firmicutes", ["s1"])]) sid
     = ranks_of one_store sid) /\
  seq_count (mkState "" [["Bacteria"; "Firmicutes"]] [("s2", 0)]
               [("Bacteria@@Firmicutes", ["s1"])])
  = if dict_mem (seq_ranks_map one_store) "s2" then seq_count one_store - 1
    else seq_count one_store.
Proof.
  apply (rename_seq_lookup one_store "s1" "s2"); [reflexivity|discriminate|].
  reflexivity.
Defined.

(** X19. [rename_seq(id, id)] does not leave the store alone: the entry is
    first bound to itself and then deleted, so the sequence is gone. An
    identifier the store does not have raises [KeyError]. *)
Theorem rename_seq_same_id (self : state) (seqid : string) :
  store_wf self = true ->
  match rename_seq self seqid seqid with
  | Ok self' =>
      dict_mem (seq_ranks_map self) seqid = true /\
      ranks_of self' seqid = None /\
      S (seq_count self') = seq_count self /\
      forall sid, sid <> seqid -> ranks_of self' sid = ranks_of self sid
  | Raise e => e = KeyError /\ dict_mem (seq_ranks_map self) seqid = false
  end.
Proof.
  intros Hwf. apply Disbalance.store_wf_NoDup in Hwf. unfold rename_seq.
  destruct (dict_get (seq_ranks_map self) seqid) as [a|] eqn:E;
    [|unfold dict_mem; by rewrite E].
  unfold dict_del. rewrite dict_mem_set_eq. py_simpl.
  unfold ranks_of, seq_count. cbn [seq_ranks_map objs with_seq_ranks_map].
  assert (Hm : dict_mem (seq_ranks_map self) seqid = true)
    by (unfold dict_mem; by rewrite E).
  pose proof (Index.dict_set_NoDup _ seqid a Hwf) as Hnd.
  split; [done|]. split; [by rewrite Merge.dict_get_remove_eq|]. split.
  - rewrite dict_remove_length, dict_mem_set_eq, dict_set_length, Hm.
    destruct (seq_ranks_map self); [done|cbn; lia].
  - intros sid Hne. rewrite Merge.dict_get_remove_ne by done.
    by rewrite dict_get_set_ne.
Qed.

Lemma rename_seq_same_id_witness :
  match rename_seq one_store "s1" "s1" with
  | Ok self' =>
      dict_mem (seq_ranks_map one_store) "s1" = true /\
      ranks_of self' "s1" = None /\
      S (seq_count self') = seq_count one_store /\
      forall sid, sid <> "s1" -> ranks_of self' sid = ranks_of one_store sid
  | Raise e => e = KeyError /\ dict_mem (seq_ranks_map one_store) "s1" = false
  end.
Proof. apply (rename_seq_same_id one_store "s1"). reflexivity. Defined.

(** The first loop of [merge_ranks] gets through exactly when every key is
    in the index and none comes twice. *)
Lemma collect_groups_returns (rank_ids : list string)
    (rsm : list (string * list string)) (all_sid : list string) :
  NoDup rsm.*1 ->
  match collect_groups rsm rank_ids all_sid with
  | Ok _ => NoDup rank_ids /\ Forall (fun k => dict_mem rsm k = true) rank_ids
  | Raise e =>
      e = KeyError /\
      ~ (NoDup rank_ids /\ Forall (fun k => dict_mem rsm k = true) rank_ids)
  end.
Proof.
  revert rsm all_sid. induction rank_ids as [|k rest IH]; intros rsm all_sid Hnd.
  - cbn. split; constructor.
  - cbn [collect_groups]. unfold dict_del.
    destruct (dict_mem rsm k) eqn:Ek; py_simpl.
    + specialize (IH (dict_remove rsm k) (all_sid ++ default [] (dict_get rsm k))
                    (Merge.dict_remove_NoDup _ _ Hnd)).
      destruct (collect_groups _ rest _) as [r|e].
      * destruct IH as [Hn Hall]. rewrite Forall_forall in Hall. split.
        -- apply NoDup_cons. split; [|done]. intros Hin.
           specialize (Hall _ Hin). rewrite dict_mem_remove in Hall by done.
           rewrite String.eqb_refl in Hall. by rewrite andb_false_r in Hall.
        -- constructor; [done|]. apply Forall_forall. intros k' Hk'.
           specialize (Hall _ Hk'). rewrite dict_mem_remove in Hall by done.
           by apply andb_true_iff in Hall as [? _].
      * destruct IH as [-> Hno]. split; [done|]. intros [Hn Hall].
        apply NoDup_cons in Hn as [Hk Hn]. apply Forall_cons in Hall as [_ Hall].
        apply Hno. split; [done|]. rewrite Forall_forall in Hall |- *.
        intros k' Hk'. rewrite dict_mem_remove by done. rewrite Hall by done.
        cbn. apply negb_true_iff, String.eqb_neq. intros ->. done.
    + split; [done|]. intros [_ Hall]. apply Forall_cons in Hall as [Hk _].
      congruence.
Qed.

(** X20. With two keys or more, [merge_ranks] returns exactly when every key
    is a key of the reverse index and none is given twice; otherwise the
    deletion of a group that is not there raises [KeyError]. *)
Theorem merge_ranks_returns (self : state) (rank_ids : list string)
    (name_prefix : string) :
  index_wf self = true ->
  2 <= length rank_ids ->
  match merge_ranks self rank_ids name_prefix with
  | Ok _ =>
      NoDup rank_ids /\
      Forall (fun k => dict_mem (rank_seqs_map self) k = true) rank_ids
  | Raise e =>
      e = KeyError /\
      ~ (NoDup rank_ids /\
         Forall (fun k => dict_mem (rank_seqs_map self) k = true) rank_ids)
  end.
Proof.
  intros Hwf Hlen. apply bool_decide_eq_true in Hwf. unfold merge_ranks.
  replace (length rank_ids <? 2) with false by (symmetry; apply Nat.ltb_ge; lia).
  pose proof (collect_groups_returns rank_ids (rank_seqs_map self) [] Hwf) as Hc.
  destruct (collect_groups _ rank_ids []) as [[rsm all_sid]|e]; [|done].
  py_simpl. destruct rank_ids as [|rid0 rest]; [cbn in Hlen; lia|].
  change (getitem (rid0 :: rest) 0) with (Ok rid0 : result string). py_simpl.
  destruct (Merge.merge_name_found rid0) as [name ->]. py_simpl. done.
Qed.

Lemma merge_ranks_returns_witness :
  match merge_ranks two_groups ["A@@B"; "A@@B"] DEFAULT_NAME_PREFIX with
  | Ok _ =>
      NoDup ["A@@B"; "A@@B"] /\
      Forall (fun k => dict_mem (rank_seqs_map two_groups) k = true)
        ["A@@B"; "A@@B"]
  | Raise e =>
      e = KeyError /\
      ~ (NoDup ["A@@B"; "A@@B"] /\
         Forall (fun k => dict_mem (rank_seqs_map two_groups) k = true)
           ["A@@B"; "A@@B"])
  end.
Proof.
  apply (merge_ranks_returns two_groups ["A@@B"; "A@@B"] DEFAULT_NAME_PREFIX).
  - reflexivity.
  - cbn. lia.
Defined.

End Forward.

(** ** [normalize_rank_names] *)

Module NormalizeNames.

Import Taxonomy Spec Examples DictFacts.

Lemma trantab_clean (c : ascii) :
  existsb (Ascii.eqb (trantab rank_invalid_chars c))
    (list_ascii_of_string rank_invalid_chars) = false.
Proof.
  unfold trantab.
  destruct (existsb (Ascii.eqb c) (list_ascii_of_string rank_invalid_chars)) eqn:E;
    [reflexivity|exact E].
Qed.

Lemma translate_clean (s : string) :
  has_invalid (translate rank_invalid_chars s) = false.
Proof.
  unfold has_invalid. induction s as [|c s IH]; [done|].
  cbn [translate list_ascii_of_string existsb]. rewrite IH.
  by rewrite trantab_clean.
Qed.

Lemma translate_fixed (s : string) :
  has_invalid s = false -> translate rank_invalid_chars s = s.
Proof.
  unfold has_invalid. induction s as [|c s IH]; [done|].
  cbn [translate list_ascii_of_string existsb]. intros H.
  apply orb_false_iff in H as [Hc Hs]. rewrite IH by done.
  unfold trantab. by rewrite Hc.
Qed.

Lemma translate_idem (s : string) :
  translate rank_invalid_chars (translate rank_invalid_chars s)
  = translate rank_invalid_chars s.
Proof. apply translate_fixed, translate_clean. Qed.

Lemma clean_path_idem (ranks : list string) :
  clean_path (clean_path ranks) = clean_path ranks.
Proof.
  destruct ranks as [|r0 ranks]; [done|].
  change (clean_path (r0 :: ranks))
    with (r0 :: (translate rank_invalid_chars <$> ranks)).
  change (clean_path (r0 :: (translate rank_invalid_chars <$> ranks)))
    with (r0 :: (translate rank_invalid_chars
                   <$> (translate rank_invalid_chars <$> ranks))).
  f_equal. rewrite <- list_fmap_compose. apply list_fmap_ext.
  intros i x _. apply translate_idem.
Qed.

(** The inner loop, started at position [i] with [n] positions to go. *)
Lemma normalize_ranks_loop_spec (n i : nat) (ranks : list string)
    (corr_ranks : list (string * string)) :
  i + n = length ranks ->
  corrections_ok corr_ranks ->
  (normalize_ranks_loop (seq i n) ranks corr_ranks).1
  = take i ranks ++ (translate rank_invalid_chars <$> drop i ranks) /\
  corrections_ok (normalize_ranks_loop (seq i n) ranks corr_ranks).2 /\
  (forall k, dict_mem corr_ranks k = true ->
     dict_mem (normalize_ranks_loop (seq i n) ranks corr_ranks).2 k = true) /\
  (forall j r, i <= j -> ranks !! j = Some r ->
     String.eqb (translate rank_invalid_chars r) r = false ->
     dict_mem (normalize_ranks_loop (seq i n) ranks corr_ranks).2 r = true) /\
  (forall k, dict_mem (normalize_ranks_loop (seq i n) ranks corr_ranks).2 k = true ->
     dict_mem corr_ranks k = true \/ exists j, i <= j /\ ranks !! j = Some k).
Proof.
  revert i ranks corr_ranks.
  induction n as [|n IH]; intros i ranks corr_ranks Hlen Hok.
  - cbn [seq normalize_ranks_loop fst snd].
    rewrite take_ge, drop_ge by lia. rewrite app_nil_r.
    split; [done|]. split; [done|]. split; [done|]. split; [|by left].
    intros j r Hj Hr. apply lookup_lt_Some in Hr. lia.
  - cbn [seq normalize_ranks_loop].
    destruct (lookup_lt_is_Some_2 ranks i ltac:(lia)) as [r Hr]. rewrite Hr.
    set (new := translate rank_invalid_chars r).
    assert (Hstep :
      exists c1,
        (match dict_get corr_ranks r with
         | Some corrected =>
             normalize_ranks_loop (seq (S i) n) (<[i := corrected]> ranks) corr_ranks
         | None =>
             if negb (String.eqb new r)
             then normalize_ranks_loop (seq (S i) n) (<[i := new]> ranks)
                    (dict_set corr_ranks r new)
             else normalize_ranks_loop (seq (S i) n) ranks corr_ranks
         end) = normalize_ranks_loop (seq (S i) n) (<[i := new]> ranks) c1 /\
        corrections_ok c1 /\
        (forall k, dict_mem corr_ranks k = true -> dict_mem c1 k = true) /\
        (String.eqb new r = false -> dict_mem c1 r = true) /\
        (forall k, dict_mem c1 k = true -> dict_mem corr_ranks k = true \/ k = r)).
    { destruct (dict_get corr_ranks r) as [v|] eqn:Eg.
      - exists corr_ranks. destruct (Hok _ _ Eg) as [-> Hv].
        split; [done|]. split; [done|]. split; [done|].
        split; [|by left]. intros _. unfold dict_mem. by rewrite Eg.
      - destruct (String.eqb new r) eqn:En; cbn [negb].
        + exists corr_ranks. apply String.eqb_eq in En.
          rewrite En, list_insert_id by done.
          split; [done|]. split; [done|]. split; [done|]. split; [done|by left].
        + exists (dict_set corr_ranks r new). split; [done|]. split; [|split; [|split]].
          * intros k v Hk. destruct (decide (r = k)) as [<-|Hne].
            -- rewrite dict_get_set_eq in Hk. injection Hk as <-. done.
            -- rewrite dict_get_set_ne in Hk by done. by apply Hok.
          * intros k Hk. unfold dict_mem in *. destruct (decide (r = k)) as [<-|Hne].
            -- by rewrite dict_get_set_eq.
            -- by rewrite dict_get_set_ne.
          * intros _. unfold dict_mem. by rewrite dict_get_set_eq.
          * intros k Hk. unfold dict_mem in *. destruct (decide (r = k)) as [<-|Hne].
            -- by right.
            -- rewrite dict_get_set_ne in Hk by done. by left. }
    destruct Hstep as (c1 & -> & Hok1 & Hmono1 & Hnew1 & Hback1).
    destruct (IH (S i) (<[i := new]> ranks) c1) as (H1 & H2 & H3 & H4 & H5);
      [rewrite length_insert; lia|done|].
    split; [|split; [done|split; [|split]]].
    + rewrite H1. rewrite drop_insert_lt by lia.
      rewrite (take_S_r _ _ new)
        by (rewrite list_lookup_insert_eq by lia; done).
      rewrite take_insert_ge by lia.
      rewrite (drop_S _ _ _ Hr), fmap_cons. by rewrite <- app_assoc.
    + intros k Hk. by apply H3, Hmono1.
    + intros j r' Hj Hr' Hbad. destruct (decide (j = i)) as [->|Hne].
      * rewrite Hr in Hr'. injection Hr' as <-. by apply H3, Hnew1.
      * apply (H4 j); [lia| |done]. by rewrite list_lookup_insert_ne.
    + intros k Hk. destruct (H5 k Hk) as [Hc|(j & Hj & Hjk)].
      * destruct (Hback1 k Hc) as [?| ->]; [by left|]. right. exists i. by split.
      * right. exists j. split; [lia|]. by rewrite list_lookup_insert_ne in Hjk by lia.
Qed.

Lemma normalize_path (ranks : list string) (corr_ranks : list (string * string)) :
  corrections_ok corr_ranks ->
  (normalize_ranks_loop (seq 1 (length ranks - 1)) ranks corr_ranks).1
  = clean_path ranks /\
  corrections_ok (normalize_ranks_loop (seq 1 (length ranks - 1)) ranks corr_ranks).2.
Proof.
  intros Hok. destruct ranks as [|r0 ranks]; [done|].
  destruct (normalize_ranks_loop_spec (length (r0 :: ranks) - 1) 1 (r0 :: ranks)
              corr_ranks) as (H1 & H2 & _); [cbn; lia|done|].
  by split.
Qed.

(** The outer loop: every list object that the dictionary reaches is
    cleaned, however many identifiers share it; the others are left. *)
Lemma normalize_ranks_all_spec (entries : list (string * nat))
    (o : list (list string)) (corr_ranks : list (string * string)) :
  corrections_ok corr_ranks ->
  corrections_ok (normalize_ranks_all entries o corr_ranks).2 /\
  forall a,
    (normalize_ranks_all entries o corr_ranks).1 !! a
    = if decide (a ∈ entries.*2) then clean_path <$> o !! a else o !! a.
Proof.
  revert o corr_ranks.
  induction entries as [|[sid a0] entries IH]; intros o corr_ranks Hok.
  - cbn. split; [done|]. intros a. by rewrite decide_False by apply not_elem_of_nil.
  - cbn [normalize_ranks_all].
    destruct (normalize_path (deref o a0) corr_ranks Hok) as [Hp Hok1].
    rewrite Hp.
    destruct (IH (<[a0 := clean_path (deref o a0)]> o) _ Hok1) as [Hok2 Hobj].
    split; [done|]. intros a. rewrite Hobj. rewrite fmap_cons. cbn [snd].
    destruct (decide (a = a0)) as [->|Hne].
    + rewrite (decide_True (P := a0 ∈ a0 :: _)) by left.
      destruct (o !! a0) as [l|] eqn:El.
      * rewrite list_lookup_insert_eq by (by eapply lookup_lt_Some).
        unfold deref. rewrite El. cbn [default from_option id fmap option_fmap option_map].
        destruct (decide (a0 ∈ entries.*2)); [|done].
        cbn [fmap option_fmap option_map]. by rewrite clean_path_idem.
      * rewrite list_insert_ge by (by apply lookup_ge_None). rewrite El.
        by destruct (decide (a0 ∈ entries.*2)).
    + rewrite list_lookup_insert_ne by done.
      destruct (decide (a ∈ entries.*2)) as [Hin|Hin].
      * by rewrite decide_True by (by right).
      * rewrite decide_False; [done|]. rewrite not_elem_of_cons. by split.
Qed.

(** X21. After [normalize_rank_names] the path of every sequence has its
    first name as before and, in every other name, an underscore for each
    of the characters [[](),;:'], none of which is left there; the returned
    table maps names to their replacement and holds only names that
    changed. The reverse index is not touched. *)
Theorem normalize_rank_names_paths (self : state) (sid : string)
    (ranks : list string) :
  ranks_of self sid = Some ranks ->
  ranks_of (normalize_rank_names self).1 sid = Some (clean_path ranks) /\
  Forall (fun r => has_invalid r = false) (drop 1 (clean_path ranks)) /\
  length (clean_path ranks) = length ranks /\
  corrections_ok (normalize_rank_names self).2 /\
  rank_seqs_map (normalize_rank_names self).1 = rank_seqs_map self.
Proof.
  intros Hr. unfold normalize_rank_names. cbn [fst snd].
  destruct (normalize_ranks_all_spec (seq_ranks_map self) (objs self) [])
    as [Hok Hobj]; [done|].
  split; [|split; [|split; [|by split]]].
  - unfold ranks_of in *. cbn [seq_ranks_map objs with_objs].
    destruct (dict_get (seq_ranks_map self) sid) as [a|] eqn:Ea; [|done].
    cbn [mbind option_bind] in *. rewrite Hobj, Hr.
    rewrite decide_True; [done|]. apply dict_get_Some_elem in Ea.
    apply list_elem_of_fmap. by exists (sid, a).
  - unfold clean_path. destruct ranks as [|r0 ranks]; [constructor|].
    cbn. apply Forall_fmap, Forall_forall. intros r _. apply translate_clean.
  - unfold clean_path. rewrite length_app, length_fmap, length_take, length_drop. lia.
Qed.

Lemma normalize_rank_names_paths_witness :
  ranks_of (normalize_rank_names punct_store).1 "s2"
  = Some (clean_path ["Bacteria"; "Firmi(cutes)"; "Bacilli: 'x'"]) /\
  Forall (fun r => has_invalid r = false)
    (drop 1 (clean_path ["Bacteria"; "Firmi(cutes)"; "Bacilli: 'x'"])) /\
  length (clean_path ["Bacteria"; "Firmi(cutes)"; "Bacilli: 'x'"])
  = length ["Bacteria"; "Firmi(cutes)"; "Bacilli: 'x'"] /\
  corrections_ok (normalize_rank_names punct_store).2 /\
  rank_seqs_map (normalize_rank_names punct_store).1 = rank_seqs_map punct_store.
Proof.
  apply (normalize_rank_names_paths punct_store "s2"). reflexivity.
Defined.

Lemma translate_changes (s : string) :
  String.eqb (translate rank_invalid_chars s) s = negb (has_invalid s).
Proof.
  destruct (has_invalid s) eqn:E; cbn [negb].
  - apply String.eqb_neq. revert E. unfold has_invalid.
    induction s as [|c s IH]; [done|].
    cbn [translate list_ascii_of_string existsb]. intros H [= Hc Hs].
    apply orb_true_iff in H as [H|H]; [|by apply IH].
    unfold trantab in Hc. rewrite H in Hc. subst c. by vm_compute in H.
  - apply String.eqb_eq. by apply translate_fixed.
Qed.

Lemma normalize_path_keys (ranks : list string)
    (corr_ranks : list (string * string)) :
  corrections_ok corr_ranks ->
  (forall k, dict_mem corr_ranks k = true ->
     dict_mem (normalize_ranks_loop (seq 1 (length ranks - 1)) ranks corr_ranks).2 k
     = true) /\
  (forall j r, 1 <= j -> ranks !! j = Some r -> has_invalid r = true ->
     dict_mem (normalize_ranks_loop (seq 1 (length ranks - 1)) ranks corr_ranks).2 r
     = true) /\
  (forall k,
     dict_mem (normalize_ranks_loop (seq 1 (length ranks - 1)) ranks corr_ranks).2 k
     = true ->
     dict_mem corr_ranks k = true \/ exists j, 1 <= j /\ ranks !! j = Some k).
Proof.
  intros Hok. destruct ranks as [|r0 ranks].
  - cbn. split; [done|]. split; [|by left]. by intros j r _ Hr.
  - destruct (normalize_ranks_loop_spec (length (r0 :: ranks) - 1) 1 (r0 :: ranks)
                corr_ranks) as (_ & _ & H3 & H4 & H5); [cbn; lia|done|].
    split; [done|]. split; [|done]. intros j r Hj Hr Hbad. apply (H4 j); [done..|].
    rewrite translate_changes, Hbad. done.
Qed.

Lemma normalize_ranks_all_keys (entries : list (string * nat))
    (o : list (list string)) (corr_ranks : list (string * string)) :
  corrections_ok corr_ranks ->
  (forall k, dict_mem corr_ranks k = true ->
     dict_mem (normalize_ranks_all entries o corr_ranks).2 k = true) /\
  (forall sid a j r, (sid, a) ∈ entries -> 1 <= j -> deref o a !! j = Some r ->
     has_invalid r = true ->
     dict_mem (normalize_ranks_all entries o corr_ranks).2 r = true) /\
  (forall k, dict_mem (normalize_ranks_all entries o corr_ranks).2 k = true ->
     dict_mem corr_ranks k = true
     \/ exists sid a j, (sid, a) ∈ entries /\ 1 <= j /\ deref o a !! j = Some k).
Proof.
  revert o corr_ranks.
  induction entries as [|[sid0 a0] entries IH]; intros o corr_ranks Hok.
  - cbn [normalize_ranks_all snd]. split; [done|]. split; [|by left].
    intros sid a j r H. by apply elem_of_nil in H.
  - cbn [normalize_ranks_all].
    destruct (normalize_path (deref o a0) corr_ranks Hok) as [Hp Hok1].
    destruct (normalize_path_keys (deref o a0) corr_ranks Hok) as (K1 & K2 & K3).
    rewrite Hp.
    set (c1 := (normalize_ranks_loop _ (deref o a0) corr_ranks).2) in *.
    set (o1 := <[a0 := clean_path (deref o a0)]> o).
    destruct (IH o1 c1 Hok1) as (I1 & I2 & I3).
    destruct (normalize_ranks_all_spec entries o1 c1 Hok1) as [Hokf _].
    split; [|split].
    + intros k Hk. by apply I1, K1.
    + intros sid a j r Hin Hj Hr Hbad.
      destruct (decide (a = a0)) as [->|Hne]; [by apply I1, (K2 j)|].
      apply elem_of_cons in Hin as [[= -> ->]|Hin]; [done|].
      apply (I2 sid a j); [done..| |done].
      unfold o1. by rewrite DupScan.deref_insert_other.
    + intros k Hk. destruct (I3 k Hk) as [Hc|(sid & a & j & Hin & Hj & Hjk)].
      * destruct (K3 k Hc) as [?|(j & Hj & Hjk)]; [by left|].
        right. exists sid0, a0, j. split; [left|done].
      * right. destruct (decide (a = a0)) as [->|Hne].
        -- exists sid0, a0, j. split; [left|]. split; [done|].
           destruct (o !! a0) as [l|] eqn:El.
           ++ exfalso. unfold o1, deref in Hjk.
              rewrite list_lookup_insert_eq in Hjk by (by eapply lookup_lt_Some).
              cbn [default from_option id] in Hjk. rewrite El in Hjk.
              cbn [default from_option id] in Hjk.
              unfold clean_path in Hjk. rewrite lookup_app_r in Hjk
                by (rewrite length_take; lia).
              rewrite list_lookup_fmap in Hjk.
              destruct (drop 1 l !! _) as [r|]; [|done]. injection Hjk as <-.
              unfold dict_mem in Hk.
              destruct (dict_get _ (translate rank_invalid_chars r)) as [v|] eqn:Ev;
                [|done].
              destruct (Hokf _ _ Ev) as [-> Hv].
              rewrite translate_idem, String.eqb_refl in Hv. done.
           ++ unfold o1 in Hjk. by rewrite list_insert_ge in Hjk
                by (by apply lookup_ge_None).
        -- exists sid, a, j. split; [by right|split; [done|]].
           unfold o1 in Hjk. by rewrite DupScan.deref_insert_other in Hjk.
Qed.

(** X22. The table [normalize_rank_names] returns has a key for exactly the
    names that stood below the first position of some sequence's path and
    had one of the invalid characters. *)
Theorem normalize_rank_names_report (self : state) (name : string) :
  dict_mem (normalize_rank_names self).2 name = true
  <-> has_invalid name = true /\
      exists sid ranks j,
        (sid, ranks) ∈ items self /\ 1 <= j /\ ranks !! j = Some name.
Proof.
  unfold normalize_rank_names. cbn [snd].
  destruct (normalize_ranks_all_keys (seq_ranks_map self) (objs self) [])
    as (_ & Hin & Hout); [done|].
  destruct (normalize_ranks_all_spec (seq_ranks_map self) (objs self) [])
    as [Hok _]; [done|].
  split.
  - intros Hk. split.
    + unfold dict_mem in Hk.
      destruct (dict_get _ name) as [v|] eqn:Ev; [|done].
      destruct (Hok _ _ Ev) as [-> Hv]. rewrite translate_changes in Hv.
      by destruct (has_invalid name).
    + destruct (Hout _ Hk) as [?|(sid & a & j & Hsa & Hj & Hjk)]; [done|].
      exists sid, (deref (objs self) a), j. split; [|done].
      unfold items. apply list_elem_of_fmap. by exists (sid, a).
  - intros [Hbad (sid & ranks & j & Hit & Hj & Hjk)].
    unfold items in Hit. apply list_elem_of_fmap in Hit as ([sid' a] & [= -> ->] & Hsa).
    by apply (Hin sid' a j).
Qed.

End NormalizeNames.

(** ** [close_taxonomy_gaps]: what it keeps, and running it again *)

Module GapFrame.

Import Taxonomy Spec Examples DictFacts.

Lemma loop_step (n : nat) (ranks : list string) (last_rank : option string)
    (gap_count : nat) :
  close_gaps_loop (reverse (seq 1 (S n))) ranks last_rank gap_count
  = close_gaps_loop (S n :: reverse (seq 1 n)) ranks last_rank gap_count.
Proof. by rewrite seq_S, reverse_app. Qed.

(** The loop from position [n] down to 1 keeps the length, every position
    outside [1..n], every name that is not the marker, and puts the marker
    nowhere. *)
Lemma close_gaps_loop_frame (n : nat) (ranks : list string)
    (last_rank : option string) (gap_count : nat) :
  n < length ranks ->
  length (close_gaps_loop (reverse (seq 1 n)) ranks last_rank gap_count)
  = length ranks /\
  (forall i x, ranks !! i = Some x ->
     i = 0 \/ n < i \/ String.eqb x EMPTY_RANK = false ->
     close_gaps_loop (reverse (seq 1 n)) ranks last_rank gap_count !! i = Some x) /\
  (forall i,
     close_gaps_loop (reverse (seq 1 n)) ranks last_rank gap_count !! i
     = Some EMPTY_RANK -> ranks !! i = Some EMPTY_RANK) /\
  (truthy last_rank = false ->
   forall k, (forall j, k < j <= n -> ranks !! j = Some EMPTY_RANK) ->
   forall j, k < j <= n ->
     close_gaps_loop (reverse (seq 1 n)) ranks last_rank gap_count !! j
     = Some EMPTY_RANK).
Proof.
  revert ranks last_rank gap_count.
  induction n as [|n IH]; intros ranks last_rank gap_count Hlen.
  - cbn. split; [done|]. split; [done|]. split; [done|]. intros _ k _ j Hj. lia.
  - rewrite loop_step. cbn [close_gaps_loop].
    destruct (lookup_lt_is_Some_2 ranks (S n) Hlen) as [r Hr]. rewrite Hr.
    destruct (String.eqb r EMPTY_RANK) eqn:Er; cbn [negb].
    + apply String.eqb_eq in Er. subst r.
      destruct (truthy last_rank) eqn:Et.
      * set (filled := parent_name (S gap_count) (default "" last_rank)).
        destruct (IH (<[S n := filled]> ranks) last_rank (S gap_count))
          as (H1 & H2 & H3 & _); [rewrite length_insert; lia|].
        split; [by rewrite H1, length_insert|]. split; [|split; [|done]].
        -- intros i x Hx Hi. apply H2; [|destruct Hi as [?|[?|?]]; auto with lia].
           rewrite list_lookup_insert_ne; [done|].
           intros <-. rewrite Hr in Hx. injection Hx as <-.
           destruct Hi as [?|[?|?]]; [lia|lia|done].
        -- intros i Hi. destruct (decide (i = S n)) as [->|Hne]; [done|].
           apply H3 in Hi. by rewrite list_lookup_insert_ne in Hi.
      * destruct (IH ranks last_rank gap_count) as (H1 & H2 & H3 & H4); [lia|].
        split; [done|]. split; [|split; [done|]].
        -- intros i x Hx Hi. apply H2; [done|].
           destruct Hi as [?|[?|?]]; [by left| |by right; right].
           destruct (decide (i = S n)) as [->|Hne]; [|right; left; lia].
           rewrite Hr in Hx. injection Hx as <-. right. left. lia.
        -- intros _ k Hk j Hj. destruct (decide (j = S n)) as [->|Hne].
           ++ apply H2; [done|right; left; lia].
           ++ apply (H4 Et k); [|lia]. intros j' Hj'. apply Hk. lia.
    + destruct (IH ranks (Some r) gap_count) as (H1 & H2 & H3 & _); [lia|].
      split; [done|]. split; [|split; [done|]].
      * intros i x Hx Hi. apply H2; [done|].
        destruct Hi as [?|[?|?]]; [by left| |by right; right].
        destruct (decide (i = S n)) as [->|Hne]; [|right; left; lia].
        rewrite Hr in Hx. injection Hx as <-. by right; right.
      * intros _ k Hk j Hj. specialize (Hk (S n) ltac:(lia)).
        rewrite Hr in Hk. injection Hk as ->. by rewrite String.eqb_refl in Er.
Qed.

(** A level with the properties of the lowest assigned level is the
    lowest assigned level. *)
Lemma lowest_level_unique (ranks : list string) (k : Z) :
  (-1 <= k < Z.of_nat (length ranks))%Z ->
  (forall j, (k < Z.of_nat j)%Z -> j < length ranks ->
     ranks !! j = Some EMPTY_RANK) ->
  ((0 <= k)%Z -> assigned_at ranks (Z.to_nat k)) ->
  lowest_assigned_rank_level ranks = k.
Proof.
  induction ranks as [|x ranks IH] using rev_ind; intros Hk Hup Hat.
  - cbn in *. lia.
  - rewrite PathFacts.lowest_level_snoc. rewrite length_app in Hk, Hup.
    cbn [length] in Hk, Hup.
    destruct (String.eqb x EMPTY_RANK) eqn:Ex.
    + assert (Hlt : (k < Z.of_nat (length ranks))%Z).
      { destruct (Z.lt_ge_cases k (Z.of_nat (length ranks))) as [?|Hge]; [done|].
        destruct (Hat ltac:(lia)) as (y & Hy & Hye).
        replace (Z.to_nat k) with (length ranks) in Hy by lia.
        rewrite lookup_app_r, Nat.sub_diag in Hy by lia. injection Hy as <-.
        congruence. }
      apply IH; [lia| |].
      * intros j Hj Hjl. specialize (Hup j Hj ltac:(lia)).
        by rewrite lookup_app_l in Hup by lia.
      * intros H0. destruct (Hat H0) as (y & Hy & Hye). exists y. split; [|done].
        by rewrite lookup_app_l in Hy by lia.
    + destruct (Z.lt_ge_cases k (Z.of_nat (length ranks))) as [Hlt|Hge]; [|lia].
      specialize (Hup (length ranks) Hlt ltac:(lia)).
      rewrite lookup_app_r, Nat.sub_diag in Hup by lia. injection Hup as ->.
      done.
Qed.

(** X23. Closing the gaps of a path keeps its length, its first name and
    every name that is not the marker; it writes the marker nowhere; and
    the markers below the last assigned name stay, so the lowest assigned
    level is the same afterwards. *)
Theorem close_gaps_keeps_names (ranks : list string) :
  length (close_gaps ranks) = length ranks /\
  close_gaps ranks !! 0 = ranks !! 0 /\
  (forall i x, ranks !! i = Some x -> String.eqb x EMPTY_RANK = false ->
     close_gaps ranks !! i = Some x) /\
  (forall i, close_gaps ranks !! i = Some EMPTY_RANK ->
     ranks !! i = Some EMPTY_RANK) /\
  lowest_assigned_rank_level (close_gaps ranks)
  = lowest_assigned_rank_level ranks.
Proof.
  destruct ranks as [|r0 ranks]; [done|]. unfold close_gaps.
  destruct (close_gaps_loop_frame (length (r0 :: ranks) - 1) (r0 :: ranks) None 0)
    as (H1 & H2 & H3 & H4); [cbn; lia|].
  set (res := close_gaps_loop _ (r0 :: ranks) None 0) in *.
  split; [done|]. split; [by apply H2; [|left]|]. split; [by intros; apply H2; auto|].
  split; [done|].
  assert (Hb : (-1 <= lowest_assigned_rank_level (r0 :: ranks)
                  < Z.of_nat (length (r0 :: ranks)))%Z)
    by apply RankUid.lowest_from_bounds.
  pose proof (PathFacts.lowest_level_above (r0 :: ranks)) as Hup.
  assert (Hat : (0 <= lowest_assigned_rank_level (r0 :: ranks))%Z ->
                assigned_at (r0 :: ranks)
                  (Z.to_nat (lowest_assigned_rank_level (r0 :: ranks))))
    by (intros H; by apply Build.lowest_from_assigned).
  set (k := lowest_assigned_rank_level (r0 :: ranks)) in *.
  apply lowest_level_unique.
  - by rewrite H1.
  - intros j Hj Hjl. rewrite H1 in Hjl.
    destruct (decide (j = 0)) as [->|Hj0].
    + destruct (lookup_lt_is_Some_2 (r0 :: ranks) 0 ltac:(cbn; lia)) as [x Hx].
      rewrite (H2 0 x Hx) by (by left). f_equal. by eapply (Hup 0).
    + apply (H4 eq_refl (Z.to_nat k)); [|cbn [length] in *; lia].
      intros j' Hj'. destruct (lookup_lt_is_Some_2 (r0 :: ranks) j') as [x Hx];
        [cbn [length] in *; lia|].
      rewrite Hx. f_equal. eapply (Hup j'); [|done]. lia.
  - intros H0. destruct (Hat H0) as (x & Hx & Hxe). exists x. split; [|done].
    apply H2; [done|by right; right].
Qed.

(** The loop run again on its own result changes nothing, whatever name is
    remembered at the start, as long as a name was remembered the first
    time if one is the second time. *)
Lemma close_gaps_loop_again (n : nat) (ranks : list string)
    (last_rank last_rank' : option string) (gap_count gap_count' : nat) :
  n < length ranks ->
  (truthy last_rank' = true -> truthy last_rank = true) ->
  close_gaps_loop (reverse (seq 1 n))
    (close_gaps_loop (reverse (seq 1 n)) ranks last_rank gap_count)
    last_rank' gap_count'
  = close_gaps_loop (reverse (seq 1 n)) ranks last_rank gap_count.
Proof.
  revert ranks last_rank last_rank' gap_count gap_count'.
  induction n as [|n IH]; intros ranks last_rank last_rank' gap_count gap_count'
    Hlen Ht; [done|].
  rewrite !loop_step. cbn [close_gaps_loop].
  destruct (lookup_lt_is_Some_2 ranks (S n) Hlen) as [r Hr]. rewrite Hr.
  destruct (String.eqb r EMPTY_RANK) eqn:Er; cbn [negb].
  - apply String.eqb_eq in Er. subst r. destruct (truthy last_rank) eqn:Et.
    + set (filled := parent_name (S gap_count) (default "" last_rank)).
      set (ranks1 := <[S n := filled]> ranks).
      assert (Hlen1 : n < length ranks1) by (unfold ranks1; rewrite length_insert; lia).
      destruct (close_gaps_loop_frame n ranks1 last_rank (S gap_count) Hlen1)
        as (_ & H2 & _).
      rewrite (H2 (S n) filled);
        [|unfold ranks1; apply list_lookup_insert_eq; lia|right; left; lia].
      assert (Ef : String.eqb filled EMPTY_RANK = false)
        by apply GapClosing.parent_name_not_marker.
      rewrite Ef. cbn [negb].
      apply IH; [done|]. intros _. done.
    + destruct (close_gaps_loop_frame n ranks last_rank gap_count ltac:(lia))
        as (_ & H2 & _).
      rewrite (H2 (S n) EMPTY_RANK Hr) by (right; left; lia).
      change (String.eqb EMPTY_RANK EMPTY_RANK) with true. cbn [negb].
      destruct (truthy last_rank') eqn:Et'; [specialize (Ht eq_refl); congruence|].
      apply IH; [lia|intros H; congruence].
  - destruct (close_gaps_loop_frame n ranks (Some r) gap_count ltac:(lia))
      as (_ & H2 & _).
    rewrite (H2 (S n) r Hr) by (right; left; lia). rewrite Er. cbn [negb].
    apply IH; [lia|done].
Qed.

Lemma close_gaps_idem (ranks : list string) :
  close_gaps (close_gaps ranks) = close_gaps ranks.
Proof.
  destruct ranks as [|r0 ranks]; [done|]. unfold close_gaps at 1 3.
  destruct (close_gaps_loop_frame (length (r0 :: ranks) - 1) (r0 :: ranks) None 0)
    as [Hlen _]; [cbn; lia|].
  fold (close_gaps (r0 :: ranks)) in Hlen. rewrite Hlen.
  apply close_gaps_loop_again; [cbn; lia|done].
Qed.

(** The outer loop: every list object the dictionary reaches has its gaps
    closed; one that several identifiers share is gone over once for each
    of them, to the same effect. *)
Lemma close_gaps_all_spec (entries : list (string * nat))
    (o : list (list string)) (a : nat) :
  close_gaps_all entries o !! a
  = if decide (a ∈ entries.*2) then close_gaps <$> o !! a else o !! a.
Proof.
  revert o. induction entries as [|[sid a0] entries IH]; intros o.
  - cbn. by rewrite decide_False by apply not_elem_of_nil.
  - cbn [close_gaps_all]. rewrite IH, fmap_cons. cbn [snd].
    destruct (decide (a = a0)) as [->|Hne].
    + rewrite (decide_True (P := a0 ∈ a0 :: _)) by left.
      destruct (o !! a0) as [l|] eqn:El.
      * rewrite list_lookup_insert_eq by (by eapply lookup_lt_Some).
        unfold deref. rewrite El.
        cbn [default from_option id fmap option_fmap option_map].
        destruct (decide (a0 ∈ entries.*2)); [|done].
        cbn [fmap option_fmap option_map]. by rewrite close_gaps_idem.
      * rewrite list_insert_ge by (by apply lookup_ge_None). rewrite El.
        by destruct (decide (a0 ∈ entries.*2)).
    + rewrite list_lookup_insert_ne by done.
      destruct (decide (a ∈ entries.*2)) as [Hin|Hin].
      * by rewrite decide_True by (by right).
      * rewrite decide_False; [done|]. rewrite not_elem_of_cons. by split.
Qed.

(** X24. After [close_taxonomy_gaps] every sequence has the path it had
    with the gaps closed, also when several sequences share one list (as
    after [merge_ranks]); the reverse index is left as it was. *)
Theorem close_taxonomy_gaps_paths (self : state) (sid : string)
    (ranks : list string) :
  ranks_of self sid = Some ranks ->
  ranks_of (close_taxonomy_gaps self) sid = Some (close_gaps ranks) /\
  rank_seqs_map (close_taxonomy_gaps self) = rank_seqs_map self.
Proof.
  intros Hr. split; [|done]. unfold ranks_of, close_taxonomy_gaps in *.
  cbn [seq_ranks_map objs with_objs].
  destruct (dict_get (seq_ranks_map self) sid) as [a|] eqn:Ea; [|done].
  cbn [mbind option_bind] in *. rewrite close_gaps_all_spec, Hr.
  rewrite decide_True; [done|]. apply dict_get_Some_elem in Ea.
  apply list_elem_of_fmap. by exists (sid, a).
Qed.

Lemma close_taxonomy_gaps_paths_witness :
  ranks_of (close_taxonomy_gaps shared_gap_store) "s2"
  = Some (close_gaps ["A"; "-"; "-"; "x"; "-"]) /\
  rank_seqs_map (close_taxonomy_gaps shared_gap_store)
  = [("A@@-@@-@@x", ["s1"; "s2"])].
Proof. apply (close_taxonomy_gaps_paths shared_gap_store "s2"). reflexivity. Defined.

(** X25. Closing the gaps twice is closing them once, for a path and for a
    store. *)
Theorem close_taxonomy_gaps_idempotent (self : state) (ranks : list string) :
  close_gaps (close_gaps ranks) = close_gaps ranks /\
  close_taxonomy_gaps (close_taxonomy_gaps self) = close_taxonomy_gaps self.
Proof.
  split; [apply close_gaps_idem|].
  unfold close_taxonomy_gaps. destruct self as [p o m rsm].
  cbn [with_objs prefix objs seq_ranks_map rank_seqs_map]. f_equal.
  apply list_eq. intros a. rewrite !close_gaps_all_spec.
  destruct (decide (a ∈ m.*2)); [|done].
  destruct (o !! a) as [l|]; [|done].
  cbn [fmap option_fmap option_map]. by rewrite close_gaps_idem.
Qed.

(** The store of [close_taxonomy_gaps_no_gap] at work: two identifiers
    share a path with a gap above the name [x]. *)
Lemma close_taxonomy_gaps_no_gap_witness :
  has_gap ["A"; "parent2_x"; "parent1_x"; "x"; "-"] = false.
Proof.
  apply (GapClosing.close_taxonomy_gaps_no_gap shared_gap_store "s2").
  - reflexivity.
  - repeat constructor.
  - reflexivity.
Defined.

End GapFrame.

(** ** The tree that [build] makes *)

Module BuildTree.

Import Taxonomy TaxTreeBuilder Spec Examples DictFacts.

Ltac py_simpl :=
  cbn [mbind mret result_bind result_ret bind option_bind].
Ltac py_simpl_in H :=
  cbn [mbind mret result_bind result_ret bind option_bind] in H.

(** One call of [add_tree_node], taken apart: the parent is the memoised
    node or the node a recursive call has made and memoised, and the new
    node is appended under it. *)
Lemma add_tree_node_inv depth b nodeId ranks rank_level b' n :
  add_tree_node depth b nodeId ranks rank_level = Ok (b', n) ->
  exists parentId b1 pn,
    ((b1 = b /\ dict_get (tree_nodes b) parentId = Some pn) \/
     (exists d b0 lvl,
        depth = S d /\ add_tree_node d b parentId ranks lvl = Ok (b0, pn) /\
        b1 = mkBuilder (nodes b0) (dict_set (tree_nodes b0) parentId pn)
               (leaf_count b0) (seq_ids b0))) /\
    b' = mkBuilder (nodes b1 ++ [(nodeId, Some pn)]) (tree_nodes b1)
           (leaf_count b1) (seq_ids b1) /\
    n = length (nodes b1).
Proof.
  intros Hrun. destruct depth as [|depth]; cbn [add_tree_node] in Hrun.
  - destruct (0 <=? rank_level)%Z.
    + destruct (skip_empty ranks rank_level) as [pl0|]; [|done]. py_simpl_in Hrun.
      destruct (dict_get (tree_nodes b) (get_rank_uid ranks pl0)) as [pn|] eqn:Eget;
        [|done].
      py_simpl_in Hrun. injection Hrun as <- <-.
      exists (get_rank_uid ranks pl0), b, pn. split; [by left|done].
    + py_simpl_in Hrun.
      destruct (dict_get (tree_nodes b) ROOT_LABEL) as [pn|] eqn:Eget; [|done].
      py_simpl_in Hrun. injection Hrun as <- <-.
      exists ROOT_LABEL, b, pn. split; [by left|done].
  - destruct (0 <=? rank_level)%Z.
    + destruct (skip_empty ranks rank_level) as [pl0|]; [|done]. py_simpl_in Hrun.
      destruct (dict_get (tree_nodes b) (get_rank_uid ranks pl0)) as [pn|] eqn:Eget.
      * py_simpl_in Hrun. injection Hrun as <- <-.
        exists (get_rank_uid ranks pl0), b, pn. split; [by left|done].
      * destruct (add_tree_node depth b _ ranks (pl0 - 1)) as [[b0 n0]|] eqn:Erec;
          [|done].
        py_simpl_in Hrun. injection Hrun as <- <-.
        exists (get_rank_uid ranks pl0),
          (mkBuilder (nodes b0)
             (dict_set (tree_nodes b0) (get_rank_uid ranks pl0) n0)
             (leaf_count b0) (seq_ids b0)), n0.
        split; [|done]. right. by exists depth, b0, (pl0 - 1)%Z.
    + py_simpl_in Hrun.
      destruct (dict_get (tree_nodes b) ROOT_LABEL) as [pn|] eqn:Eget.
      * py_simpl_in Hrun. injection Hrun as <- <-.
        exists ROOT_LABEL, b, pn. split; [by left|done].
      * destruct (add_tree_node depth b _ ranks (-1 - 1)) as [[b0 n0]|] eqn:Erec;
          [|done].
        py_simpl_in Hrun. injection Hrun as <- <-.
        exists ROOT_LABEL,
          (mkBuilder (nodes b0) (dict_set (tree_nodes b0) ROOT_LABEL n0)
             (leaf_count b0) (seq_ids b0)), n0.
        split; [|done]. right. by exists depth, b0, (-1 - 1)%Z.
Qed.

Lemma tree_wf_snoc nodes name p :
  tree_wf nodes -> p < length nodes -> tree_wf (nodes ++ [(name, Some p)]).
Proof.
  intros [Hroot Hpar] Hp. split.
  - rewrite lookup_app_l; [done|]. by eapply lookup_lt_Some.
  - intros i nm parent Hi Hl. destruct (decide (i < length nodes)) as [Hlt|Hge].
    + rewrite lookup_app_l in Hl by done. by eapply Hpar.
    + rewrite lookup_app_r in Hl by lia.
      destruct (i - length nodes) as [|k] eqn:Ek; [|by destruct k].
      injection Hl as <- <-. exists p. split; [done|lia].
Qed.

Lemma add_tree_node_tree depth b nodeId ranks rank_level b' n :
  add_tree_node depth b nodeId ranks rank_level = Ok (b', n) ->
  tree_wf (nodes b) -> memo_named b ->
  tree_wf (nodes b') /\ memo_named b' /\
  (exists p, nodes b' !! n = Some (nodeId, Some p)).
Proof.
  revert b nodeId rank_level b' n.
  induction depth as [|depth IH]; intros b nodeId rank_level b' n Hrun Hwf Hmemo;
    apply add_tree_node_inv in Hrun
      as (parentId & b1 & pn & Hpar & -> & ->); cbn [nodes tree_nodes].
  - destruct Hpar as [[-> Hget]|(d & ? & ? & [=] & _)].
    destruct (Hmemo _ _ Hget) as [parent Hn].
    split; [apply tree_wf_snoc; [done|by eapply lookup_lt_Some]|]. split.
    + intros k m Hk. destruct (Hmemo _ _ Hk) as [pa Hm]. exists pa.
      cbn [nodes]. rewrite lookup_app_l; [done|]. by eapply lookup_lt_Some.
    + exists pn. by rewrite lookup_app_r, Nat.sub_diag by lia.
  - assert (H1 : tree_wf (nodes b1) /\ memo_named b1 /\
                 exists parent, nodes b1 !! pn = Some (parentId, parent)).
    { destruct Hpar as [[-> Hget]|(d & b0 & lvl & [= <-] & Hrec & ->)].
      - split; [done|]. split; [done|]. by apply Hmemo.
      - destruct (IH _ _ _ _ _ Hrec Hwf Hmemo) as (Hwf0 & Hmemo0 & [p Hp]).
        cbn [nodes tree_nodes]. split; [done|]. split; [|by eexists].
        intros k m Hk. cbn [tree_nodes nodes] in Hk |- *.
        destruct (decide (parentId = k)) as [<-|Hne].
        + rewrite dict_get_set_eq in Hk. injection Hk as <-. by eexists.
        + rewrite dict_get_set_ne in Hk by done. by apply Hmemo0. }
    destruct H1 as (Hwf1 & Hmemo1 & [parent Hpn]).
    split; [apply tree_wf_snoc; [done|by eapply lookup_lt_Some]|]. split.
    + intros k m Hk. destruct (Hmemo1 _ _ Hk) as [pa Hm]. exists pa.
      cbn [nodes]. rewrite lookup_app_l; [done|]. by eapply lookup_lt_Some.
    + exists pn. by rewrite lookup_app_r, Nat.sub_diag by lia.
Qed.

Lemma build_step_tree cfg b e b' :
  build_step cfg b e = Ok b' ->
  tree_wf (nodes b) -> memo_named b -> leaves_in_tree (nodes b) (seq_ids b) ->
  tree_wf (nodes b') /\ memo_named b' /\ leaves_in_tree (nodes b') (seq_ids b').
Proof.
  intros Hrun Hwf Hmemo Hleaves. destruct e as [sid ranks].
  unfold build_step in Hrun.
  destruct (getitem ranks (min_rank cfg)) as [r|]; [|done]. py_simpl_in Hrun.
  destruct (String.eqb r EMPTY_RANK); [by injection Hrun as <-|].
  destruct (clade_is_ok cfg ranks) as [ok|]; [|done]. py_simpl_in Hrun.
  destruct ok; cbn [negb] in Hrun; [|by injection Hrun as <-].
  destruct (skip_empty ranks _) as [pl|]; [|done]. py_simpl_in Hrun.
  destruct (over_quota _ _ _ _ _); [by injection Hrun as <-|].
  destruct (add_tree_node _ _ _ _ _) as [[b2 n]|] eqn:Eadd; [|done].
  py_simpl_in Hrun. injection Hrun as <-. cbn [nodes tree_nodes seq_ids].
  destruct (add_tree_node_tree _ _ _ _ _ _ _ Eadd Hwf Hmemo) as (Hwf2 & Hmemo2 & [p Hp]).
  destruct (Build.add_tree_node_facts _ _ _ _ _ _ _ Eadd)
    as (_ & Hids & _ & _ & [extra Hnodes]).
  cbn [nodes seq_ids] in Hids, Hnodes.
  split; [done|]. split; [done|]. intros x Hx. rewrite Hids in Hx.
  apply elem_of_app in Hx as [Hx|Hx].
  - destruct (Hleaves _ Hx) as (i & q & Hi). exists i, q. rewrite Hnodes.
    rewrite lookup_app_l; [done|]. by eapply lookup_lt_Some.
  - apply list_elem_of_singleton in Hx as ->. by exists n, p.
Qed.

Lemma build_loop_tree cfg entries b b' :
  build_loop cfg entries b = Ok b' ->
  tree_wf (nodes b) -> memo_named b -> leaves_in_tree (nodes b) (seq_ids b) ->
  tree_wf (nodes b') /\ memo_named b' /\ leaves_in_tree (nodes b') (seq_ids b').
Proof.
  revert b. induction entries as [|e entries IH]; intros b Hrun Hwf Hmemo Hl.
  - by injection Hrun as <-.
  - cbn [build_loop] in Hrun.
    destruct (build_step cfg b e) as [b1|] eqn:Estep; [|done]. py_simpl_in Hrun.
    destruct (build_step_tree _ _ _ _ Estep Hwf Hmemo Hl) as (H1 & H2 & H3).
    by apply (IH b1).
Qed.

(** X26. What [build] returns (before pruning) is a tree: its first node is
    the root [<<root>>], every other node hangs under a node made before
    it, and every accepted identifier is the name of a node below the
    root. *)
Theorem build_tree_wf (cfg : config) (taxonomy : state)
    (tree : list (string * option nat)) (ids : list string) :
  build cfg taxonomy = Ok (tree, ids) ->
  tree_wf tree /\ leaves_in_tree tree ids.
Proof.
  unfold build. intros Hrun.
  destruct (build_loop cfg (items taxonomy) start) as [b|] eqn:Eloop; [|done].
  py_simpl_in Hrun. injection Hrun as <- <-.
  destruct (build_loop_tree _ _ _ _ Eloop) as (H1 & _ & H3); [| | |by split].
  - split; [done|]. intros i name parent Hi Hl. cbn in Hl.
    destruct i; [lia|done].
  - intros k n Hk. change (tree_nodes start) with [(ROOT_LABEL, 0)] in Hk.
    cbn [dict_get] in Hk. destruct (String.eqb ROOT_LABEL k) eqn:E; [|done].
    apply String.eqb_eq in E as <-. injection Hk as <-. by eexists.
  - intros sid Hs. by apply elem_of_nil in Hs.
Qed.

Lemma build_tree_wf_witness :
  tree_wf quota_tree /\ leaves_in_tree quota_tree ["s1"; "s3"; "s4"; "s6"].
Proof. apply (build_tree_wf quota_cfg quota_store). reflexivity. Defined.

(** [Build.build_returns] on the store and the configuration of the quota
    example. *)
Lemma build_returns_witness : returns (build quota_cfg quota_store) = true.
Proof. apply Build.build_returns. reflexivity. Defined.

End BuildTree.

(** ** Lineage strings and the reports of the two checks *)

Module Reports.

Import Taxonomy Spec Examples DictFacts StringFacts.

Ltac py_simpl :=
  cbn [mbind mret result_bind result_ret bind option_bind].
Ltac py_simpl_in H :=
  cbn [mbind mret result_bind result_ret bind option_bind] in H.

(** *** [strip] *)

Lemma rev_app_append (s1 s2 : string) :
  String.rev_app s1 s2 = String.rev s1 +:+ s2.
Proof.
  unfold String.rev. revert s2. induction s1 as [|a s1 IH]; intros s2; [done|].
  cbn [String.rev_app]. rewrite IH, (IH (String a "")). by rewrite append_assoc.
Qed.

Lemma rev_cons (a : ascii) (s : string) :
  String.rev (String a s) = String.rev s +:+ String a "".
Proof. unfold String.rev at 1. cbn [String.rev_app]. apply rev_app_append. Qed.

Lemma rev_append (s1 s2 : string) :
  String.rev (s1 +:+ s2) = String.rev s2 +:+ String.rev s1.
Proof.
  induction s1 as [|a s1 IH].
  - by rewrite append_nil, append_empty_r.
  - rewrite append_cons, !rev_cons, IH. by rewrite append_assoc.
Qed.

Lemma rev_involutive (s : string) : String.rev (String.rev s) = s.
Proof.
  induction s as [|a s IH]; [done|]. rewrite rev_cons, rev_append, IH. done.
Qed.

Lemma lstrip_no_prefix (c : ascii) (s : string) :
  String.prefix (String c "") (lstrip c s) = false.
Proof.
  induction s as [|d s IH]; [done|]. cbn [lstrip].
  destruct (Ascii.eqb c d) eqn:E; [done|]. cbn [String.prefix].
  destruct (ascii_dec c d) as [->|]; [|done]. by rewrite Ascii.eqb_refl in E.
Qed.

Lemma lstrip_suffix (c : ascii) (s : string) :
  exists p, s = p +:+ lstrip c s.
Proof.
  induction s as [|d s [p IH]]; [by exists ""|]. cbn [lstrip].
  destruct (Ascii.eqb c d); [|by exists ""].
  exists (String d p). rewrite append_cons. by f_equal.
Qed.

Lemma endswith_cons (a d c : ascii) (r : string) :
  endswith (String a (String d r)) (String c "")
  = endswith (String d r) (String c "").
Proof.
  unfold endswith. cbn [String.length].
  replace (1 <=? S (S (String.length r))) with true
    by (symmetry; apply Nat.leb_le; lia).
  replace (1 <=? S (String.length r)) with true
    by (symmetry; apply Nat.leb_le; lia).
  replace (S (S (String.length r)) - 1) with (S (String.length r)) by lia.
  replace (S (String.length r) - 1) with (String.length r) by lia.
  reflexivity.
Qed.

Lemma endswith_snoc (s : string) (d c : ascii) :
  endswith (s +:+ String d "") (String c "") = Ascii.eqb d c.
Proof.
  induction s as [|a s IH].
  - rewrite append_nil. unfold endswith. cbn.
    destruct (Ascii.eqb d c); reflexivity.
  - rewrite append_cons. destruct s as [|b s].
    + rewrite append_nil in *. by rewrite endswith_cons.
    + rewrite append_cons in *. by rewrite endswith_cons.
Qed.

Lemma endswith_rev (c : ascii) (w : string) :
  endswith (String.rev w) (String c "") = String.prefix (String c "") w.
Proof.
  destruct w as [|d w]; [done|]. rewrite rev_cons, endswith_snoc.
  cbn [String.prefix]. destruct (ascii_dec c d) as [->|Hne].
  - rewrite Ascii.eqb_refl. by destruct w.
  - apply Ascii.eqb_neq. congruence.
Qed.

Lemma prefix_append (c : ascii) (a b : string) :
  a <> "" -> String.prefix (String c "") (a +:+ b) = String.prefix (String c "") a.
Proof.
  intros Hne. destruct a as [|d a]; [done|]. rewrite append_cons.
  cbn [String.prefix]. destruct (ascii_dec c d); [|done].
  by destruct a, b.
Qed.

Lemma strip_no_outer (c : ascii) (s : string) :
  String.prefix (String c "") (strip c s) = false /\
  endswith (strip c s) (String c "") = false.
Proof.
  unfold strip. set (t := lstrip c s).
  destruct (lstrip_suffix c (String.rev t)) as [p Hp].
  set (w := lstrip c (String.rev t)) in *. split.
  - destruct (String.rev w) as [|d r] eqn:Ew; [done|].
    assert (Ht : t = String.rev w +:+ String.rev p).
    { rewrite <- rev_append, <- Hp. by rewrite rev_involutive. }
    pose proof (lstrip_no_prefix c s) as Hs. fold t in Hs.
    rewrite Ht, prefix_append in Hs by (by rewrite Ew). by rewrite Ew in Hs.
  - rewrite endswith_rev. apply lstrip_no_prefix.
Qed.

Lemma lstrip_snoc (c : ascii) (s : string) :
  lstrip c (s +:+ String c "")
  = if String.eqb (lstrip c s) "" then "" else lstrip c s +:+ String c "".
Proof.
  induction s as [|d s IH].
  - rewrite append_nil. cbn [lstrip String.eqb]. by rewrite Ascii.eqb_refl.
  - rewrite append_cons. cbn [lstrip]. destruct (Ascii.eqb c d); [done|].
    by rewrite append_cons.
Qed.

Lemma strip_snoc (c : ascii) (s : string) :
  strip c (s +:+ String c "") = strip c s.
Proof.
  unfold strip. rewrite lstrip_snoc.
  destruct (lstrip c s) as [|d t]; [done|].
  cbn [String.eqb]. rewrite rev_append.
  change (String.rev (String c "")) with (String c "").
  rewrite append_cons, append_nil. cbn [lstrip]. by rewrite Ascii.eqb_refl.
Qed.

(** X27. A lineage string never begins or ends with the separator [;], and
    empty names at either end of the path leave no trace in it: the string
    does not tell how many levels the path had. *)
Theorem lineage_str_no_outer_delim (ranks : list string) :
  String.prefix ";" (lineage_str ranks) = false /\
  endswith (lineage_str ranks) ";" = false /\
  lineage_str ("" :: ranks) = lineage_str ranks /\
  lineage_str (ranks ++ [""]) = lineage_str ranks.
Proof.
  unfold lineage_str.
  destruct (strip_no_outer ";" (join ";" ranks)) as [H1 H2].
  split; [exact H1|]. split; [exact H2|]. split.
  - destruct ranks as [|r ranks]; [done|].
    rewrite PathFacts.join_cons by done. rewrite append_nil.
    unfold strip. by rewrite append_cons, append_nil.
  - destruct ranks as [|r ranks]; [done|].
    assert (Hj : forall l x, join ";" (x :: l ++ [""]) = join ";" (x :: l) +:+ ";").
    { clear. induction l as [|y l IH]; intros x.
      - cbn. by rewrite append_empty_r.
      - change ((y :: l) ++ [""]) with (y :: l ++ [""]).
        rewrite !(PathFacts.join_cons _ x) by done.
        rewrite IH. by rewrite !append_assoc. }
    change ((r :: ranks) ++ [""]) with (r :: ranks ++ [""]).
    rewrite Hj. apply strip_snoc.
Qed.

(** *** [check_for_disbalance] in report-only mode *)

Lemma disbalance_loop_report (entries : list (string * nat)) (self : state)
    (errs : list (list string)) :
  disbalance_loop false entries self errs
  = (self,
     errs ++ ((fun e => [e.1; lineage_str (chars e.1)])
                <$> filter (fun e => 7 < length (deref (objs self) e.2)) entries)).
Proof.
  revert errs. induction entries as [|[sid a] entries IH]; intros errs.
  - cbn. by rewrite app_nil_r.
  - cbn [disbalance_loop]. rewrite filter_cons. cbn [snd].
    destruct (7 <? length (deref (objs self) a)) eqn:E.
    + apply Nat.ltb_lt in E. rewrite decide_True by done.
      rewrite IH, fmap_cons, <- app_assoc. done.
    + apply Nat.ltb_ge in E. rewrite decide_False by lia. apply IH.
Qed.

(** X28. [check_for_disbalance(autofix=False)] leaves the store as it is and
    reports, in the order of iteration, one record for every sequence
    whose path has more than seven levels; the second field of the record is
    [lineage_str] applied to the identifier, not to the path. *)
Theorem check_for_disbalance_detect_report (self : state) :
  check_for_disbalance self false
  = (self,
     (fun e => [e.1; lineage_str (chars e.1)])
       <$> filter (fun e => 7 < length e.2) (items self)).
Proof.
  unfold check_for_disbalance. rewrite disbalance_loop_report, app_nil_l.
  f_equal. unfold items.
  induction (seq_ranks_map self) as [|[sid a] entries IH]; [done|].
  rewrite fmap_cons, !filter_cons. cbn [fst snd].
  destruct (decide (7 < length (deref (objs self) a))).
  - rewrite !fmap_cons. cbn [fst]. by rewrite IH.
  - apply IH.
Qed.

(** *** [check_for_duplicates] *)

(** What one step of the scan does to the local variables of the pass:
    it stops, registers the name, goes on unchanged, or appends one record
    (in autofix mode with the bookkeeping of the rewritten sequences). *)
Lemma dup_step_cases self autofix sid a i st r :
  dup_step self autofix sid a i st = Ok r ->
  r = None \/ r = Some st \/
  (exists name,
     r = Some (mkDup (d_objs st) (dict_set (parent_map st) name sid) (dups st)
                 (old_fixed st) (old_ranks st))) \/
  (exists old_sid name o2 fixmap rkmap rec,
     dict_get (parent_map st) name = Some old_sid /\
     r = Some (mkDup o2 (parent_map st) (dups st ++ [rec]) fixmap rkmap) /\
     length rec = (if autofix then 5 else 4) /\
     rec !! 0 = Some old_sid /\ rec !! 2 = Some sid /\
     (forall k, dict_mem fixmap k = true ->
        dict_mem (old_fixed st) k = true \/ k = old_sid)).
Proof.
  intros Hstep. unfold dup_step in Hstep.
  destruct (deref (d_objs st) a !! i) as [ranks_i|]; [|done].
  destruct (String.eqb ranks_i EMPTY_RANK); [injection Hstep as <-; by left|].
  destruct (getitem _ _) as [parent|]; [|done]. py_simpl_in Hstep.
  destruct (dict_get (parent_map st) ranks_i) as [old_sid|] eqn:Epm;
    [|injection Hstep as <-; right; right; left; by eexists].
  destruct (get_seq_ranks self old_sid) as [oa|]; [|done]. py_simpl_in Hstep.
  destruct (getitem _ _) as [old_parent|]; [|done]. py_simpl_in Hstep.
  destruct (negb (String.eqb old_parent parent));
    [|injection Hstep as <-; right; by left].
  right; right; right. destruct autofix.
  2:{ injection Hstep as <-. exists old_sid, ranks_i. do 4 eexists.
      split; [done|]. split; [done|]. split; [done|]. split; [done|].
      split; [done|]. intros k Hk. by left. }
  destruct (negb (dict_mem (old_fixed st) old_sid)) eqn:Emem.
  - cbn [fst snd] in Hstep.
    destruct (dict_get (dict_set (old_ranks st) old_sid []) old_sid) as [fixed|];
      [|done].
    py_simpl_in Hstep.
    destruct (if negb (bool_decide (i ∈ fixed)) then _ else _) as [[o1 rk1]|];
      [|done].
    py_simpl_in Hstep.
    destruct (dict_get (seq_ranks_map self) sid) as [sa|]; [|done].
    py_simpl_in Hstep. destruct (getitem _ _) as [cur|]; [|done].
    py_simpl_in Hstep. destruct (setitem _ _ _) as [l2|]; [|done].
    py_simpl_in Hstep. injection Hstep as <-.
    exists old_sid, ranks_i. do 4 eexists.
    split; [done|]. split; [done|]. split; [done|]. split; [done|].
    split; [done|]. intros k Hk. unfold dict_mem in *.
    destruct (decide (old_sid = k)) as [<-|Hne]; [by right|].
    rewrite dict_get_set_ne in Hk by done. by left.
  - cbn [fst snd] in Hstep.
    destruct (dict_get (old_ranks st) old_sid) as [fixed|]; [|done].
    py_simpl_in Hstep.
    destruct (if negb (bool_decide (i ∈ fixed)) then _ else _) as [[o1 rk1]|];
      [|done].
    py_simpl_in Hstep.
    destruct (dict_get (seq_ranks_map self) sid) as [sa|]; [|done].
    py_simpl_in Hstep. destruct (getitem _ _) as [cur|]; [|done].
    py_simpl_in Hstep. destruct (setitem _ _ _) as [l2|]; [|done].
    py_simpl_in Hstep. injection Hstep as <-.
    exists old_sid, ranks_i. do 4 eexists.
    split; [done|]. split; [done|]. split; [done|]. split; [done|].
    split; [done|]. intros k Hk. by left.
Qed.

Lemma dup_step_named self autofix sid a i st st' :
  dict_mem (seq_ranks_map self) sid = true ->
  dup_state_named self autofix st ->
  dup_step self autofix sid a i st = Ok (Some st') ->
  dup_state_named self autofix st'.
Proof.
  intros Hsid (Hpm & Hfx & Hrec) Hstep.
  apply dup_step_cases in Hstep
    as [?|[[= ->]|[(name & [= ->])
       |(old_sid & name & o2 & fixmap & rkmap & rec & Hget & [= ->] & Hlen & H0 & H2 & Hfm)]]];
    [done|done| |].
  - split; [|by split]. cbn [parent_map]. intros nm s Hnm.
    destruct (decide (name = nm)) as [<-|Hne].
    + rewrite dict_get_set_eq in Hnm. by injection Hnm as <-.
    + rewrite dict_get_set_ne in Hnm by done. by eapply Hpm.
  - pose proof (Hpm _ _ Hget) as Hold. split; [done|]. split.
    + cbn [old_fixed]. intros k Hk. destruct (Hfm k Hk) as [?| ->]; [by apply Hfx|done].
    + cbn [dups]. apply Forall_app. split; [done|]. constructor; [|constructor].
      split; [done|]. by exists old_sid, sid.
Qed.

Lemma dup_scan_named self autofix sid a positions st st' :
  dict_mem (seq_ranks_map self) sid = true ->
  dup_state_named self autofix st ->
  dup_scan self autofix sid a positions st = Ok st' ->
  dup_state_named self autofix st'.
Proof.
  intros Hsid. revert st. induction positions as [|i positions IH]; intros st Hn Hrun.
  - by injection Hrun as <-.
  - cbn [dup_scan] in Hrun.
    destruct (dup_step self autofix sid a i st) as [[st1|]|] eqn:E; [| |done];
      py_simpl_in Hrun; [|by injection Hrun as <-].
    apply (IH st1); [|done]. by eapply dup_step_named.
Qed.

Lemma dup_scan_kingdom self autofix sid a positions st st' b :
  Forall (fun i => i <> 0) positions ->
  dup_scan self autofix sid a positions st = Ok st' ->
  deref (d_objs st') b !! 0 = deref (d_objs st) b !! 0.
Proof.
  revert st. induction positions as [|i positions IH]; intros st Hall Hrun.
  - by injection Hrun as <-.
  - apply Forall_cons in Hall as [Hi Hall]. cbn [dup_scan] in Hrun.
    destruct (dup_step self autofix sid a i st) as [[st1|]|] eqn:E; [| |done];
      py_simpl_in Hrun; [|by injection Hrun as <-].
    rewrite (IH st1 Hall Hrun).
    apply (DupScan.dup_step_frame _ _ _ _ _ _ _ b 0 E). congruence.
Qed.

Lemma dup_loop_facts self autofix entries st st' :
  (forall sid a, (sid, a) ∈ entries -> dict_mem (seq_ranks_map self) sid = true) ->
  dup_state_named self autofix st ->
  dup_loop self autofix entries st = Ok st' ->
  dup_state_named self autofix st' /\
  forall b, deref (d_objs st') b !! 0 = deref (d_objs st) b !! 0.
Proof.
  revert st. induction entries as [|[sid a] entries IH]; intros st Hkeys Hn Hrun.
  - by injection Hrun as <-.
  - cbn [dup_loop] in Hrun.
    destruct (dup_scan _ _ _ _ _ _) as [st1|] eqn:E; [|done]. py_simpl_in Hrun.
    assert (Hsid : dict_mem (seq_ranks_map self) sid = true)
      by (apply (Hkeys sid a); left).
    destruct (IH st1) as [Hn' Hk']; [|by eapply dup_scan_named|done|].
    { intros s x Hs. apply (Hkeys s x). by right. }
    split; [done|]. intros b. rewrite Hk'.
    apply (dup_scan_kingdom _ _ _ _ _ _ _ b) in E; [done|].
    apply Forall_forall. intros j Hj. apply list_elem_of_In, in_seq in Hj. lia.
Qed.

Lemma dup_state_named_start (self : state) (autofix : bool) :
  dup_state_named self autofix (mkDup (objs self) [] [] [] []).
Proof. split; [done|]. split; [done|constructor]. Qed.

Lemma entries_are_keys (self : state) (sid : string) (a : nat) :
  (sid, a) ∈ seq_ranks_map self -> dict_mem (seq_ranks_map self) sid = true.
Proof.
  intros H. apply dict_mem_true, list_elem_of_fmap. by exists (sid, a).
Qed.

(** X29. In either mode [check_for_duplicates] leaves both dictionaries as
    they are and never touches the first name of a path (a rewritten name
    changes the uid of its path, and the reverse index is not told); in
    report-only mode it changes nothing at all. *)
Theorem check_for_duplicates_keeps_kingdom (self : state) (autofix : bool)
    (self' : state) (report : list (list string)) :
  check_for_duplicates self autofix = Ok (self', report) ->
  seq_ranks_map self' = seq_ranks_map self /\
  rank_seqs_map self' = rank_seqs_map self /\
  (forall a, deref (objs self') a !! 0 = deref (objs self) a !! 0) /\
  (autofix = false -> self' = self).
Proof.
  intros Hrun.
  assert (Hframe : autofix = false -> self' = self).
  { intros ->. by eapply ReportOnly.check_for_duplicates_detect_frame. }
  revert Hrun. unfold check_for_duplicates. intros Hrun.
  destruct (dup_loop _ _ _ _) as [st|] eqn:E; [|done]. py_simpl_in Hrun.
  injection Hrun as <- _. split; [done|]. split; [done|]. split; [|done].
  destruct (dup_loop_facts _ _ _ _ _ (entries_are_keys self)
              (dup_state_named_start self autofix) E)
    as [_ Hk].
  exact Hk.
Qed.

Lemma check_for_duplicates_keeps_kingdom_witness :
  exists self' report,
    check_for_duplicates scenario_store true = Ok (self', report) /\
    seq_ranks_map self' = seq_ranks_map scenario_store /\
    rank_seqs_map self' = rank_seqs_map scenario_store /\
    (forall a, deref (objs self') a !! 0 = deref (objs scenario_store) a !! 0) /\
    (true = false -> self' = scenario_store).
Proof.
  destruct (check_for_duplicates scenario_store true) as [[self' report]|] eqn:E;
    [|by vm_compute in E].
  exists self', report. split; [done|].
  exact (check_for_duplicates_keeps_kingdom scenario_store true self' report E).
Defined.

(** X30. The records [check_for_duplicates] returns have four fields in
    report-only mode and five in autofix mode, and their first and third
    field are identifiers of the store. *)
Theorem check_for_duplicates_records (self : state) (autofix : bool)
    (self' : state) (report : list (list string)) :
  check_for_duplicates self autofix = Ok (self', report) ->
  Forall (dup_record_ok self autofix) report.
Proof.
  unfold check_for_duplicates. intros Hrun.
  destruct (dup_loop _ _ _ _) as [st|] eqn:E; [|done]. py_simpl_in Hrun.
  injection Hrun as _ <-.
  destruct (dup_loop_facts _ _ _ _ _ (entries_are_keys self)
              (dup_state_named_start self autofix) E)
    as [(_ & Hfx & Hrec) _].
  destruct autofix; [|done]. apply Forall_app. split; [done|].
  unfold audit_records. apply Forall_fmap, Forall_forall. intros [k v] Hkv.
  split; [done|]. exists k, k. cbn [fst snd].
  assert (Hk : dict_mem (seq_ranks_map self) k = true).
  { apply Hfx, dict_mem_true, list_elem_of_fmap. by exists (k, v). }
  by repeat split.
Qed.

Lemma check_for_duplicates_records_witness :
  exists self' report,
    check_for_duplicates scenario_store true = Ok (self', report) /\
    report <> [] /\ Forall (dup_record_ok scenario_store true) report.
Proof.
  destruct (check_for_duplicates scenario_store true) as [[self' report]|] eqn:E;
    [|by vm_compute in E].
  exists self', report. split; [done|]. split.
  - intros ->. by vm_compute in E.
  - exact (check_for_duplicates_records scenario_store true self' report E).
Defined.

End Reports.
